(** * metar_scraper: ingestion of the METAR cache file into the metars table

    A shallow embedding of [go/scraping/cmd/metar_scraper/main.go].  The
    functions of the program ([checkLines], [writeLine], [fileToDB],
    [downloadFile], [run]) are transcribed one for one; the packages they
    call ([regexp], [bufio], [encoding/csv], [database/sql], [os],
    [net/http], [compress/gzip]) are modelled by the small amount of
    behaviour the program observes.  The functions take [time.Parse] as a
    parameter; its model, for the layout the program passes, is in [time]. *)

From Stdlib Require Import ZArith Ascii String List Bool Lia.
From stdpp Require Import base option list strings gmap.

Local Open Scope string_scope.
Local Open Scope list_scope.

(** ** Go values: errors, panics, results *)

(** [fmt.Errorf format args]: the format string is kept apart from the
    operands, one operand per verb of the source ([%v], [%d], [%q], [%w]). *)
Inductive error : Type :=
  | Errorf (format : string) (args : list arg)
  | Sentinel (name : string)
with arg : Type :=
  | V (s : string)
  | D (n : Z)
  | Q (s : string)
  | W (e : option error).

(** A run-time panic; the program can only raise the slice bounds one. *)
Inductive panic : Type :=
  | IndexOutOfRange (index len : nat).

(** What a call of a function of type [func(...) error] does. *)
Inductive outcome : Type :=
  | Nil
  | Err (e : error)
  | Panic (p : panic).

(** What a library call of type [func(...) (A, error)] returns. *)
Inductive res (A : Type) : Type :=
  | Ok (a : A)
  | Error (e : error).
Arguments Ok {A} a.
Arguments Error {A} e.

(** ** Characters the packages treat specially *)

Definition LF : ascii := "010"%char.
Definition CR : ascii := "013"%char.
Definition DQUOTE : ascii := "034"%char.
Definition COMMA : ascii := ","%char.

(** ** Package regexp, for the syntax the six header patterns use

    [^] and [$] (without the [m] flag: begin and end of the text), a
    starred range [[lo-hi]*], and literal characters. *)
Module regexp.

Inductive inst : Type :=
  | BeginText
  | EndText
  | Lit (c : ascii)
  | StarRange (lo hi : ascii).

Record Regexp : Type := { expr : string; prog : list inst }.

Fixpoint parse (s : string) : list inst :=
  match s with
  | EmptyString => []
  | String "^" s' => BeginText :: parse s'
  | String "$" s' => EndText :: parse s'
  | String "[" (String lo (String "-" (String hi (String "]" (String "*" s'))))) =>
      StarRange lo hi :: parse s'
  | String c s' => Lit c :: parse s'
  end.

Definition MustCompile (str : string) : Regexp :=
  {| expr := str; prog := parse str |}.

Definition in_range (lo hi c : ascii) : bool :=
  (nat_of_ascii lo <=? nat_of_ascii c)%nat && (nat_of_ascii c <=? nat_of_ascii hi)%nat.

(** [match_here p b s]: the program [p] matches a prefix of [s]; [b] tells
    whether [s] starts at the beginning of the text. *)
Fixpoint match_here (p : list inst) : bool -> string -> bool :=
  match p with
  | [] => fun _ _ => true
  | i :: p' =>
      let k := match_here p' in
      match i with
      | BeginText => fun b s => b && k b s
      | EndText => fun b s => match s with EmptyString => k b s | String _ _ => false end
      | Lit c => fun _ s =>
          match s with
          | EmptyString => false
          | String d s' => Ascii.eqb c d && k false s'
          end
      | StarRange lo hi =>
          fix star (b : bool) (s : string) {struct s} : bool :=
            k b s ||
            match s with
            | EmptyString => false
            | String d s' => in_range lo hi d && star false s'
            end
      end
  end.

(** The unanchored search of [MatchString]: a match may start anywhere. *)
Fixpoint search (p : list inst) (b : bool) (s : string) : bool :=
  match_here p b s ||
  match s with
  | EmptyString => false
  | String _ s' => search p false s'
  end.

Definition MatchString (re : Regexp) (s : string) : bool :=
  search (prog re) true s.

End regexp.

(** ** Package bufio: a Scanner with the default split function ScanLines *)
Module bufio.

Definition dropCR (data : string) : string :=
  match String.length data with
  | O => data
  | S n =>
      match String.get n data with
      | Some c => if Ascii.eqb c CR then String.substring 0 n data else data
      | None => data
      end
  end.

(** The tokens [ScanLines] cuts out of the bytes of a file: one per
    newline, and a last one for a non-empty unterminated tail. *)
Fixpoint ScanLines (line : string) (data : string) : list string :=
  match data with
  | EmptyString =>
      match line with EmptyString => [] | _ => [dropCR line] end
  | String c data' =>
      if Ascii.eqb c LF then dropCR line :: ScanLines EmptyString data'
      else ScanLines (line +:+ String c EmptyString) data'
  end.

(** [pending]: the lines [Scan] will still deliver; [text]: the token of
    the last successful [Scan]; [failure]: the read error (if any) that
    stops the scanner once [pending] is used up. *)
Record Scanner : Type :=
  { pending : list string; text : string; failure : option error }.

Definition NewScanner (data : string) (fault : option (nat * error)) : Scanner :=
  match fault with
  | None => {| pending := ScanLines EmptyString data; text := EmptyString; failure := None |}
  | Some (n, e) =>
      {| pending := take n (ScanLines EmptyString data); text := EmptyString;
         failure := Some e |}
  end.

Definition Scan (s : Scanner) : bool * Scanner :=
  match pending s with
  | [] => (false, {| pending := []; text := EmptyString; failure := failure s |})
  | l :: rest => (true, {| pending := rest; text := l; failure := failure s |})
  end.

Definition Text (s : Scanner) : string := text s.

(** The scanner that has delivered all its lines, after the [Scan] that
    returned false. *)
Definition drained (s : Scanner) : Scanner :=
  {| pending := []; text := EmptyString; failure := failure s |}.

Definition Err (s : Scanner) : option error :=
  match pending s with [] => failure s | _ :: _ => None end.

End bufio.

(** ** Package encoding/csv: [Reader.Read] with the default settings

    (comma separator, no comment character, strict quotes, no trimming),
    reading the first record of its input. *)
Module csv.

Definition ErrBareQuote : error := Sentinel "csv.ErrBareQuote".
Definition ErrQuote : error := Sentinel "csv.ErrQuote".
Definition EOF : error := Sentinel "io.EOF".

(** [readLine] turns the [\r\n] that ends a line into [\n] and drops a
    [\r] that ends the input. *)
Fixpoint normalize (s : string) : string :=
  match s with
  | EmptyString => EmptyString
  | String c s' =>
      if Ascii.eqb c CR then
        match s' with
        | EmptyString => EmptyString
        | String d s'' =>
            if Ascii.eqb d LF then String LF (normalize s'')
            else String c (normalize s')
        end
      else String c (normalize s')
  end.

(** Empty lines before the record are skipped. *)
Fixpoint skipEmpty (s : string) : string :=
  match s with
  | EmptyString => EmptyString
  | String c s' => if Ascii.eqb c LF then skipEmpty s' else s
  end.

(** Where [readRecord] is inside a record: at the start of a field, in a
    non-quoted field, in a quoted field, or just after a quote met inside a
    quoted field. *)
Inductive place : Type := FieldStart | Bare | Quoted | AfterQuote.

Definition snoc (field : string) (c : ascii) : string :=
  field +:+ String c EmptyString.

Fixpoint parseField (at_ : place) (line field : string) (record : list string)
  : res (list string) :=
  match line with
  | EmptyString =>
      match at_ with
      | Quoted => Error ErrQuote
      | _ => Ok (record ++ [field])
      end
  | String c line' =>
      match at_ with
      | FieldStart | Bare =>
          if Ascii.eqb c DQUOTE then
            match at_ with
            | FieldStart => parseField Quoted line' EmptyString record
            | _ => Error ErrBareQuote
            end
          else if Ascii.eqb c COMMA then
            parseField FieldStart line' EmptyString (record ++ [field])
          else if Ascii.eqb c LF then Ok (record ++ [field])
          else parseField Bare line' (snoc field c) record
      | Quoted =>
          if Ascii.eqb c DQUOTE then parseField AfterQuote line' field record
          else parseField Quoted line' (snoc field c) record
      | AfterQuote =>
          if Ascii.eqb c DQUOTE then parseField Quoted line' (snoc field c) record
          else if Ascii.eqb c COMMA then
            parseField FieldStart line' EmptyString (record ++ [field])
          else if Ascii.eqb c LF then Ok (record ++ [field])
          else Error ErrQuote
      end
  end.

Definition Read (input : string) : res (list string) :=
  match skipEmpty (normalize input) with
  | EmptyString => Error EOF
  | line => parseField FieldStart line EmptyString []
  end.

End csv.

(** ** Package time

    A [Time] is the instant the store compares, in nanoseconds since the
    Unix epoch.  The functions of the program take [time.Parse] as a
    parameter; [Parse] below is the parser of the package for the one layout
    the program passes, [RFC3339], with the helpers of [format.go] it goes
    through ([skip], [getnum], [atoi], [parseNanoseconds]).  It takes more
    than RFC 3339 allows, and less: [timestamp] (further down) states both
    grammars. *)
Module time.

Definition Time : Type := Z.

Definition RFC3339 : string := "2006-01-02T15:04:05Z07:00".

Definition digit (c : ascii) : option Z :=
  let n := nat_of_ascii c in
  if (48 <=? n)%nat && (n <=? 57)%nat then Some (Z.of_nat n - 48)%Z else None.

Definition isLeap (year : Z) : bool :=
  (year mod 4 =? 0)%Z && (negb (year mod 100 =? 0)%Z || (year mod 400 =? 0)%Z).

Definition daysIn (month year : Z) : Z :=
  if (month =? 2)%Z then (if isLeap year then 29 else 28)%Z
  else if (month =? 4)%Z || (month =? 6)%Z || (month =? 9)%Z || (month =? 11)%Z
       then 30%Z else 31%Z.

(** Days from 1970-01-01 to the given civil date. *)
Definition daysSinceEpoch (year month day : Z) : Z :=
  let y := (if month <=? 2 then year - 1 else year)%Z in
  let era := (y / 400)%Z in
  let yoe := (y - era * 400)%Z in
  let mp := (if month <=? 2 then month + 9 else month - 3)%Z in
  let doy := ((153 * mp + 2) / 5 + day - 1)%Z in
  let doe := (yoe * 365 + yoe / 4 - yoe / 100 + doy)%Z in
  (era * 146097 + doe - 719468)%Z.

Definition ErrParse : error := Sentinel "time.ParseError".

(** [isDigit s i]: there is a decimal digit at index [i] of [s]. *)
Definition isDigit (s : list ascii) (i : nat) : bool :=
  match s !! i ≫= digit with Some _ => true | None => false end.

(** [getnum s fixed]: the number of the first two characters when both are
    digits; of the first one when only it is a digit, unless [fixed]. *)
Definition getnum (s : list ascii) (fixed : bool) : option (Z * list ascii) :=
  match s with
  | a :: s1 =>
      match digit a with
      | Some x =>
          match s1 with
          | b :: s2 =>
              match digit b with
              | Some y => Some ((x * 10 + y)%Z, s2)
              | None => if fixed then None else Some (x, s1)
              end
          | [] => if fixed then None else Some (x, s1)
          end
      | None => None
      end
  | [] => None
  end.

(** [leadingInt]: the number of the leading digits, and the rest. *)
Fixpoint leadingInt (x : Z) (s : list ascii) : Z * list ascii :=
  match s with
  | c :: s' =>
      match digit c with
      | Some d => leadingInt (x * 10 + d)%Z s'
      | None => (x, s)
      end
  | [] => (x, s)
  end.

(** [atoi]: an optional sign, then digits to the end. *)
Definition atoi (s : list ascii) : option Z :=
  let '(neg, s) :=
    match s with
    | c :: s' =>
        if Ascii.eqb c "-" then (true, s')
        else if Ascii.eqb c "+" then (false, s') else (false, s)
    | [] => (false, s)
    end in
  match leadingInt 0 s with
  | (x, []) => Some (if neg then (- x)%Z else x)
  | (_, _ :: _) => None
  end.

Definition commaOrPeriod (c : ascii) : bool := Ascii.eqb c "." || Ascii.eqb c ",".

(** [skip value prefix]: [value] without the literal text [prefix] (the
    layout has no space, for which [skip] has a rule of its own). *)
Fixpoint skip (value prefix : list ascii) {struct prefix} : option (list ascii) :=
  match prefix with
  | [] => Some value
  | p :: prefix' =>
      match value with
      | v :: value' => if Ascii.eqb v p then skip value' prefix' else None
      | [] => None
      end
  end.

(** The number of digits [s] starts with. *)
Fixpoint countDigits (s : list ascii) : nat :=
  match s with
  | c :: s' => match digit c with Some _ => S (countDigits s') | None => O end
  | [] => O
  end.

(** [parseNanoseconds value nbytes]: [value] starts with the separator and
    [nbytes - 1] digits, of which nine count. *)
Definition parseNanoseconds (value : list ascii) (nbytes : nat) : option Z :=
  match value with
  | c :: _ =>
      if commaOrPeriod c then
        let nbytes := Nat.min nbytes 10 in
        ns ← atoi (drop 1 (take nbytes value));
        Some (ns * 10 ^ Z.of_nat (10 - nbytes))%Z
      else None
  | [] => None
  end.

(** The elements of a layout that [RFC3339] has. *)
Inductive std : Type :=
  | stdLongYear
  | stdZeroMonth
  | stdZeroDay
  | stdHour
  | stdZeroMinute
  | stdZeroSecond
  | stdISO8601ColonTZ.

(** [RFC3339] as [nextStdChunk] cuts it: each element with the literal text
    before it; no text follows the last one. *)
Definition chunks : list (list ascii * std) :=
  [([], stdLongYear); (["-"%char], stdZeroMonth); (["-"%char], stdZeroDay);
   (["T"%char], stdHour); ([":"%char], stdZeroMinute); ([":"%char], stdZeroSecond);
   ([], stdISO8601ColonTZ)].

(** The variables of [parse]; [z] says that the location was set to UTC. *)
Record fields : Type :=
  { year : Z; month : Z; day : Z; hour : Z; min : Z; sec : Z; nsec : Z;
    z : bool; zoneOffset : Z }.

Definition start : fields :=
  {| year := 0; month := -1; day := -1; hour := 0; min := 0; sec := 0; nsec := 0;
     z := false; zoneOffset := -1 |}.

Definition set_year (v : Z) (f : fields) : fields :=
  {| year := v; month := month f; day := day f; hour := hour f; min := min f;
     sec := sec f; nsec := nsec f; z := z f; zoneOffset := zoneOffset f |}.

Definition set_month (v : Z) (f : fields) : fields :=
  {| year := year f; month := v; day := day f; hour := hour f; min := min f;
     sec := sec f; nsec := nsec f; z := z f; zoneOffset := zoneOffset f |}.

Definition set_day (v : Z) (f : fields) : fields :=
  {| year := year f; month := month f; day := v; hour := hour f; min := min f;
     sec := sec f; nsec := nsec f; z := z f; zoneOffset := zoneOffset f |}.

Definition set_hour (v : Z) (f : fields) : fields :=
  {| year := year f; month := month f; day := day f; hour := v; min := min f;
     sec := sec f; nsec := nsec f; z := z f; zoneOffset := zoneOffset f |}.

Definition set_min (v : Z) (f : fields) : fields :=
  {| year := year f; month := month f; day := day f; hour := hour f; min := v;
     sec := sec f; nsec := nsec f; z := z f; zoneOffset := zoneOffset f |}.

Definition set_sec (v : Z) (f : fields) : fields :=
  {| year := year f; month := month f; day := day f; hour := hour f; min := min f;
     sec := v; nsec := nsec f; z := z f; zoneOffset := zoneOffset f |}.

Definition set_nsec (v : Z) (f : fields) : fields :=
  {| year := year f; month := month f; day := day f; hour := hour f; min := min f;
     sec := sec f; nsec := v; z := z f; zoneOffset := zoneOffset f |}.

Definition set_UTC (f : fields) : fields :=
  {| year := year f; month := month f; day := day f; hour := hour f; min := min f;
     sec := sec f; nsec := nsec f; z := true; zoneOffset := zoneOffset f |}.

Definition set_zoneOffset (v : Z) (f : fields) : fields :=
  {| year := year f; month := month f; day := day f; hour := hour f; min := min f;
     sec := sec f; nsec := nsec f; z := z f; zoneOffset := v |}.

(** The numeric zone [Z07:00]: a sign, two digits, a colon, two digits; the
    range tests are [>], not [>=]. *)
Definition numericZone (value : list ascii) (f : fields) : option (fields * list ascii) :=
  match value with
  | sign :: h1 :: h2 :: colon :: m1 :: m2 :: value' =>
      if Ascii.eqb colon ":" then
        '(hr, _) ← getnum [h1; h2] true;
        '(mm, _) ← getnum [m1; m2] true;
        if (24 <? hr)%Z || (60 <? mm)%Z then None
        else
          let offset := ((hr * 60 + mm) * 60)%Z in
          if Ascii.eqb sign "+" then Some (set_zoneOffset offset f, value')
          else if Ascii.eqb sign "-" then Some (set_zoneOffset (- offset) f, value')
          else None
      else None
  | _ => None
  end.

(** One case of the [switch] of [parse]: the element [s] read off [value]. *)
Definition element (s : std) (value : list ascii) (f : fields)
  : option (fields * list ascii) :=
  match s with
  | stdLongYear =>
      if (length value <? 4)%nat || negb (isDigit value 0) then None
      else y ← atoi (take 4 value); Some (set_year y f, drop 4 value)
  | stdZeroMonth =>
      '(m, value) ← getnum value true;
      if (m <=? 0)%Z || (12 <? m)%Z then None else Some (set_month m f, value)
  | stdZeroDay =>
      '(d, value) ← getnum value true; Some (set_day d f, value)
  | stdHour =>
      '(h, value) ← getnum value false;
      if (h <? 0)%Z || (24 <=? h)%Z then None else Some (set_hour h f, value)
  | stdZeroMinute =>
      '(m, value) ← getnum value true;
      if (m <? 0)%Z || (60 <=? m)%Z then None else Some (set_min m f, value)
  | stdZeroSecond =>
      '(s, value) ← getnum value true;
      if (s <? 0)%Z || (60 <=? s)%Z then None
      else
        match value with
        | c :: _ :: _ =>
            if commaOrPeriod c && isDigit value 1 then
              let n := (2 + countDigits (drop 2 value))%nat in
              ns ← parseNanoseconds value n;
              Some (set_nsec ns (set_sec s f), drop n value)
            else Some (set_sec s f, value)
        | _ => Some (set_sec s f, value)
        end
  | stdISO8601ColonTZ =>
      match value with
      | c :: value' =>
          if Ascii.eqb c "Z" then Some (set_UTC f, value') else numericZone value f
      | [] => numericZone value f
      end
  end.

(** The loop of [parse]: the literal text, then the element, chunk after
    chunk; text left at the end is an error. *)
Fixpoint parse (layout : list (list ascii * std)) (value : list ascii) (f : fields)
  : option fields :=
  match layout with
  | [] => match value with [] => Some f | _ :: _ => None end
  | (prefix, s) :: layout' =>
      value ← skip value prefix;
      '(f, value) ← element s value f;
      parse layout' value f
  end.

(** [Date] on fields in range: the instant of the civil time that was read,
    in the zone that was read (UTC when [Z] was read). *)
Definition Date (f : fields) : Time :=
  let offset := if z f then 0%Z else if (zoneOffset f =? -1)%Z then 0%Z else zoneOffset f in
  ((daysSinceEpoch (year f) (month f) (day f) * 86400
    + hour f * 3600 + min f * 60 + sec f - offset) * 1000000000 + nsec f)%Z.

(** [time.Parse]; the day of the month is checked last.  Only the layout
    [RFC3339] is cut into chunks here. *)
Definition Parse (layout value : string) : res Time :=
  if String.eqb layout RFC3339 then
    match parse chunks (list_ascii_of_string value) start with
    | Some f =>
        if (day f <? 1)%Z || (daysIn (month f) (year f) <? day f)%Z then Error ErrParse
        else Ok (Date f)
    | None => Error ErrParse
    end
  else Error ErrParse.

(** *** The grammars

    A timestamp of RFC 3339, section 5.6, is [YYYY-MM-DD], [T],
    [HH:MM:SS], an optional fraction ([.] and digits) and [Z] or an offset
    [+HH:MM] / [-HH:MM], every number in its range.  A [dialect] says where
    a grammar leaves this form. *)
Record dialect : Type :=
  { short_hour : bool;         (* an hour of one digit *)
    comma : bool;              (* a comma for the period before the fraction *)
    lower_case : bool;         (* t and z for T and Z *)
    leap_second : bool;        (* second 60 *)
    end_of_day_offset : bool   (* offsets up to 24:60 for 23:59 *) }.

(** RFC 3339 itself: [T] and [Z] may be in lower case, and a second may be
    60. *)
Definition rfc3339 : dialect :=
  {| short_hour := false; comma := false; lower_case := true; leap_second := true;
     end_of_day_offset := false |}.

(** What [Parse] takes. *)
Definition layout_RFC3339 : dialect :=
  {| short_hour := true; comma := true; lower_case := false; leap_second := false;
     end_of_day_offset := true |}.

Definition two (a b : ascii) : option Z :=
  x ← digit a; y ← digit b; Some (x * 10 + y)%Z.

Definition upto (hi : Z) (x : option Z) : bool :=
  match x with Some v => (v <=? hi)%Z | None => false end.

Definition letter (d : dialect) (upper lower c : ascii) : bool :=
  Ascii.eqb c upper || lower_case d && Ascii.eqb c lower.

Definition offset_form (d : dialect) (s : list ascii) : bool :=
  match s with
  | [c] => letter d "Z" "z" c
  | [sign; h1; h2; colon; m1; m2] =>
      (Ascii.eqb sign "+" || Ascii.eqb sign "-")
      && Ascii.eqb colon ":"
      && upto (if end_of_day_offset d then 24 else 23) (two h1 h2)
      && upto (if end_of_day_offset d then 60 else 59) (two m1 m2)
  | _ => false
  end.

Definition fraction_form (d : dialect) (s : list ascii) : bool :=
  match s with
  | c :: x :: more =>
      if (Ascii.eqb c "." || comma d && Ascii.eqb c ",") && isDigit [x] 0
      then offset_form d (drop (countDigits more) more)
      else offset_form d s
  | _ => offset_form d s
  end.

Definition seconds_form (d : dialect) (s : list ascii) : bool :=
  match s with
  | c :: s1 :: s2 :: rest =>
      Ascii.eqb c ":" && upto (if leap_second d then 60 else 59) (two s1 s2)
      && fraction_form d rest
  | _ => false
  end.

Definition minutes_form (d : dialect) (s : list ascii) : bool :=
  match s with
  | c :: m1 :: m2 :: rest =>
      Ascii.eqb c ":" && upto 59 (two m1 m2) && seconds_form d rest
  | _ => false
  end.

Definition clock_form (d : dialect) (s : list ascii) : bool :=
  match s with
  | t :: h1 :: h2 :: rest =>
      letter d "T" "t" t
      && match digit h1, digit h2 with
         | Some _, Some _ => upto 23 (two h1 h2) && minutes_form d rest
         | Some _, None => short_hour d && minutes_form d (h2 :: rest)
         | None, _ => false
         end
  | _ => false
  end.

(** [timestamp d value]: [value] is a timestamp of the dialect [d]. *)
Definition timestamp (d : dialect) (value : string) : bool :=
  match list_ascii_of_string value with
  | y1 :: y2 :: y3 :: y4 :: c1 :: m1 :: m2 :: c2 :: d1 :: d2 :: rest =>
      match two y1 y2, two y3 y4, two m1 m2, two d1 d2 with
      | Some century, Some years, Some month, Some day =>
          Ascii.eqb c1 "-" && Ascii.eqb c2 "-"
          && (1 <=? month)%Z && (month <=? 12)%Z
          && (1 <=? day)%Z && (day <=? daysIn month (century * 100 + years))%Z
          && clock_form d rest
      | _, _, _, _ => false
      end
  | _ => false
  end.

End time.

(** ** Package database/sql over the one table the program writes *)
Module sql.

(** A row of table [metars]: columns [station], [time], [csv_parts]. *)
Record Row : Type :=
  { station : string; time : time.Time; csv_parts : list string }.

(** Two rows conflict on the unique index [(station, time)]. *)
Definition conflict (a b : Row) : bool :=
  String.eqb (station a) (station b) && Z.eqb (time a) (time b).

(** [INSERT INTO metars (csv_parts,station,time) VALUES (...)
     ON CONFLICT (station, time) DO UPDATE set csv_parts=EXCLUDED.csv_parts] *)
Definition upsert (new : Row) (table : list Row) : list Row :=
  if existsb (conflict new) table then
    map (fun old =>
           if conflict new old
           then {| station := station old; time := time old;
                   csv_parts := csv_parts new |}
           else old) table
  else table ++ [new].

(** An open transaction: its view of the table, and the statements it has
    executed. *)
Record Tx : Type := { rows : list Row; stmts : list Row }.

End sql.

(** ** The world the program runs in *)

(** The body of an HTTP response seen through [gzip.NewReader]: the fate of
    the gzip header, the bytes the reader decompresses, and how the stream
    ends ([None] for a clean end, an error for a corrupt or cut stream). *)
Record Body : Type :=
  { header : option error; payload : string; trailer : option error }.

Record Response : Type := { StatusCode : Z; body : Body }.

(** Everything outside the program that can fail.  The [_err] fields are the
    failures the system calls report for reasons other than the state of the
    file system below (permissions, a lost connection, ...); [read_fault]
    gives the number of lines after which reading a file fails. *)
Record Env : Type :=
  { http_Get : string -> res Response;
    create_err : string -> option error;
    open_err : string -> option error;
    remove_err : string -> option error;
    read_fault : string -> option (nat * error);
    sql_Open_err : string -> string -> option error;
    begin_err : option error;
    exec_err : nat -> option error;
    commit_err : option error }.

(** The calls that reach the outside world, in the order they were made. *)
Inductive call : Type :=
  | Get (url : string)
  | OpenFile (path : string)
  | Open (path : string)
  | Begin
  | Commit
  | Rollback
  | Remove (path : string).

(** The files on disk, the committed rows of table [metars], and the calls
    made so far. *)
Record World : Type :=
  { fs : gmap string string; metars : list sql.Row; log : list call }.

Definition logged (c : call) (w : World) : World :=
  {| fs := fs w; metars := metars w; log := log w ++ [c] |}.

Definition ErrNotExist : error := Sentinel "fs.ErrNotExist".
Definition ErrExist : error := Sentinel "fs.ErrExist".

Record Flags : Type := { dbURL : string; filename : string; download : bool }.

Definition metarURL : string :=
  "https://www.aviationweather.gov/adds/dataserver_current/current/metars.cache.csv.gz".

Definition metarHeaders : list regexp.Regexp :=
  [ regexp.MustCompile "^No errors$";
    regexp.MustCompile "^No warnings$";
    regexp.MustCompile "^[0-9]* ms$";
    regexp.MustCompile "^data source=metars$";
    regexp.MustCompile "^[0-9]* results$";
    regexp.MustCompile "raw_text,station_id,observation_time,latitude,longitude,temp_c,dewpoint_c,wind_dir_degrees,wind_speed_kt,wind_gust_kt,visibility_statute_mi,altim_in_hg,sea_level_pressure_mb,corrected,auto,auto_station,maintenance_indicator_on,no_signal,lightning_sensor_off,freezing_rain_sensor_off,present_weather_sensor_off,wx_string,sky_cover,cloud_base_ft_agl,sky_cover,cloud_base_ft_agl,sky_cover,cloud_base_ft_agl,sky_cover,cloud_base_ft_agl,flight_category,three_hr_pressure_tendency_mb,maxT_c,minT_c,maxT24hr_c,minT24hr_c,precip_in,pcp3hr_in,pcp6hr_in,pcp24hr_in,snow_in,vert_vis_ft,metar_type,elevation_m" ].

(** ** The program *)

Fixpoint checkLines (patterns : list regexp.Regexp) (scanner : bufio.Scanner)
  : bufio.Scanner * outcome :=
  match patterns with
  | [] => (scanner, Nil)
  | pattern :: patterns' =>
      let '(more, scanner) := bufio.Scan scanner in
      if negb more then
        (scanner,
         Err (Errorf "scan error while looking for %v: %w"
                [V (regexp.expr pattern); W (bufio.Err scanner)]))
      else
        let text := bufio.Text scanner in
        if negb (regexp.MatchString pattern text) then
          (scanner, Err (Errorf "expected %v, got %q" [V (regexp.expr pattern); Q text]))
        else checkLines patterns' scanner
  end.

Section Program.

(** [time.Parse], and the outside world. *)
Variable time_Parse : string -> string -> res time.Time.
Variable env : Env.

(** [tx.Exec] of the upsert statement of [writeLine]. *)
Definition Exec (tx : sql.Tx) (row : sql.Row) : sql.Tx * option error :=
  match exec_err env (length (sql.stmts tx)) with
  | Some e => (tx, Some e)
  | None =>
      ({| sql.rows := sql.upsert row (sql.rows tx);
          sql.stmts := sql.stmts tx ++ [row] |}, None)
  end.

Definition writeLine (tx : sql.Tx) (text : string) : sql.Tx * outcome :=
  match csv.Read text with
  | Error e => (tx, Err (Errorf "parsing line: %w" [W (Some e)]))
  | Ok parts =>
      match parts !! 1%nat with
      | None => (tx, Panic (IndexOutOfRange 1 (length parts)))
      | Some station =>
          match parts !! 2%nat with
          | None => (tx, Panic (IndexOutOfRange 2 (length parts)))
          | Some raw =>
              match time_Parse time.RFC3339 raw with
              | Error e => (tx, Err (Errorf "bad time %q: %w" [Q raw; W (Some e)]))
              | Ok observationTime =>
                  match Exec tx {| sql.station := station;
                                   sql.time := observationTime;
                                   sql.csv_parts := parts |} with
                  | (tx, Some e) => (tx, Err e)
                  | (tx, None) => (tx, Nil)
                  end
              end
          end
      end
  end.

(** The loop [for scanner.Scan() { ... writeLine(tx, text) ... }] of
    [fileToDB], over the lines the scanner still delivers. *)
Fixpoint writeLines (tx : sql.Tx) (lines : list string) : sql.Tx * outcome :=
  match lines with
  | [] => (tx, Nil)
  | text :: lines' =>
      match writeLine tx text with
      | (tx, Nil) => writeLines tx lines'
      | (tx, Err e) => (tx, Err (Errorf "writing line %q: %w" [Q text; W (Some e)]))
      | (tx, Panic p) => (tx, Panic p)
      end
  end.

Definition os_Open (w : World) (name : string) : World * res string :=
  let w := logged (Open name) w in
  match open_err env name with
  | Some e => (w, Error e)
  | None =>
      match fs w !! name with
      | None => (w, Error ErrNotExist)
      | Some data => (w, Ok data)
      end
  end.

(** [db.Begin()], on the one database of the world (the handle [db] of the
    source is left out); the program is the only writer while it runs. *)
Definition db_Begin (w : World) : World * res sql.Tx :=
  let w := logged Begin w in
  match begin_err env with
  | Some e => (w, Error e)
  | None => (w, Ok {| sql.rows := metars w; sql.stmts := [] |})
  end.

(** [tx.Commit()]: the rows of the transaction become the table; a commit
    that reports an error has stored nothing. *)
Definition tx_Commit (w : World) (tx : sql.Tx) : World * option error :=
  let w := logged Commit w in
  match commit_err env with
  | Some e => (w, Some e)
  | None => ({| fs := fs w; metars := sql.rows tx; log := log w |}, None)
  end.

(** [defer tx.Rollback()]: runs when [fileToDB] leaves, by return or by
    panic; the rows of the transaction are dropped, and after a commit there
    is nothing left to undo. *)
Definition defer_Rollback (r : World * outcome) : World * outcome :=
  (logged Rollback (fst r), snd r).

(** [defer file.Close()] has no effect the program observes and is left
    out. *)
Definition fileToDB (w : World) (fname : string) : World * outcome :=
  match os_Open w fname with
  | (w, Error e) => (w, Err (Errorf "opening file: %w" [W (Some e)]))
  | (w, Ok file) =>
      let scanner := bufio.NewScanner file (read_fault env fname) in
      match checkLines metarHeaders scanner with
      | (_, Err e) => (w, Err (Errorf "bad headers: %w" [W (Some e)]))
      | (_, Panic p) => (w, Panic p)
      | (scanner, Nil) =>
          match db_Begin w with
          | (w, Error e) => (w, Err (Errorf "starting transaction: %w" [W (Some e)]))
          | (w, Ok tx) =>
              defer_Rollback
                match writeLines tx (bufio.pending scanner) with
                | (_, Err e) => (w, Err e)
                | (_, Panic p) => (w, Panic p)
                | (tx, Nil) =>
                    match bufio.Err (bufio.drained scanner) with
                    | Some e => (w, Err (Errorf "reading file: %w" [W (Some e)]))
                    | None =>
                        match tx_Commit w tx with
                        | (w, Some e) => (w, Err (Errorf "committing: %w" [W (Some e)]))
                        | (w, None) => (w, Nil)
                        end
                    end
                end
          end
      end
  end.

(** [os.OpenFile(filename, os.O_RDWR|os.O_EXCL|os.O_CREATE, 0666)] *)
Definition os_OpenFile_excl (w : World) (name : string) : World * option error :=
  let w := logged (OpenFile name) w in
  match create_err env name with
  | Some e => (w, Some e)
  | None =>
      match fs w !! name with
      | Some _ => (w, Some ErrExist)
      | None =>
          ({| fs := <[name := EmptyString]> (fs w); metars := metars w; log := log w |},
           None)
      end
  end.

(** [io.Copy(outFile, reader)]: what the reader decompresses reaches the
    file, also when the stream then ends in an error. *)
Definition io_Copy (w : World) (name : string) (reader : Body) : World * option error :=
  ({| fs := <[name := payload reader]> (fs w); metars := metars w; log := log w |},
   trailer reader).

Definition gzip_NewReader (b : Body) : res Body :=
  match header b with
  | Some e => Error e
  | None => Ok b
  end.

Definition downloadFile (w : World) (url filename : string) : World * outcome :=
  let w := logged (Get metarURL) w in
  match http_Get env metarURL with
  | Error e => (w, Err e)
  | Ok resp =>
      if negb (StatusCode resp =? 200)%Z then
        (w, Err (Errorf "unexpected status code %d" [D (StatusCode resp)]))
      else
        match gzip_NewReader (body resp) with
        | Error e => (w, Err (Errorf "gzip error: %w" [W (Some e)]))
        | Ok reader =>
            match os_OpenFile_excl w filename with
            | (w, Some e) =>
                (w, Err (Errorf "error creating file %q: %w" [Q filename; W (Some e)]))
            | (w, None) =>
                match io_Copy w filename reader with
                | (w, Some e) => (w, Err (Errorf "error writing to file: %w" [W (Some e)]))
                | (w, None) => (w, Nil)
                end
            end
        end
  end.

Definition os_Remove (w : World) (name : string) : World * option error :=
  let w := logged (Remove name) w in
  match remove_err env name with
  | Some e => (w, Some e)
  | None =>
      match fs w !! name with
      | None => (w, Some ErrNotExist)
      | Some _ => ({| fs := delete name (fs w); metars := metars w; log := log w |}, None)
      end
  end.

Definition run (w : World) (flags : Flags) : World * outcome :=
  match (if download flags then downloadFile w metarURL (filename flags) else (w, Nil)) with
  | (w, Err e) => (w, Err (Errorf "downloading file: %w" [W (Some e)]))
  | (w, Panic p) => (w, Panic p)
  | (w, Nil) =>
      match sql_Open_err env "postgres" (dbURL flags) with
      | Some e => (w, Err (Errorf "connecting to database: %w" [W (Some e)]))
      | None =>
          match fileToDB w (filename flags) with
          | (w, Err e) => (w, Err (Errorf "storing in database: %w" [W (Some e)]))
          | (w, Panic p) => (w, Panic p)
          | (w, Nil) =>
              if download flags then
                match os_Remove w (filename flags) with
                | (w, Some e) => (w, Err (Errorf "removing file: %w" [W (Some e)]))
                | (w, None) => (w, Nil)
                end
              else (w, Nil)
          end
      end
  end.

End Program.

(** ** Notions the statements below are written with *)

(** The natural key of a row. *)
Definition key (r : sql.Row) : string * time.Time := (sql.station r, sql.time r).

(** The unique index on [(station, time)] that [ON CONFLICT] names. *)
Definition unique (table : list sql.Row) : Prop := NoDup (key <$> table).

(** The rows of a table stored under a key. *)
Definition stored (k : string * time.Time) (table : list sql.Row) : list sql.Row :=
  filter (fun r => key r = k) table.

(** What a conflicting upsert does to one stored row. *)
Definition replace_parts (new old : sql.Row) : sql.Row :=
  if sql.conflict new old
  then {| sql.station := sql.station old; sql.time := sql.time old;
          sql.csv_parts := sql.csv_parts new |}
  else old.

Definition with_parts (parts : list string) (old : sql.Row) : sql.Row :=
  {| sql.station := sql.station old; sql.time := sql.time old; sql.csv_parts := parts |}.

(** A row after the conflicting ones among a sequence of upserts. *)
Definition replace_all (recs : list sql.Row) (old : sql.Row) : sql.Row :=
  foldl (fun x r => replace_parts r x) old recs.

(** The statements of a transaction, executed in order. *)
Definition upserts (table : list sql.Row) (recs : list sql.Row) : list sql.Row :=
  foldl (fun t r => sql.upsert r t) table recs.

(** The row [writeLine] builds from a line, when the line gets that far. *)
Definition record_of (time_Parse : string -> string -> res time.Time) (text : string)
  : option sql.Row :=
  match csv.Read text with
  | Error _ => None
  | Ok parts =>
      station ← parts !! 1%nat;
      raw ← parts !! 2%nat;
      match time_Parse time.RFC3339 raw with
      | Error _ => None
      | Ok t => Some {| sql.station := station; sql.time := t; sql.csv_parts := parts |}
      end
  end.

(** A pattern accepts a line. *)
Definition accepts (pattern : regexp.Regexp) (line : string) : Prop :=
  regexp.MatchString pattern line = true.

(** The transaction [db.Begin] opens on a world. *)
Definition begun (w : World) : sql.Tx := {| sql.rows := metars w; sql.stmts := [] |}.

(** The transaction after it has executed the upserts of [recs]. *)
Definition executed (tx : sql.Tx) (recs : list sql.Row) : sql.Tx :=
  {| sql.rows := upserts (sql.rows tx) recs; sql.stmts := sql.stmts tx ++ recs |}.

(** A scanner about to deliver [lines]. *)
Definition feed (lines : list string) (failure : option error) : bufio.Scanner :=
  {| bufio.pending := lines; bufio.text := EmptyString; bufio.failure := failure |}.

(** The world after a successful ingestion of the records [recs]. *)
Definition ingested (w : World) (fname : string) (recs : list sql.Row) : World :=
  {| fs := fs w; metars := upserts (metars w) recs;
     log := log w ++ [Open fname; Begin; Commit; Rollback] |}.

(** The calls made between two worlds of one run. *)
Definition calls_since (w w' : World) : list call := drop (length (log w)) (log w').

(** [fileToDB] on [w] reaches its loop: the file opens, its header block is
    accepted, which leaves the scanner at [sc], and the transaction begins. *)
Definition data_phase (env : Env) (w : World) (fname : string) (sc : bufio.Scanner) : Prop :=
  open_err env fname = None
  /\ begin_err env = None
  /\ exists data, fs w !! fname = Some data
       /\ checkLines metarHeaders (bufio.NewScanner data (read_fault env fname)) = (sc, Nil).

(** The lines of a file after its header block, and their records. *)
Definition data_lines (data : string) : list string :=
  drop (length metarHeaders) (bufio.ScanLines EmptyString data).

Definition file_records (time_Parse : string -> string -> res time.Time) (data : string)
  : option (list sql.Row) :=
  mapM (record_of time_Parse) (data_lines data).

(** The first step of [run]: the download, when the flag asks for it. *)
Definition fetched (env : Env) (w : World) (flags : Flags) : World * outcome :=
  if download flags then downloadFile env w metarURL (filename flags) else (w, Nil).

(** An outside world in which nothing fails; the server answers 200 with
    the given bytes, gzipped. *)
Definition quiet (served : string) : Env :=
  {| http_Get := fun _ =>
       Ok {| StatusCode := 200;
             body := {| header := None; payload := served; trailer := None |} |};
     create_err := fun _ => None;
     open_err := fun _ => None;
     remove_err := fun _ => None;
     read_fault := fun _ => None;
     sql_Open_err := fun _ _ => None;
     begin_err := None;
     exec_err := fun _ => None;
     commit_err := None |}.

(** Sample files. *)
Definition unlines (ls : list string) : string :=
  foldr (fun l s => l +:+ String LF s) EmptyString ls.

Definition columns : string :=
  regexp.expr (default (regexp.MustCompile EmptyString) (last metarHeaders)).

Definition sample_headers : list string :=
  ["No errors"; "No warnings"; "3 ms"; "data source=metars"; "2 results"; columns].

Definition sample_file : string :=
  unlines (sample_headers ++
           ["KSEA 010000Z AUTO,KSEA,2024-01-01T00:00:00Z,47.45";
            "KPDX 010005Z AUTO,KPDX,2024-01-01T00:05:00Z,45.59"]).

Definition revised_file : string :=
  unlines (sample_headers ++ ["KSEA 010000Z COR,KSEA,2024-01-01T00:00:00Z,47.45,-122.31"]).

(** A file whose second record has no valid time, and one whose column line
    carries text around the column names. *)
Definition broken_file : string :=
  unlines (sample_headers ++
           ["KSEA 010000Z AUTO,KSEA,2024-01-01T00:00:00Z,47.45";
            "KPDX 010005Z AUTO,KPDX,2024-13-40,45.59"]).

Definition altered_file : string :=
  unlines (["No errors"; "No warnings"; "3 ms"; "data source=metars"; "1 results";
            "#" +:+ columns +:+ ",extra_column";
            "KSEA 010000Z AUTO,KSEA,2024-01-01T00:00:00Z,47.45"]).

(** A file whose record has an hour of one digit. *)
Definition lenient_file : string :=
  unlines (sample_headers ++ ["KSEA 010000Z AUTO,KSEA,2024-01-01T0:00:00Z,47.45"]).

(** The reading of the data model under which every station that reaches
    the writer is non-empty. *)
Definition station_never_empty : Prop :=
  forall time_Parse env tx text tx' row,
    writeLine time_Parse env tx text = (tx', Nil) ->
    sql.stmts tx' = sql.stmts tx ++ [row] ->
    sql.station row <> EmptyString.

(** C6 as the spec words it: a field 2 that is no timestamp of RFC 3339
    makes [writeLine] fail. *)
Definition invalid_time_rejected : Prop :=
  forall env tx text parts raw,
    csv.Read text = Ok parts ->
    parts !! 2%nat = Some raw ->
    time.timestamp time.rfc3339 raw = false ->
    snd (writeLine time.Parse env tx text) <> Nil.

(** Two of the header patterns, and a transaction with nothing in it. *)
Definition two_patterns : list regexp.Regexp :=
  [regexp.MustCompile "^No errors$"; regexp.MustCompile "^[0-9]* ms$"].

Definition empty_tx : sql.Tx := {| sql.rows := []; sql.stmts := [] |}.

(** Outside worlds with one fault each: the server answers 404; the gzip
    stream breaks after some bytes; the removal of files is refused. *)
Definition not_found : Env :=
  {| http_Get := fun _ =>
       Ok {| StatusCode := 404;
             body := {| header := None; payload := EmptyString; trailer := None |} |};
     create_err := fun _ => None;
     open_err := fun _ => None;
     remove_err := fun _ => None;
     read_fault := fun _ => None;
     sql_Open_err := fun _ _ => None;
     begin_err := None;
     exec_err := fun _ => None;
     commit_err := None |}.

Definition cut_stream : Env :=
  {| http_Get := fun _ =>
       Ok {| StatusCode := 200;
             body := {| header := None; payload := "No errors";
                        trailer := Some (Sentinel "io.ErrUnexpectedEOF") |} |};
     create_err := fun _ => None;
     open_err := fun _ => None;
     remove_err := fun _ => None;
     read_fault := fun _ => None;
     sql_Open_err := fun _ _ => None;
     begin_err := None;
     exec_err := fun _ => None;
     commit_err := None |}.

Definition bad_gzip : Env :=
  {| http_Get := fun _ =>
       Ok {| StatusCode := 200;
             body := {| header := Some (Sentinel "gzip.ErrHeader");
                        payload := EmptyString; trailer := None |} |};
     create_err := fun _ => None;
     open_err := fun _ => None;
     remove_err := fun _ => None;
     read_fault := fun _ => None;
     sql_Open_err := fun _ _ => None;
     begin_err := None;
     exec_err := fun _ => None;
     commit_err := None |}.

Definition locked (served : string) : Env :=
  {| http_Get := http_Get (quiet served);
     create_err := fun _ => None;
     open_err := fun _ => None;
     remove_err := fun _ => Some (Sentinel "fs.ErrPermission");
     read_fault := fun _ => None;
     sql_Open_err := fun _ _ => None;
     begin_err := None;
     exec_err := fun _ => None;
     commit_err := None |}.

Definition nothing : World := {| fs := ∅; metars := []; log := [] |}.

(** Command lines: with the download, and on a file that is already there. *)
Definition with_download : Flags :=
  {| dbURL := "dbname=metars"; filename := "metars.csv"; download := true |}.

Definition without_download : Flags :=
  {| dbURL := "dbname=metars"; filename := "metars.csv"; download := false |}.

Definition two_files : World :=
  {| fs := {[ "first.csv" := sample_file; "second.csv" := revised_file ]};
     metars := []; log := [] |}.

(** The rows of the sample files. *)
Definition ksea : sql.Row :=
  {| sql.station := "KSEA"; sql.time := 1704067200000000000%Z;
     sql.csv_parts := ["KSEA 010000Z AUTO"; "KSEA"; "2024-01-01T00:00:00Z"; "47.45"] |}.

Definition kpdx : sql.Row :=
  {| sql.station := "KPDX"; sql.time := 1704067500000000000%Z;
     sql.csv_parts := ["KPDX 010005Z AUTO"; "KPDX"; "2024-01-01T00:05:00Z"; "45.59"] |}.

Definition ksea_revised : sql.Row :=
  {| sql.station := "KSEA"; sql.time := 1704067200000000000%Z;
     sql.csv_parts := ["KSEA 010000Z COR"; "KSEA"; "2024-01-01T00:00:00Z"; "47.45";
                       "-122.31"] |}.

(** One ingestion of a file on disk, in the quiet world. *)
Definition ingest (w : World) (fname : string) : World * outcome :=
  fileToDB time.Parse (quiet EmptyString) w fname.

Definition on_disk (name data : string) : World :=
  {| fs := {[ name := data ]}; metars := []; log := [] |}.

(** ** Package flag, and the command line of the program *)
Module flag.

(** The errors of [FlagSet.Parse]; with [flag.ExitOnError] each of them
    ends the process inside [Parse]. *)
Inductive failure : Type :=
  | BadSyntax (arg : string)
  | NotDefined (name : string)
  | Help
  | InvalidBoolean (value name : string)
  | NeedsArgument (name : string).

(** [strconv.ParseBool], which a boolean flag uses on its value. *)
Definition ParseBool (str : string) : option bool :=
  if (String.eqb str "1" || String.eqb str "t" || String.eqb str "T"
      || String.eqb str "true" || String.eqb str "TRUE" || String.eqb str "True")%bool
  then Some true
  else if (String.eqb str "0" || String.eqb str "f" || String.eqb str "F"
           || String.eqb str "false" || String.eqb str "FALSE"
           || String.eqb str "False")%bool
  then Some false
  else None.

(** What [parseOne] makes of one argument: not a flag (shorter than two
    characters, or no leading dash), the terminator [--], a malformed flag, or
    a flag name with the value that follows an equals sign, if any. *)
Inductive token : Type :=
  | NonFlag
  | Terminator
  | Bad
  | Flag (name : string) (value : option string).

(** The name up to the first equals sign, and what follows that sign. *)
Fixpoint cut (name : string) : string * option string :=
  match name with
  | EmptyString => (EmptyString, None)
  | String c name' =>
      if Ascii.eqb c "=" then (EmptyString, Some name')
      else let '(n, v) := cut name' in (String c n, v)
  end.

(** The name behind the dashes; an equals sign cannot be its first
    character, nor a dash. *)
Definition named (name : string) : token :=
  match name with
  | EmptyString => Bad
  | String c name' =>
      if Ascii.eqb c "-" || Ascii.eqb c "=" then Bad
      else let '(n, v) := cut name' in Flag (String c n) v
  end.

Definition scan (s : string) : token :=
  match s with
  | String "-" (String "-" EmptyString) => Terminator
  | String "-" (String "-" name) => named name
  | String "-" (String c name) => named (String c name)
  | _ => NonFlag
  end.

Section FlagSet.

(** The variables the flags are bound to live in a value of type [S]. *)
Variable S : Type.

Inductive Value : Type :=
  | stringValue (set : string -> S -> S)
  | boolValue (set : bool -> S -> S).

(** [StringVar] and [BoolVar] define a flag and store its default. *)
Definition StringVar (formal : gmap string Value) (set : string -> S -> S)
    (name value : string) (s : S) : gmap string Value * S :=
  (<[name := stringValue set]> formal, set value s).

Definition BoolVar (formal : gmap string Value) (set : bool -> S -> S)
    (name : string) (value : bool) (s : S) : gmap string Value * S :=
  (<[name := boolValue set]> formal, set value s).

(** The loop of [Parse] over [parseOne]: it ends at the first argument
    that is not a flag, after the terminator, or with the first failure. *)
Fixpoint Parse (formal : gmap string Value) (arguments : list string) (s : S)
  : S + failure :=
  match arguments with
  | [] => inl s
  | a :: args =>
      match scan a with
      | NonFlag => inl s
      | Terminator => inl s
      | Bad => inr (BadSyntax a)
      | Flag name value =>
          match formal !! name with
          | None =>
              if String.eqb name "help" || String.eqb name "h" then inr Help
              else inr (NotDefined name)
          | Some (boolValue set) =>
              match value with
              | Some v =>
                  match ParseBool v with
                  | Some b => Parse formal args (set b s)
                  | None => inr (InvalidBoolean v name)
                  end
              | None => Parse formal args (set true s)
              end
          | Some (stringValue set) =>
              match value with
              | Some v => Parse formal args (set v s)
              | None =>
                  match args with
                  | v :: args' => Parse formal args' (set v s)
                  | [] => inr (NeedsArgument name)
                  end
              end
          end
      end
  end.

End FlagSet.

Arguments stringValue {S} set.
Arguments boolValue {S} set.
Arguments StringVar {S} formal set name value s.
Arguments BoolVar {S} formal set name value s.
Arguments Parse {S} formal arguments s.

End flag.

(** The assignments through the pointers [&f.dbURL], [&f.filename] and
    [&f.download]. *)
Definition set_dbURL (v : string) (f : Flags) : Flags :=
  {| dbURL := v; filename := filename f; download := download f |}.

Definition set_filename (v : string) (f : Flags) : Flags :=
  {| dbURL := dbURL f; filename := v; download := download f |}.

Definition set_download (v : bool) (f : Flags) : Flags :=
  {| dbURL := dbURL f; filename := filename f; download := v |}.

(** [(f *Flags) Parse(args)]: the flags as parsed, or the failure with
    which [flag.ExitOnError] ends the process. *)
Definition Flags_Parse (f : Flags) (args : list string) : Flags + flag.failure :=
  let fs : gmap string (flag.Value Flags) := ∅ in
  let '(fs, f) := flag.StringVar fs set_dbURL "dburl" EmptyString f in
  let '(fs, f) := flag.StringVar fs set_filename "filename" EmptyString f in
  let '(fs, f) := flag.BoolVar fs set_download "download" true f in
  flag.Parse fs args f.

(** How the process ends: [main] returns, [flag] exits on the command line,
    [log.Fatal] exits on the error of [run], or a panic crashes it. *)
Inductive ending : Type :=
  | Returned
  | UsageExit (why : flag.failure)
  | Fatal (e : error)
  | Crashed (p : panic).

(** [main], on the arguments [os.Args[1:]]. *)
Definition main (time_Parse : string -> string -> res time.Time) (env : Env)
    (w : World) (args : list string) : World * ending :=
  let flags := {| dbURL := EmptyString; filename := EmptyString; download := false |} in
  match Flags_Parse flags args with
  | inr why => (w, UsageExit why)
  | inl flags =>
      match run time_Parse env w flags with
      | (w, Nil) => (w, Returned)
      | (w, Err e) => (w, Fatal e)
      | (w, Panic p) => (w, Crashed p)
      end
  end.

(** A run of ASCII digits, possibly empty. *)
Definition digits (s : string) : Prop :=
  Forall (fun c => regexp.in_range "0" "9" c = true) (list_ascii_of_string s).

(** The flags [Flags.Parse] defines, as [flag.StringVar] and [flag.BoolVar]
    leave them in the flag set. *)
Definition formal : gmap string (flag.Value Flags) :=
  <["download" := flag.boolValue set_download]>
    (<["filename" := flag.stringValue set_filename]>
       (<["dburl" := flag.stringValue set_dbURL]> ∅)).

(** The flags before any argument is read, and the zero value of [main]. *)
Definition default_flags : Flags :=
  {| dbURL := EmptyString; filename := EmptyString; download := true |}.

Definition zero_flags : Flags :=
  {| dbURL := EmptyString; filename := EmptyString; download := false |}.

(** The argument [a] is the flag [name], with one dash or two, alone or
    with a value after an equals sign. *)
Definition spelled (name a : string) : Prop :=
  a = "-" +:+ name \/ a = "--" +:+ name
  \/ exists v, a = "-" +:+ name +:+ "=" +:+ v \/ a = "--" +:+ name +:+ "=" +:+ v.

(** A file with two lines for one station and time, and a world that has
    it on disk and another station in the table. *)
Definition repeated_file : string :=
  unlines (sample_headers ++
           ["KSEA 010000Z AUTO,KSEA,2024-01-01T00:00:00Z,47.45";
            "KSEA 010000Z COR,KSEA,2024-01-01T00:00:00Z,47.45,-122.31"]).

Definition repeated_on_disk : World :=
  {| fs := {[ "metars.csv" := repeated_file ]}; metars := [kpdx]; log := [] |}.

(** A file with an empty line among its data lines. *)
Definition gapped_file : string :=
  unlines (sample_headers ++
           ["KSEA 010000Z AUTO,KSEA,2024-01-01T00:00:00Z,47.45"; EmptyString;
            "KPDX 010005Z AUTO,KPDX,2024-01-01T00:05:00Z,45.59"]).

(** An outside world in which the second statement of a transaction
    fails. *)
Definition second_write_fails : Env :=
  {| http_Get := http_Get (quiet EmptyString);
     create_err := fun _ => None;
     open_err := fun _ => None;
     remove_err := fun _ => None;
     read_fault := fun _ => None;
     sql_Open_err := fun _ _ => None;
     begin_err := None;
     exec_err := fun n => if (n =? 1)%nat then Some (Sentinel "driver.ErrBadConn") else None;
     commit_err := None |}.

(** Proof steps for the log of calls: the calls a path of the program
    made, and a call that is none of those made. *)
Ltac made_calls cs :=
  exists cs; cbn; rewrite <- ?app_assoc;
  split; [reflexivity | repeat constructor].

Ltac other_call H :=
  repeat (apply elem_of_cons in H as [H|H]; [discriminate H|]);
  now apply elem_of_nil in H.

(** Proof steps for the parser of timestamps: one more case of a test on
    a character or on a number, and a string that is refused. *)
Ltac time_simpl :=
  cbn -[time.digit time.two time.daysIn Z.mul Z.add Z.opp Z.leb Z.ltb].

Ltac time_case :=
  match goal with
  | |- context [Ascii.eqb ?a ?b] => destruct (Ascii.eqb_spec a b); [subst|]
  | |- context [time.digit ?c] =>
      tryif is_var c then destruct (time.digit c)
      else
        let v := eval vm_compute in (time.digit c) in
        change (time.digit c) with v
  | |- context [(?a <? ?b)%Z] => destruct (Z.ltb_spec a b)
  | |- context [(?a <=? ?b)%Z] => destruct (Z.leb_spec a b)
  end.

Ltac time_cases :=
  repeat (time_simpl; unfold time.two, time.upto, time.letter; time_simpl; try time_case);
  try reflexivity; try lia; try easy.

Ltac refused :=
  time_simpl;
  repeat (match goal with
          | |- context [match ?l with [] => _ | _ :: _ => _ end] => is_var l; destruct l
          | |- context [time.digit ?c] => is_var c; destruct (time.digit c)
          | |- context [Ascii.eqb ?c ?k] => is_var c; destruct (Ascii.eqb c k)
          | |- context [(?a <=? ?b)%Z] => destruct (a <=? b)%Z
          end; time_simpl);
  reflexivity.

(** ** The table under upserts *)

Lemma conflict_key a b : sql.conflict a b = true <-> key a = key b.
Proof.
  unfold sql.conflict, key. rewrite andb_true_iff, String.eqb_eq, Z.eqb_eq.
  split; [intros [-> ->]; reflexivity | intros [= -> ->]; auto].
Qed.

Lemma conflict_false_key a b : sql.conflict a b = false <-> key a <> key b.
Proof.
  rewrite <- conflict_key. destruct (sql.conflict a b); split; congruence.
Qed.

Lemma existsb_conflict r t :
  existsb (sql.conflict r) t = true <-> key r ∈ key <$> t.
Proof.
  rewrite existsb_exists, list_elem_of_fmap. split.
  - intros (x & Hx & Hc). exists x. split; [now apply conflict_key|].
    now apply list_elem_of_In.
  - intros (x & Hk & Hx). exists x. split; [now apply list_elem_of_In|].
    apply conflict_key. congruence.
Qed.

Lemma key_replace_parts new old : key (replace_parts new old) = key old.
Proof. unfold replace_parts. destruct (sql.conflict new old); reflexivity. Qed.

Lemma upsert_conflict r t :
  key r ∈ key <$> t -> sql.upsert r t = replace_parts r <$> t.
Proof.
  intros H. apply existsb_conflict in H. unfold sql.upsert. rewrite H. reflexivity.
Qed.

Lemma upsert_fresh r t : key r ∉ key <$> t -> sql.upsert r t = t ++ [r].
Proof.
  intros H. unfold sql.upsert.
  destruct (existsb (sql.conflict r) t) eqn:E; [|reflexivity].
  apply existsb_conflict in E. contradiction.
Qed.

Lemma keys_replace_parts r (t : list sql.Row) : key <$> (replace_parts r <$> t) = key <$> t.
Proof.
  rewrite <- list_fmap_compose. apply list_fmap_ext. intros i x _. apply key_replace_parts.
Qed.

Lemma keys_upsert r t :
  key <$> sql.upsert r t =
  if decide (key r ∈ key <$> t) then key <$> t else (key <$> t) ++ [key r].
Proof.
  destruct (decide _) as [H|H].
  - rewrite upsert_conflict by assumption. apply keys_replace_parts.
  - rewrite upsert_fresh by assumption. now rewrite fmap_app.
Qed.

Lemma key_in_upsert r t : key r ∈ key <$> sql.upsert r t.
Proof.
  rewrite keys_upsert. destruct (decide _) as [H|H]; [assumption|].
  apply elem_of_app. right. apply list_elem_of_singleton. reflexivity.
Qed.

Lemma keys_upsert_mono r t k : k ∈ key <$> t -> k ∈ key <$> sql.upsert r t.
Proof.
  intros Hk. rewrite keys_upsert. destruct (decide _) as [H|H]; [assumption|].
  apply elem_of_app. now left.
Qed.

Lemma unique_upsert r t : unique t -> unique (sql.upsert r t).
Proof.
  unfold unique. rewrite keys_upsert. destruct (decide _) as [H|H]; [auto|].
  intros Hn. apply NoDup_app. split; [assumption|]. split.
  - intros k Hk Hr. apply list_elem_of_singleton in Hr. congruence.
  - apply NoDup_singleton.
Qed.

Lemma unique_upserts recs : forall t, unique t -> unique (upserts t recs).
Proof.
  induction recs as [|r recs IH]; intros t Ht; [assumption|].
  apply IH, unique_upsert, Ht.
Qed.

Lemma upserts_app t xs ys : upserts t (xs ++ ys) = upserts (upserts t xs) ys.
Proof. apply foldl_app. Qed.

Lemma replace_parts_conflict r x :
  key r = key x -> replace_parts r x = with_parts (sql.csv_parts r) x.
Proof. intros H. apply conflict_key in H. unfold replace_parts. now rewrite H. Qed.

Lemma replace_parts_other r x : key r <> key x -> replace_parts r x = x.
Proof. intros H. apply conflict_false_key in H. unfold replace_parts. now rewrite H. Qed.

Lemma in_upsert_inv x r t :
  x ∈ sql.upsert r t ->
  (key r <> key x /\ x ∈ t) \/ (key r = key x /\ sql.csv_parts x = sql.csv_parts r).
Proof.
  destruct (decide (key r ∈ key <$> t)) as [H|H].
  - rewrite upsert_conflict by assumption.
    intros (y & -> & Hy)%list_elem_of_fmap.
    destruct (decide (key r = key y)) as [E|E].
    + right. rewrite replace_parts_conflict by assumption. split; auto.
    + left. rewrite replace_parts_other by assumption. split; auto.
  - rewrite upsert_fresh by assumption.
    intros [Hx| ->%list_elem_of_singleton]%elem_of_app; [|right; split; reflexivity].
    left. split; [|assumption]. intros E. apply H. rewrite E.
    apply list_elem_of_fmap. eauto.
Qed.

Lemma upserts_cons t r recs : upserts t (r :: recs) = upserts (sql.upsert r t) recs.
Proof. reflexivity. Qed.

Lemma upserts_keys_mono recs : forall t k,
  k ∈ key <$> t -> k ∈ key <$> upserts t recs.
Proof.
  induction recs as [|r recs IH]; intros t k Hk; [assumption|].
  rewrite upserts_cons. apply IH, keys_upsert_mono, Hk.
Qed.

Lemma upserts_keys_present recs : forall t r,
  r ∈ recs -> key r ∈ key <$> upserts t recs.
Proof.
  induction recs as [|r0 recs IH]; intros t r Hr.
  - now apply elem_of_nil in Hr.
  - apply elem_of_cons in Hr as [-> | Hr].
    + rewrite upserts_cons. apply upserts_keys_mono, key_in_upsert.
    + rewrite upserts_cons. apply IH, Hr.
Qed.

Lemma upserts_present recs : forall t,
  (forall r, r ∈ recs -> key r ∈ key <$> t) ->
  upserts t recs = replace_all recs <$> t.
Proof.
  induction recs as [|r recs IH]; intros t Hp.
  - symmetry. apply list_fmap_id.
  - rewrite upserts_cons, upsert_conflict by (apply Hp; left).
    rewrite IH.
    + rewrite <- list_fmap_compose. reflexivity.
    + intros r' Hr'. rewrite keys_replace_parts. apply Hp. now right.
Qed.

Lemma upserts_untouched recs : forall t x,
  x ∈ upserts t recs -> (forall r, r ∈ recs -> key r <> key x) -> x ∈ t.
Proof.
  induction recs as [|r recs IH]; intros t x Hx Hn; [assumption|].
  rewrite upserts_cons in Hx. apply IH in Hx; [|intros r' Hr'; apply Hn; now right].
  apply in_upsert_inv in Hx as [[_ Hx]|[E _]]; [assumption|].
  exfalso. apply (Hn r); [left|assumption].
Qed.

Lemma replace_all_untouched recs : forall x,
  (forall r, r ∈ recs -> key r <> key x) -> replace_all recs x = x.
Proof.
  induction recs as [|r recs IH]; intros x Hn; [reflexivity|].
  change (replace_all recs (replace_parts r x) = x).
  rewrite replace_parts_other by (apply Hn; left).
  apply IH. intros r' Hr'. apply Hn. now right.
Qed.

Lemma replace_all_key_only recs : forall x p,
  (exists r, r ∈ recs /\ key r = key x) ->
  replace_all recs (with_parts p x) = replace_all recs x.
Proof.
  induction recs as [|r recs IH]; intros x p (r0 & Hr0 & Hk).
  - now apply elem_of_nil in Hr0.
  - change (replace_all recs (replace_parts r (with_parts p x))
            = replace_all recs (replace_parts r x)).
    assert (Hkp : key (with_parts p x) = key x) by reflexivity.
    destruct (decide (key r = key x)) as [E|E].
    + rewrite !replace_parts_conflict by congruence. reflexivity.
    + rewrite !replace_parts_other by congruence.
      apply IH. apply elem_of_cons in Hr0 as [-> | Hr0]; [contradiction|eauto].
Qed.

Lemma replace_all_fixed recs : forall t x,
  x ∈ upserts t recs -> replace_all recs x = x.
Proof.
  induction recs as [|r recs IH]; intros t x Hx; [reflexivity|].
  rewrite upserts_cons in Hx. pose proof (IH _ _ Hx) as Hfix.
  change (replace_all recs (replace_parts r x) = x).
  destruct (decide (key r = key x)) as [E|E];
    [|rewrite replace_parts_other by assumption; exact Hfix].
  rewrite replace_parts_conflict by assumption.
  destruct (decide (Exists (fun r' => key r' = key x) recs)) as [Hex|Hex].
  - apply Exists_exists in Hex. rewrite replace_all_key_only by exact Hex. exact Hfix.
  - assert (Hn : forall r', r' ∈ recs -> key r' <> key x).
    { intros r' Hr' Hk. apply Hex, Exists_exists. eauto. }
    rewrite replace_all_untouched by exact Hn.
    apply upserts_untouched in Hx; [|exact Hn].
    apply in_upsert_inv in Hx as [[Hne _]|[_ Hp]]; [contradiction|].
    destruct x; cbn in *. unfold with_parts; cbn. congruence.
Qed.

Lemma upserts_idempotent t recs : upserts (upserts t recs) recs = upserts t recs.
Proof.
  rewrite upserts_present by (intros r Hr; now apply upserts_keys_present).
  rewrite <- (list_fmap_id (upserts t recs)) at 2.
  apply list_fmap_ext. intros i x Hx.
  apply (replace_all_fixed recs t). apply list_elem_of_lookup. eauto.
Qed.

Lemma stored_unique t x :
  unique t -> x ∈ t -> stored (key x) t = [x].
Proof.
  unfold unique, stored. induction t as [|y t IH]; intros Hn Hx.
  - now apply elem_of_nil in Hx.
  - rewrite fmap_cons in Hn. apply NoDup_cons in Hn as [Hy Hn].
    apply elem_of_cons in Hx as [-> | Hx].
    + rewrite filter_cons_True by reflexivity. f_equal.
      apply elem_of_nil_inv. intros z (Hz & Hin)%list_elem_of_filter.
      apply Hy. rewrite <- Hz. apply list_elem_of_fmap. eauto.
    + rewrite filter_cons_False; [now apply IH|].
      intros E. apply Hy. rewrite E. apply list_elem_of_fmap. eauto.
Qed.

Lemma stored_other_upsert r t k :
  key r <> k -> stored k (sql.upsert r t) = stored k t.
Proof.
  intros Hk. unfold stored. destruct (decide (key r ∈ key <$> t)) as [H|H].
  - rewrite upsert_conflict by assumption. clear H.
    induction t as [|y t IH]; [reflexivity|].
    rewrite fmap_cons, !filter_cons, key_replace_parts, IH.
    destruct (decide (key y = k)) as [E|E]; [|reflexivity].
    rewrite replace_parts_other by congruence. reflexivity.
  - rewrite upsert_fresh by assumption.
    rewrite filter_app, filter_cons_False by assumption.
    apply app_nil_r.
Qed.

Lemma in_upsert_new r t : with_parts (sql.csv_parts r) r ∈ sql.upsert r t.
Proof.
  destruct (decide (key r ∈ key <$> t)) as [H|H].
  - rewrite upsert_conflict by assumption.
    apply list_elem_of_fmap in H as (y & Hk & Hy).
    apply list_elem_of_fmap. exists y. split; [|assumption].
    rewrite replace_parts_conflict by assumption.
    unfold with_parts, key in *. injection Hk as -> ->. reflexivity.
  - rewrite upsert_fresh by assumption. apply elem_of_app. right.
    apply list_elem_of_singleton. destruct r; reflexivity.
Qed.

Lemma stored_upsert r t :
  unique t -> stored (key r) (sql.upsert r t) = [r].
Proof.
  intros Hu. pose proof (in_upsert_new r t) as Hin.
  replace (with_parts (sql.csv_parts r) r) with r in Hin by (destruct r; reflexivity).
  apply stored_unique; [apply unique_upsert, Hu | exact Hin].
Qed.

(** ** The header validator *)

Lemma Scan_cons sc l rest :
  bufio.pending sc = l :: rest ->
  bufio.Scan sc =
  (true, {| bufio.pending := rest; bufio.text := l; bufio.failure := bufio.failure sc |}).
Proof. intros H. unfold bufio.Scan. now rewrite H. Qed.

Lemma Scan_nil sc :
  bufio.pending sc = [] ->
  bufio.Scan sc =
  (false, {| bufio.pending := []; bufio.text := EmptyString;
             bufio.failure := bufio.failure sc |}).
Proof. intros H. unfold bufio.Scan. now rewrite H. Qed.

Lemma checkLines_match p ps sc l rest :
  bufio.pending sc = l :: rest -> accepts p l ->
  checkLines (p :: ps) sc =
  checkLines ps {| bufio.pending := rest; bufio.text := l;
                   bufio.failure := bufio.failure sc |}.
Proof.
  intros Hp Hm. cbn [checkLines]. rewrite (Scan_cons _ _ _ Hp).
  cbn [negb bufio.Text bufio.text]. unfold accepts in Hm. now rewrite Hm.
Qed.

Lemma checkLines_mismatch p ps sc l rest :
  bufio.pending sc = l :: rest -> regexp.MatchString p l = false ->
  checkLines (p :: ps) sc =
  ({| bufio.pending := rest; bufio.text := l; bufio.failure := bufio.failure sc |},
   Err (Errorf "expected %v, got %q" [V (regexp.expr p); Q l])).
Proof.
  intros Hp Hm. cbn [checkLines]. rewrite (Scan_cons _ _ _ Hp).
  cbn [negb bufio.Text bufio.text]. now rewrite Hm.
Qed.

Lemma checkLines_exhausted p ps sc :
  bufio.pending sc = [] ->
  checkLines (p :: ps) sc =
  ({| bufio.pending := []; bufio.text := EmptyString; bufio.failure := bufio.failure sc |},
   Err (Errorf "scan error while looking for %v: %w"
          [V (regexp.expr p); W (bufio.failure sc)])).
Proof. intros Hp. cbn [checkLines]. rewrite (Scan_nil _ Hp). reflexivity. Qed.

(** Lines that match a prefix of the patterns are consumed one per pattern;
    validation goes on with the other patterns on what is left. *)
Lemma checkLines_prefix ps1 : forall ps2 sc hd rest,
  bufio.pending sc = hd ++ rest -> Forall2 accepts ps1 hd ->
  exists sc', checkLines (ps1 ++ ps2) sc = checkLines ps2 sc'
              /\ bufio.pending sc' = rest /\ bufio.failure sc' = bufio.failure sc.
Proof.
  induction ps1 as [|p ps1 IH]; intros ps2 sc hd rest Hp Hm.
  - apply Forall2_nil_inv_l in Hm as ->. exists sc. auto.
  - apply Forall2_cons_inv_l in Hm as (l & hd' & Hl & Hm & ->).
    cbn [app]. rewrite (checkLines_match p (ps1 ++ ps2) sc l (hd' ++ rest) Hp Hl).
    edestruct (IH ps2) as (sc' & E & Hr & Hf); [| exact Hm | exists sc'; rewrite E; eauto].
    reflexivity.
Qed.

Lemma checkLines_Nil_inv ps : forall sc sc',
  checkLines ps sc = (sc', Nil) ->
  exists hd, bufio.pending sc = hd ++ bufio.pending sc'
             /\ Forall2 accepts ps hd /\ bufio.failure sc' = bufio.failure sc.
Proof.
  induction ps as [|p ps IH]; intros sc sc' H.
  - injection H as ->. exists []. split; [reflexivity|]. split; [constructor|reflexivity].
  - destruct (bufio.pending sc) as [|l rest] eqn:Hp.
    + rewrite checkLines_exhausted in H by assumption. discriminate.
    + destruct (regexp.MatchString p l) eqn:Hm.
      * rewrite (checkLines_match p ps sc l rest Hp Hm) in H.
        apply IH in H as (hd & Hpend & Hall & Hf). cbn in Hpend, Hf.
        exists (l :: hd). rewrite Hpend. split; [reflexivity|].
        split; [constructor; assumption|assumption].
      * rewrite (checkLines_mismatch p ps sc l rest Hp Hm) in H. discriminate.
Qed.

Lemma checkLines_no_panic ps : forall sc sc' p, checkLines ps sc <> (sc', Panic p).
Proof.
  induction ps as [|q ps IH]; intros sc sc' p; [discriminate|].
  destruct (bufio.pending sc) as [|l rest] eqn:Hp.
  - rewrite checkLines_exhausted by assumption. discriminate.
  - destruct (regexp.MatchString q l) eqn:Hm.
    + rewrite (checkLines_match q ps sc l rest Hp Hm). apply IH.
    + rewrite (checkLines_mismatch q ps sc l rest Hp Hm). discriminate.
Qed.

(** C5. The header validator consumes exactly one line per pattern, in
    order: when the next lines match the patterns one by one, it succeeds and
    leaves the cursor just after them; when the input ends before a pattern,
    it fails with the scan error naming that pattern (wrapping the scanner's
    error, nil at a plain end of input); when a line does not match its
    pattern, it fails with the error carrying the pattern and the line.  The
    two errors differ. *)
Theorem checkLines_contract (patterns : list regexp.Regexp) (sc : bufio.Scanner) :
  (forall hd rest,
      bufio.pending sc = hd ++ rest -> Forall2 accepts patterns hd ->
      snd (checkLines patterns sc) = Nil
      /\ bufio.pending (fst (checkLines patterns sc)) = rest)
  /\ (forall ps1 p ps2,
         patterns = ps1 ++ p :: ps2 -> Forall2 accepts ps1 (bufio.pending sc) ->
         snd (checkLines patterns sc)
         = Err (Errorf "scan error while looking for %v: %w"
                  [V (regexp.expr p); W (bufio.failure sc)])
         /\ bufio.pending (fst (checkLines patterns sc)) = [])
  /\ (forall ps1 p ps2 hd l rest,
         patterns = ps1 ++ p :: ps2 -> bufio.pending sc = hd ++ l :: rest ->
         Forall2 accepts ps1 hd -> ~ accepts p l ->
         snd (checkLines patterns sc)
         = Err (Errorf "expected %v, got %q" [V (regexp.expr p); Q l])
         /\ bufio.pending (fst (checkLines patterns sc)) = rest)
  /\ (forall p p' e l,
         Errorf "scan error while looking for %v: %w" [V p; W e]
         <> Errorf "expected %v, got %q" [V p'; Q l]).
Proof.
  repeat split.
  - destruct (checkLines_prefix patterns [] sc hd rest H H0) as (sc' & E & _).
    rewrite app_nil_r in E. rewrite E. reflexivity.
  - destruct (checkLines_prefix patterns [] sc hd rest H H0) as (sc' & E & Hr & _).
    rewrite app_nil_r in E. rewrite E. exact Hr.
  - subst patterns.
    destruct (checkLines_prefix ps1 (p :: ps2) sc (bufio.pending sc) [])
      as (sc' & E & Hr & Hf); [now rewrite app_nil_r|assumption|].
    rewrite E, checkLines_exhausted by assumption. cbn. now rewrite Hf.
  - subst patterns.
    destruct (checkLines_prefix ps1 (p :: ps2) sc (bufio.pending sc) [])
      as (sc' & E & Hr & Hf); [now rewrite app_nil_r|assumption|].
    rewrite E, checkLines_exhausted by assumption. reflexivity.
  - subst patterns.
    destruct (checkLines_prefix ps1 (p :: ps2) sc hd (l :: rest))
      as (sc' & E & Hr & Hf); [assumption..|].
    rewrite E, (checkLines_mismatch p ps2 sc' l rest Hr); [reflexivity|].
    unfold accepts in *. now destruct (regexp.MatchString p l).
  - subst patterns.
    destruct (checkLines_prefix ps1 (p :: ps2) sc hd (l :: rest))
      as (sc' & E & Hr & Hf); [assumption..|].
    rewrite E, (checkLines_mismatch p ps2 sc' l rest Hr); [reflexivity|].
    unfold accepts in *. now destruct (regexp.MatchString p l).
  - discriminate.
Qed.

(** ** One line, then all lines, inside the transaction *)

Section ProgramFacts.

Variable time_Parse : string -> string -> res time.Time.
Variable env : Env.

Lemma writeLine_record tx text row :
  record_of time_Parse text = Some row ->
  exec_err env (length (sql.stmts tx)) = None ->
  writeLine time_Parse env tx text = (executed tx [row], Nil).
Proof.
  unfold record_of, writeLine, Exec. intros Hr He.
  destruct (csv.Read text) as [parts|e]; [|discriminate].
  destruct (parts !! 1%nat) as [station|]; [|discriminate].
  destruct (parts !! 2%nat) as [raw|]; [|discriminate]. cbn in Hr.
  destruct (time_Parse time.RFC3339 raw) as [t|e]; [|discriminate].
  injection Hr as <-. rewrite He. reflexivity.
Qed.

Lemma writeLine_Nil_inv tx text tx' :
  writeLine time_Parse env tx text = (tx', Nil) ->
  exists row, record_of time_Parse text = Some row
              /\ exec_err env (length (sql.stmts tx)) = None
              /\ tx' = executed tx [row].
Proof.
  unfold record_of, writeLine, Exec. intros H.
  destruct (csv.Read text) as [parts|e]; [|discriminate].
  destruct (parts !! 1%nat) as [station|]; [|discriminate].
  destruct (parts !! 2%nat) as [raw|]; [|discriminate]. cbn.
  destruct (time_Parse time.RFC3339 raw) as [t|e]; [|discriminate].
  destruct (exec_err env (length (sql.stmts tx))); [discriminate|].
  injection H as <-. eauto.
Qed.

Lemma writeLine_fail_tx tx text tx' r :
  writeLine time_Parse env tx text = (tx', r) -> r <> Nil -> tx' = tx.
Proof.
  unfold writeLine, Exec. intros H Hr.
  destruct (csv.Read text) as [parts|e]; [|now injection H as <- <-].
  destruct (parts !! 1%nat) as [station|]; [|now injection H as <- <-].
  destruct (parts !! 2%nat) as [raw|]; [|now injection H as <- <-].
  destruct (time_Parse time.RFC3339 raw) as [t|e]; [|now injection H as <- <-].
  destruct (exec_err env (length (sql.stmts tx))); injection H as <- <-; congruence.
Qed.

Lemma executed_app tx xs ys : executed (executed tx xs) ys = executed tx (xs ++ ys).
Proof.
  unfold executed. cbn. now rewrite upserts_app, app_assoc.
Qed.

Lemma executed_nil tx : executed tx [] = tx.
Proof. unfold executed. cbn. rewrite app_nil_r. now destruct tx. Qed.

Lemma writeLines_cons_Nil tx tx1 text lines :
  writeLine time_Parse env tx text = (tx1, Nil) ->
  writeLines time_Parse env tx (text :: lines) = writeLines time_Parse env tx1 lines.
Proof. intros H. cbn [writeLines]. now rewrite H. Qed.

Lemma writeLines_cons_fail tx tx1 text lines r :
  writeLine time_Parse env tx text = (tx1, r) -> r <> Nil ->
  snd (writeLines time_Parse env tx (text :: lines)) <> Nil.
Proof. intros H Hr. cbn [writeLines]. rewrite H. destruct r; cbn; congruence. Qed.

Lemma writeLines_Nil_inv lines : forall tx tx',
  writeLines time_Parse env tx lines = (tx', Nil) ->
  exists recs, mapM (record_of time_Parse) lines = Some recs
               /\ tx' = executed tx recs
               /\ (forall i, (i < length recs)%nat ->
                             exec_err env (length (sql.stmts tx) + i) = None).
Proof.
  induction lines as [|text lines IH]; intros tx tx' H.
  - injection H as <-. exists []. rewrite executed_nil.
    repeat split. intros i Hi. cbn in Hi. lia.
  - destruct (writeLine time_Parse env tx text) as [tx1 r] eqn:Hw.
    destruct r as [|e|p]; [|cbn [writeLines] in H; rewrite Hw in H; discriminate..].
    rewrite (writeLines_cons_Nil _ _ _ _ Hw) in H.
    apply writeLine_Nil_inv in Hw as (row & Hrow & Hex & ->).
    apply IH in H as (recs & Hm & -> & Hexs).
    exists (row :: recs). rewrite executed_app. split; [|split; [reflexivity|]].
    + cbn. rewrite Hrow. cbn. rewrite Hm. reflexivity.
    + intros [|i] Hi; [now rewrite Nat.add_0_r|].
      cbn in Hi. specialize (Hexs i ltac:(lia)).
      cbn in Hexs. rewrite length_app in Hexs. cbn in Hexs.
      now replace (length (sql.stmts tx) + S i)%nat
        with (length (sql.stmts tx) + 1 + i)%nat by lia.
Qed.

Lemma writeLines_records lines : forall tx recs,
  mapM (record_of time_Parse) lines = Some recs ->
  (forall i, (i < length recs)%nat -> exec_err env (length (sql.stmts tx) + i) = None) ->
  writeLines time_Parse env tx lines = (executed tx recs, Nil).
Proof.
  induction lines as [|text lines IH]; intros tx recs Hm Hex.
  - injection Hm as <-. now rewrite executed_nil.
  - cbn in Hm. destruct (record_of time_Parse text) as [row|] eqn:Hrow; [|discriminate].
    cbn in Hm. destruct (mapM (record_of time_Parse) lines) as [recs'|] eqn:Hm';
      [|discriminate].
    injection Hm as <-.
    rewrite (writeLines_cons_Nil tx (executed tx [row]) text lines).
    + rewrite (IH _ recs' eq_refl); [now rewrite executed_app|].
      intros i Hi. cbn. rewrite length_app. cbn.
      replace (length (sql.stmts tx) + 1 + i)%nat
        with (length (sql.stmts tx) + S i)%nat by lia.
      apply Hex. cbn. lia.
    + apply writeLine_record; [assumption|].
      rewrite <- (Nat.add_0_r (length _)). apply Hex. cbn. lia.
Qed.

(** The transaction keeps the rows it had when a line fails. *)
Lemma writeLines_app_fail pre : forall tx tx1 text post r,
  writeLines time_Parse env tx pre = (tx1, Nil) ->
  snd (writeLine time_Parse env tx1 text) = r -> r <> Nil ->
  snd (writeLines time_Parse env tx (pre ++ text :: post))
  = match r with
    | Err e => Err (Errorf "writing line %q: %w" [Q text; W (Some e)])
    | other => other
    end.
Proof.
  induction pre as [|l pre IH]; intros tx tx1 text post r Hpre Hw Hr.
  - injection Hpre as <-. cbn [app writeLines].
    destruct (writeLine time_Parse env tx text) as [tx2 r2]. cbn in Hw. subst r2.
    destruct r; [congruence|reflexivity..].
  - cbn [app]. destruct (writeLine time_Parse env tx l) as [tx2 r2] eqn:Hl.
    destruct r2 as [|e|p]; [|cbn [writeLines] in Hpre; rewrite Hl in Hpre; discriminate..].
    rewrite (writeLines_cons_Nil _ _ _ _ Hl) in Hpre.
    rewrite (writeLines_cons_Nil _ _ _ _ Hl).
    now apply (IH tx2 tx1).
Qed.

End ProgramFacts.

(** ** One file *)

Section FileFacts.

Variable time_Parse : string -> string -> res time.Time.
Variable env : Env.

Lemma fileToDB_effects w fname w' r :
  fileToDB time_Parse env w fname = (w', r) ->
  fs w' = fs w /\ (r <> Nil -> metars w' = metars w).
Proof.
  unfold fileToDB, os_Open, db_Begin, tx_Commit, defer_Rollback, logged.
  cbn [fs metars log bufio.Err bufio.drained bufio.pending bufio.failure].
  intros H.
  destruct (open_err env fname); [now injection H as <- <-|].
  destruct (fs w !! fname); [|now injection H as <- <-].
  destruct (checkLines metarHeaders _) as [sc [|e|p]]; [|now injection H as <- <-..].
  destruct (begin_err env); [now injection H as <- <-|].
  destruct (writeLines _ _ _ _) as [tx [|e|p]]; [|now injection H as <- <-..].
  destruct (bufio.failure sc); [now injection H as <- <-|].
  destruct (commit_err env); [now injection H as <- <-|].
  injection H as <- <-. cbn. split; congruence.
Qed.

Lemma fileToDB_calls w fname w' r :
  fileToDB time_Parse env w fname = (w', r) ->
  exists calls, log w' = log w ++ calls
                /\ Forall (fun c => c ∈ [Open fname; Begin; Commit; Rollback]) calls.
Proof.
  unfold fileToDB, os_Open, db_Begin, tx_Commit, defer_Rollback, logged.
  cbn [fs metars log fst snd bufio.Err bufio.drained bufio.pending bufio.failure].
  destruct (open_err env fname); [intros [= <- <-]; made_calls [Open fname]|].
  destruct (fs w !! fname); [|intros [= <- <-]; made_calls [Open fname]].
  destruct (checkLines metarHeaders _) as [sc [|e|p]];
    [|intros [= <- <-]; made_calls [Open fname]..].
  destruct (begin_err env); [intros [= <- <-]; made_calls [Open fname; Begin]|].
  destruct (writeLines _ _ _ _) as [tx [|e|p]];
    [|intros [= <- <-]; made_calls [Open fname; Begin; Rollback]..].
  destruct (bufio.failure sc);
    [intros [= <- <-]; made_calls [Open fname; Begin; Rollback]|].
  destruct (commit_err env);
    intros [= <- <-]; made_calls [Open fname; Begin; Commit; Rollback].
Qed.

Lemma fileToDB_Nil_inv w fname w' :
  fileToDB time_Parse env w fname = (w', Nil) ->
  exists sc recs,
    data_phase env w fname sc
    /\ bufio.failure sc = None
    /\ commit_err env = None
    /\ mapM (record_of time_Parse) (bufio.pending sc) = Some recs
    /\ (forall i, (i < length recs)%nat -> exec_err env i = None)
    /\ w' = ingested w fname recs.
Proof.
  unfold fileToDB, os_Open, db_Begin, tx_Commit, defer_Rollback, logged, data_phase.
  cbn [fs metars log fst snd bufio.Err bufio.drained bufio.pending bufio.failure].
  intros H.
  destruct (open_err env fname); [discriminate|].
  destruct (fs w !! fname) as [data|]; [|discriminate].
  destruct (checkLines metarHeaders _) as [sc [|e|p]] eqn:Hc; [|discriminate..].
  destruct (begin_err env); [discriminate|].
  destruct (writeLines _ _ _ _) as [tx [|e|p]] eqn:Hw; [|discriminate..].
  destruct (bufio.failure sc) eqn:Hf; [discriminate|].
  destruct (commit_err env); [discriminate|].
  apply writeLines_Nil_inv in Hw as (recs & Hm & -> & Hex).
  exists sc, recs. injection H as <-.
  split; [repeat split; eauto|].
  split; [assumption|]. split; [reflexivity|]. split; [assumption|].
  split; [intros i Hi; apply (Hex i Hi)|].
  unfold ingested. cbn. now rewrite <- !app_assoc.
Qed.

Lemma fileToDB_Nil_intro w fname sc recs :
  data_phase env w fname sc ->
  bufio.failure sc = None ->
  commit_err env = None ->
  mapM (record_of time_Parse) (bufio.pending sc) = Some recs ->
  (forall i, (i < length recs)%nat -> exec_err env i = None) ->
  fileToDB time_Parse env w fname = (ingested w fname recs, Nil).
Proof.
  intros (Ho & Hb & data & Hd & Hc) Hf Hcm Hm Hex.
  unfold fileToDB, os_Open, db_Begin, tx_Commit, defer_Rollback, logged.
  cbn [fs metars log fst snd bufio.Err bufio.drained bufio.pending bufio.failure].
  rewrite Ho, Hd, Hc, Hb.
  rewrite (writeLines_records time_Parse env _ _ recs Hm) by exact Hex.
  rewrite Hf, Hcm. unfold ingested. cbn. now rewrite <- !app_assoc.
Qed.

Lemma fileToDB_data_failure w fname sc w' r :
  data_phase env w fname sc ->
  snd (writeLines time_Parse env (begun w) (bufio.pending sc)) <> Nil
  \/ bufio.failure sc <> None ->
  fileToDB time_Parse env w fname = (w', r) ->
  r <> Nil /\ metars w' = metars w /\ fs w' = fs w
  /\ log w' = log w ++ [Open fname; Begin; Rollback].
Proof.
  intros (Ho & Hb & data & Hd & Hc) Hfail.
  unfold fileToDB, os_Open, db_Begin, tx_Commit, defer_Rollback, logged.
  cbn [fs metars log fst snd bufio.Err bufio.drained bufio.pending bufio.failure].
  rewrite Ho, Hd, Hc, Hb.
  unfold begun in Hfail.
  destruct (writeLines _ _ _ _) as [tx [|e|p]];
    [|intros [= <- <-]; cbn; rewrite <- !app_assoc; repeat split; discriminate..].
  destruct Hfail as [Hfail|Hfail]; [now cbn in Hfail|].
  destruct (bufio.failure sc); [|congruence].
  intros [= <- <-]; cbn; rewrite <- !app_assoc; repeat split; discriminate.
Qed.
Lemma writeLines_In_fail lines : forall tx text,
  text ∈ lines ->
  (forall tx', snd (writeLine time_Parse env tx' text) <> Nil) ->
  snd (writeLines time_Parse env tx lines) <> Nil.
Proof.
  induction lines as [|l lines IH]; intros tx text Hin Hbad.
  - now apply elem_of_nil in Hin.
  - destruct (writeLine time_Parse env tx l) as [tx1 r] eqn:Hl.
    destruct r as [|e|p];
      [|apply (writeLines_cons_fail _ _ _ _ _ _ _ Hl); discriminate..].
    rewrite (writeLines_cons_Nil _ _ _ _ _ _ Hl).
    apply elem_of_cons in Hin as [-> | Hin]; [|now apply (IH tx1 text)].
    exfalso. apply (Hbad tx). now rewrite Hl.
Qed.

Lemma NewScanner_failure data fault :
  bufio.failure (bufio.NewScanner data fault) = None ->
  bufio.NewScanner data fault = feed (bufio.ScanLines EmptyString data) None.
Proof. destruct fault as [[n e]|]; [discriminate|reflexivity]. Qed.

Lemma fileToDB_Nil_records w fname w' :
  fileToDB time_Parse env w fname = (w', Nil) ->
  exists data recs,
    fs w !! fname = Some data
    /\ file_records time_Parse data = Some recs
    /\ w' = ingested w fname recs.
Proof.
  intros H.
  destruct (fileToDB_Nil_inv _ _ _ H)
    as (sc & recs & (_ & _ & data & Hd & Hc) & Hf & _ & Hm & _ & ->).
  exists data, recs. split; [assumption|]. split; [|reflexivity].
  destruct (checkLines_Nil_inv _ _ _ Hc) as (hd & Hp & Hall & Hf').
  rewrite Hf in Hf'. symmetry in Hf'.
  rewrite (NewScanner_failure _ _ Hf') in Hp. cbn [feed bufio.pending] in Hp.
  unfold file_records, data_lines.
  rewrite Hp, (Forall2_length _ _ _ Hall), drop_app_length. exact Hm.
Qed.

(** A header block that is refused stops the ingestion before the
    transaction: nothing is stored, and only the file was opened. *)
Lemma bad_headers_store_nothing w fname data sc e w' r :
  open_err env fname = None ->
  fs w !! fname = Some data ->
  checkLines metarHeaders (bufio.NewScanner data (read_fault env fname)) = (sc, Err e) ->
  fileToDB time_Parse env w fname = (w', r) ->
  r = Err (Errorf "bad headers: %w" [W (Some e)])
  /\ metars w' = metars w
  /\ log w' = log w ++ [Open fname].
Proof.
  intros Ho Hd Hc. unfold fileToDB, os_Open, logged. cbn [fs metars log].
  rewrite Ho, Hd, Hc. intros [= <- <-]. auto.
Qed.

(** C1. Ingestion of one file is all or nothing.  When [fileToDB] returns
    nil, the table is the old one after the upserts of all the records of the
    file, and every record has its key stored.  Whatever way it fails, the
    table and the files are what they were.  And once the loop over the data
    lines is reached, a line that fails (its CSV, its time, its write, or an
    index panic), after lines that were written, or a read error of the
    scanner, makes [fileToDB] fail with the transaction rolled back and never
    committed: no row is stored that was not stored before. *)
Theorem fileToDB_all_or_nothing w fname w' r :
  fileToDB time_Parse env w fname = (w', r) ->
  (r = Nil ->
   exists data recs,
     fs w !! fname = Some data
     /\ file_records time_Parse data = Some recs
     /\ metars w' = upserts (metars w) recs
     /\ forall row, row ∈ recs -> key row ∈ key <$> metars w')
  /\ (r <> Nil -> metars w' = metars w /\ fs w' = fs w)
  /\ (forall sc,
         data_phase env w fname sc ->
         (exists pre text post tx,
             bufio.pending sc = pre ++ text :: post
             /\ writeLines time_Parse env (begun w) pre = (tx, Nil)
             /\ snd (writeLine time_Parse env tx text) <> Nil)
         \/ bufio.failure sc <> None ->
         r <> Nil
         /\ metars w' = metars w
         /\ (forall row, row ∈ metars w' -> row ∈ metars w)
         /\ log w' = log w ++ [Open fname; Begin; Rollback]).
Proof.
  intros H. split; [|split].
  - intros ->. destruct (fileToDB_Nil_records _ _ _ H) as (data & recs & Hd & Hr & ->).
    exists data, recs. cbn [ingested metars]. repeat split; try assumption.
    intros row Hrow. now apply upserts_keys_present.
  - intros Hr. destruct (fileToDB_effects _ _ _ _ H) as [Hfs Hm]. auto.
  - intros sc Hphase Hfail.
    destruct (fileToDB_data_failure w fname sc w' r Hphase) as (Hr & Hm & _ & Hl);
      [|exact H|repeat split; try assumption; now rewrite Hm].
    destruct Hfail as [(pre & text & post & tx & Hp & Hpre & Hbad)|Hf]; [left|now right].
    rewrite Hp, (writeLines_app_fail _ _ pre _ tx text post _ Hpre eq_refl Hbad).
    destruct (snd (writeLine time_Parse env tx text)); congruence.
Qed.

(** A line whose field 2 [time.Parse] refuses, whatever [time.Parse] is:
    it is rejected with the error that carries the raw field, and a file
    that has it among its data lines is not ingested. *)
Lemma bad_time_aborts text parts station raw e :
  csv.Read text = Ok parts ->
  parts !! 1%nat = Some station ->
  parts !! 2%nat = Some raw ->
  time_Parse time.RFC3339 raw = Error e ->
  (forall tx,
      writeLine time_Parse env tx text
      = (tx, Err (Errorf "bad time %q: %w" [Q raw; W (Some e)])))
  /\ (forall w fname sc w' r,
         data_phase env w fname sc ->
         text ∈ bufio.pending sc ->
         fileToDB time_Parse env w fname = (w', r) ->
         r <> Nil
         /\ metars w' = metars w
         /\ log w' = log w ++ [Open fname; Begin; Rollback])
  /\ (forall w fname sc w' r pre post tx,
         data_phase env w fname sc ->
         bufio.pending sc = pre ++ text :: post ->
         writeLines time_Parse env (begun w) pre = (tx, Nil) ->
         fileToDB time_Parse env w fname = (w', r) ->
         r = Err (Errorf "writing line %q: %w"
                    [Q text; W (Some (Errorf "bad time %q: %w" [Q raw; W (Some e)]))])).
Proof.
  intros Hcsv H1 H2 Ht.
  assert (Hline : forall tx,
             writeLine time_Parse env tx text
             = (tx, Err (Errorf "bad time %q: %w" [Q raw; W (Some e)]))).
  { intros tx. unfold writeLine. now rewrite Hcsv, H1, H2, Ht. }
  split; [exact Hline|]. split.
  - intros w fname sc w' r Hphase Hin H.
    destruct (fileToDB_data_failure w fname sc w' r Hphase) as (Hr & Hm & _ & Hl);
      [left|exact H|auto].
    apply (writeLines_In_fail _ _ text Hin). intros tx'. now rewrite Hline.
  - intros w fname sc w' r pre post tx (Ho & Hb & data & Hd & Hc) Hp Hpre.
    pose proof (writeLines_app_fail _ _ pre _ tx text post _ Hpre eq_refl) as Hw.
    rewrite Hline in Hw. cbn [snd] in Hw. specialize (Hw ltac:(discriminate)).
    unfold fileToDB, os_Open, db_Begin, defer_Rollback, logged.
    cbn [fs metars log fst snd]. rewrite Ho, Hd, Hc, Hb, Hp.
    unfold begun in Hw. cbn [fs metars log fst snd].
    destruct (writeLines time_Parse env _ (pre ++ text :: post)) as [tx2 r2].
    cbn [snd] in Hw. subst r2. now intros [= <- <-].
Qed.

(** C9, as amended.  The station [writeLine] hands to the writer is field 1
    of the record, whatever it holds (it may be empty): a line is written
    exactly when its CSV has fields 1 and 2 and field 2 parses as a time, and
    the row is then [(field 1, time, all fields)]. *)
Theorem writeLine_station_is_field_1 tx text tx' :
  writeLine time_Parse env tx text = (tx', Nil) ->
  exists parts station raw t,
    csv.Read text = Ok parts
    /\ parts !! 1%nat = Some station
    /\ parts !! 2%nat = Some raw
    /\ time_Parse time.RFC3339 raw = Ok t
    /\ tx' = executed tx [{| sql.station := station; sql.time := t;
                            sql.csv_parts := parts |}].
Proof.
  unfold writeLine, Exec. intros H.
  destruct (csv.Read text) as [parts|e]; [|discriminate].
  destruct (parts !! 1%nat) as [station|] eqn:H1; [|discriminate].
  destruct (parts !! 2%nat) as [raw|] eqn:H2; [|discriminate].
  destruct (time_Parse time.RFC3339 raw) as [t|e] eqn:Ht; [|discriminate].
  destruct (exec_err env (length (sql.stmts tx))); [discriminate|].
  injection H as <-. exists parts, station, raw, t. auto.
Qed.

(** C10. A line whose CSV record has fewer than three fields makes
    [writeLine] panic on an index out of range (index 1 for one field, index
    2 for two), with nothing written; no error is returned. *)
Theorem writeLine_short_record_panics tx text parts :
  csv.Read text = Ok parts ->
  (length parts < 3)%nat ->
  exists i,
    writeLine time_Parse env tx text = (tx, Panic (IndexOutOfRange i (length parts)))
    /\ (length parts <= i)%nat
    /\ (i = 1 \/ i = 2)%nat.
Proof.
  intros Hcsv Hlen. unfold writeLine. rewrite Hcsv.
  destruct parts as [|a [|b [|c parts]]]; cbn in Hlen |- *.
  - exists 1%nat. split; [reflexivity|lia].
  - exists 1%nat. split; [reflexivity|lia].
  - exists 2%nat. split; [reflexivity|lia].
  - lia.
Qed.

(** ** The fetcher and the driver *)

Lemma calls_since_app w w' calls : log w' = log w ++ calls -> calls_since w w' = calls.
Proof. intros H. unfold calls_since. rewrite H. apply drop_app_length. Qed.

Lemma downloadFile_calls w url fname w' r :
  downloadFile env w url fname = (w', r) ->
  metars w' = metars w
  /\ exists calls, log w' = log w ++ calls
                   /\ Forall (fun c => c ∈ [Get metarURL; OpenFile fname]) calls.
Proof.
  unfold downloadFile, gzip_NewReader, os_OpenFile_excl, io_Copy, logged.
  cbn [fs metars log fst snd].
  destruct (http_Get env metarURL) as [resp|e];
    [|intros [= <- <-]; split; [reflexivity|made_calls [Get metarURL]]].
  destruct (negb (StatusCode resp =? 200)%Z);
    [intros [= <- <-]; split; [reflexivity|made_calls [Get metarURL]]|].
  destruct (header (body resp));
    [intros [= <- <-]; split; [reflexivity|made_calls [Get metarURL]]|].
  destruct (create_err env fname);
    [intros [= <- <-]; split; [reflexivity|made_calls [Get metarURL; OpenFile fname]]|].
  destruct (fs w !! fname);
    [intros [= <- <-]; split; [reflexivity|made_calls [Get metarURL; OpenFile fname]]|].
  cbn [fs metars log fst snd].
  destruct (trailer (body resp));
    intros [= <- <-]; (split; [reflexivity|made_calls [Get metarURL; OpenFile fname]]).
Qed.

(** C8. The fetcher fails with the status code in its error when the
    status is not 200 (so for every status that is not a success); it fails
    on a body whose gzip header is bad, and on one whose stream ends in an
    error; it fails, with the files untouched, whenever the destination
    exists; and when the stream breaks during the copy, it fails and the
    bytes decompressed so far stay in the new file. *)
Theorem downloadFile_failures w url fname w' r :
  downloadFile env w url fname = (w', r) ->
  (forall resp,
      http_Get env metarURL = Ok resp -> StatusCode resp <> 200%Z ->
      r = Err (Errorf "unexpected status code %d" [D (StatusCode resp)])
      /\ fs w' = fs w)
  /\ (forall resp,
         http_Get env metarURL = Ok resp -> StatusCode resp = 200%Z ->
         (forall e, header (body resp) = Some e ->
                    r = Err (Errorf "gzip error: %w" [W (Some e)]) /\ fs w' = fs w)
         /\ (header (body resp) <> None \/ trailer (body resp) <> None -> r <> Nil))
  /\ (is_Some (fs w !! fname) ->
      r <> Nil /\ fs w' = fs w
      /\ (forall resp,
             http_Get env metarURL = Ok resp -> StatusCode resp = 200%Z ->
             header (body resp) = None -> create_err env fname = None ->
             r = Err (Errorf "error creating file %q: %w" [Q fname; W (Some ErrExist)])))
  /\ (forall resp e,
         http_Get env metarURL = Ok resp -> StatusCode resp = 200%Z ->
         header (body resp) = None -> create_err env fname = None ->
         fs w !! fname = None -> trailer (body resp) = Some e ->
         r = Err (Errorf "error writing to file: %w" [W (Some e)])
         /\ fs w' = <[fname := payload (body resp)]> (fs w)).
Proof.
  unfold downloadFile, gzip_NewReader, os_OpenFile_excl, io_Copy, logged.
  cbn [fs metars log fst snd]. intros H. split; [|split; [|split]].
  - intros resp Hget Hst. apply Z.eqb_neq in Hst. rewrite Hget, Hst in H.
    injection H as <- <-. auto.
  - intros resp Hget Hst. apply Z.eqb_eq in Hst. rewrite Hget, Hst in H.
    cbn [negb] in H. split.
    + intros e He. rewrite He in H. injection H as <- <-. auto.
    + intros Hbad. destruct (header (body resp)); [injection H as <- <-; discriminate|].
      destruct (create_err env fname); [injection H as <- <-; discriminate|].
      destruct (fs w !! fname); [injection H as <- <-; discriminate|].
      cbn [fs metars log fst snd] in H.
      destruct (trailer (body resp)); [injection H as <- <-; discriminate|].
      now destruct Hbad.
  - intros [old Hold]. rewrite Hold in H. split; [|split].
    + destruct (http_Get env metarURL) as [resp|e]; [|injection H as <- <-; discriminate].
      destruct (negb (StatusCode resp =? 200)%Z); [injection H as <- <-; discriminate|].
      destruct (header (body resp)); [injection H as <- <-; discriminate|].
      destruct (create_err env fname); injection H as <- <-; discriminate.
    + destruct (http_Get env metarURL) as [resp|e]; [|now injection H as <- <-].
      destruct (negb (StatusCode resp =? 200)%Z); [now injection H as <- <-|].
      destruct (header (body resp)); [now injection H as <- <-|].
      destruct (create_err env fname); now injection H as <- <-.
    + intros resp Hget Hst Hh Hc.
      apply Z.eqb_eq in Hst. rewrite Hget, Hst, Hh, Hc in H. now injection H as <- <-.
  - intros resp e Hget Hst Hh Hc Hfree Htr.
    apply Z.eqb_eq in Hst. rewrite Hget, Hst, Hh, Hc, Hfree in H.
    cbn [negb fs metars log fst snd] in H. rewrite Htr in H.
    injection H as <- <-. split; [reflexivity|]. cbn [fs]. apply insert_insert_eq.
Qed.

Lemma fetched_calls w flags w1 r1 :
  fetched env w flags = (w1, r1) ->
  metars w1 = metars w
  /\ exists calls, log w1 = log w ++ calls
                   /\ Forall (fun c => c ∈ [Get metarURL; OpenFile (filename flags)]) calls.
Proof.
  unfold fetched. destruct (download flags).
  - apply downloadFile_calls.
  - intros [= <- <-]. split; [reflexivity|]. exists []. now rewrite app_nil_r.
Qed.

Lemma run_unfold w flags :
  run time_Parse env w flags =
  match fetched env w flags with
  | (w, Err e) => (w, Err (Errorf "downloading file: %w" [W (Some e)]))
  | (w, Panic p) => (w, Panic p)
  | (w, Nil) =>
      match sql_Open_err env "postgres" (dbURL flags) with
      | Some e => (w, Err (Errorf "connecting to database: %w" [W (Some e)]))
      | None =>
          match fileToDB time_Parse env w (filename flags) with
          | (w, Err e) => (w, Err (Errorf "storing in database: %w" [W (Some e)]))
          | (w, Panic p) => (w, Panic p)
          | (w, Nil) =>
              if download flags then
                match os_Remove env w (filename flags) with
                | (w, Some e) => (w, Err (Errorf "removing file: %w" [W (Some e)]))
                | (w, None) => (w, Nil)
                end
              else (w, Nil)
          end
      end
  end.
Proof. reflexivity. Qed.

(** C7. The driver.  When the download is asked for and fails, the run
    fails with that error and stops there: no file is opened for reading and
    no transaction begins.  When the download is asked for and the ingestion
    succeeds, the file is removed, and a removal that fails is the failure of
    the run, with the rows stored.  When the ingestion fails, the run fails
    and the files are what they were when the ingestion started; no removal
    is attempted.  Without the download flag, no removal is ever attempted
    and the files are unchanged. *)
Theorem run_download_and_cleanup w flags w' r :
  run time_Parse env w flags = (w', r) ->
  (download flags = true ->
   forall wd e,
     downloadFile env w metarURL (filename flags) = (wd, Err e) ->
     r = Err (Errorf "downloading file: %w" [W (Some e)])
     /\ w' = wd
     /\ metars w' = metars w
     /\ (Open (filename flags) ∉ calls_since w w')
     /\ (Begin ∉ calls_since w w'))
  /\ (download flags = true ->
      forall w1 w2,
        fetched env w flags = (w1, Nil) ->
        sql_Open_err env "postgres" (dbURL flags) = None ->
        fileToDB time_Parse env w1 (filename flags) = (w2, Nil) ->
        (remove_err env (filename flags) = None ->
         r = Nil
         /\ fs w' = delete (filename flags) (fs w2)
         /\ fs w' !! (filename flags) = None)
        /\ (forall e,
               remove_err env (filename flags) = Some e ->
               r = Err (Errorf "removing file: %w" [W (Some e)])
               /\ fs w' = fs w2
               /\ metars w' = metars w2))
  /\ (forall w1 w2 r2,
         fetched env w flags = (w1, Nil) ->
         sql_Open_err env "postgres" (dbURL flags) = None ->
         fileToDB time_Parse env w1 (filename flags) = (w2, r2) ->
         r2 <> Nil ->
         r <> Nil
         /\ fs w' = fs w1
         /\ (Remove (filename flags) ∉ calls_since w w'))
  /\ (download flags = false ->
      fs w' = fs w /\ forall path, Remove path ∉ calls_since w w').
Proof.
  rewrite run_unfold. intros H. split; [|split; [|split]].
  - intros Hd wd e Hdl. unfold fetched in H. rewrite Hd, Hdl in H.
    injection H as <- <-.
    destruct (downloadFile_calls _ _ _ _ _ Hdl) as (Hm & calls & Hl & Hc).
    rewrite (calls_since_app _ _ _ Hl). rewrite Forall_forall in Hc.
    repeat split; [assumption|..];
      intros Hin; apply Hc in Hin; other_call Hin.
  - intros Hd w1 w2 Hf Hsql Hing. rewrite Hf, Hsql, Hing, Hd in H.
    unfold os_Remove, logged in H. cbn [fs metars log] in H.
    destruct (fileToDB_Nil_inv _ _ _ Hing) as (sc & recs & Hphase & _ & _ & _ & _ & ->).
    destruct Hphase as (_ & _ & data & Hdata & _). cbn [ingested fs] in H |- *.
    split.
    + intros Hrm. rewrite Hrm, Hdata in H. injection H as <- <-.
      cbn [fs]. repeat split. apply lookup_delete_eq.
    + intros e Hrm. rewrite Hrm in H. injection H as <- <-. auto.
  - intros w1 w2 r2 Hf Hsql Hing Hr2. rewrite Hf, Hsql, Hing in H.
    destruct (fetched_calls _ _ _ _ Hf) as (_ & c1 & Hl1 & Hc1).
    destruct (fileToDB_calls _ _ _ _ Hing) as (c2 & Hl2 & Hc2).
    destruct (fileToDB_effects _ _ _ _ Hing) as [Hfs _].
    assert (Hw : w' = w2 /\ r <> Nil).
    { destruct r2; [congruence|injection H as <- <-; split; [reflexivity|discriminate]..]. }
    destruct Hw as [-> Hr]. repeat split; [assumption..|].
    rewrite (calls_since_app w w2 (c1 ++ c2)) by (now rewrite Hl2, Hl1, app_assoc).
    rewrite Forall_forall in Hc1, Hc2.
    intros [Hin|Hin]%elem_of_app; [apply Hc1 in Hin|apply Hc2 in Hin]; other_call Hin.
  - intros Hd. unfold fetched in H. rewrite Hd in H.
    destruct (sql_Open_err env "postgres" (dbURL flags));
      [injection H as <- <-; split; [reflexivity|];
       intros path; rewrite (calls_since_app w w []) by (now rewrite app_nil_r);
       apply not_elem_of_nil|].
    destruct (fileToDB time_Parse env w (filename flags)) as [w2 r2] eqn:Hing.
    destruct (fileToDB_calls _ _ _ _ Hing) as (c2 & Hl2 & Hc2).
    destruct (fileToDB_effects _ _ _ _ Hing) as [Hfs _].
    assert (Hw : w' = w2) by (destruct r2; now injection H as <- <-).
    subst w'. split; [assumption|]. intros path.
    rewrite (calls_since_app _ _ _ Hl2). rewrite Forall_forall in Hc2.
    intros Hin. apply Hc2 in Hin. other_call Hin.
Qed.

End FileFacts.

(** ** What [time.Parse] takes *)

Lemma digit_range c x : time.digit c = Some x -> (0 <= x <= 9)%Z.
Proof.
  unfold time.digit. cbv zeta.
  destruct (48 <=? nat_of_ascii c)%nat eqn:Hlo; [|discriminate].
  destruct (nat_of_ascii c <=? 57)%nat eqn:Hhi; [|discriminate].
  cbn. intros [= <-].
  apply Nat.leb_le in Hlo, Hhi. lia.
Qed.

Lemma element_zone s f :
  match time.element time.stdISO8601ColonTZ s f with
  | Some (f', []) =>
      (time.year f', time.month f', time.day f') = (time.year f, time.month f, time.day f)
      /\ time.offset_form time.layout_RFC3339 s = true
  | _ => time.offset_form time.layout_RFC3339 s = false
  end.
Proof.
  destruct s as [|c [|h1 [|h2 [|colon [|m1 [|m2 [|x s]]]]]]]; time_cases.
Qed.

Lemma parse_cons prefix s layout value f :
  time.parse ((prefix, s) :: layout) value f
  = (value ← time.skip value prefix;
     '(f, value) ← time.element s value f;
     time.parse layout value f).
Proof. reflexivity. Qed.

Lemma parse_zone s f :
  match time.parse [([], time.stdISO8601ColonTZ)] s f with
  | Some f' =>
      (time.year f', time.month f', time.day f') = (time.year f, time.month f, time.day f)
      /\ time.offset_form time.layout_RFC3339 s = true
  | None => time.offset_form time.layout_RFC3339 s = false
  end.
Proof.
  rewrite parse_cons. cbn [time.skip mbind option_bind].
  pose proof (element_zone s f) as H.
  destruct (time.element _ s f) as [[f' [|c rest]]|]; exact H.
Qed.

Lemma leadingInt_digits s x :
  Forall (fun c => is_Some (time.digit c)) s -> snd (time.leadingInt x s) = [].
Proof.
  intros H. revert x. induction H as [|c s [d Hd] _ IH]; intros x; [reflexivity|].
  cbn [time.leadingInt]. rewrite Hd. apply IH.
Qed.

Lemma atoi_digits c s :
  Forall (fun c => is_Some (time.digit c)) (c :: s) -> is_Some (time.atoi (c :: s)).
Proof.
  intros H. unfold time.atoi.
  assert (Hc : Ascii.eqb c "-" = false /\ Ascii.eqb c "+" = false).
  { inversion H as [|? ? [d Hd] _]; subst.
    split; destruct (Ascii.eqb_spec c "-"), (Ascii.eqb_spec c "+"); subst;
      try reflexivity; vm_compute in Hd; discriminate. }
  destruct Hc as [-> ->].
  pose proof (leadingInt_digits (c :: s) 0 H) as Hr.
  destruct (time.leadingInt 0 (c :: s)) as [x rem]. cbn [snd] in Hr. subst rem. eauto.
Qed.

Lemma take_countDigits n s :
  (n <= time.countDigits s)%nat -> Forall (fun c => is_Some (time.digit c)) (take n s).
Proof.
  revert n. induction s as [|c s IH]; intros [|n] Hn; cbn [take]; try constructor.
  - cbn [time.countDigits] in Hn. destruct (time.digit c); [eauto|lia].
  - apply IH. cbn [time.countDigits] in Hn. destruct (time.digit c); lia.
Qed.

Lemma parseNanoseconds_digits c x more :
  time.commaOrPeriod c = true ->
  is_Some (time.digit x) ->
  is_Some (time.parseNanoseconds (c :: x :: more) (2 + time.countDigits more)).
Proof.
  intros Hc Hx. unfold time.parseNanoseconds. rewrite Hc.
  assert (Hm : exists k, Nat.min (2 + time.countDigits more) 10 = S (S k)
                         /\ (k <= time.countDigits more)%nat).
  { exists (Nat.min (time.countDigits more) 8). split; lia. }
  destruct Hm as (k & -> & Hk). cbn [take drop].
  destruct (atoi_digits x (take k more)) as [ns ->]; [|cbn; eauto].
  constructor; [exact Hx|now apply take_countDigits].
Qed.

Lemma parse_second s f :
  match time.parse [([":"%char], time.stdZeroSecond); ([], time.stdISO8601ColonTZ)] s f with
  | Some f' =>
      (time.year f', time.month f', time.day f') = (time.year f, time.month f, time.day f)
      /\ time.seconds_form time.layout_RFC3339 s = true
  | None => time.seconds_form time.layout_RFC3339 s = false
  end.
Proof.
  rewrite parse_cons. unfold time.seconds_form.
  destruct s as [|c2 [|s1 [|s2 rest]]]; try (time_cases; fail).
  cbn [time.skip time.leap_second time.layout_RFC3339].
  destruct (Ascii.eqb_spec c2 ":") as [->|]; [|reflexivity].
  cbn [mbind option_bind time.element time.getnum andb].
  unfold time.upto, time.two.
  destruct (time.digit s1) as [x|] eqn:E1; [|reflexivity].
  destruct (time.digit s2) as [y|] eqn:E2; [|reflexivity].
  apply digit_range in E1, E2. cbn [mbind option_bind].
  destruct (Z.ltb_spec (x * 10 + y) 0); [lia|].
  destruct (Z.leb_spec 60 (x * 10 + y)), (Z.leb_spec (x * 10 + y) 59); try lia;
    [reflexivity|].
  cbn [orb andb].
  destruct rest as [|c [|d more]];
    try (cbn [mbind option_bind time.fraction_form];
         apply (parse_zone _ (time.set_sec (x * 10 + y)%Z f))).
  cbn [time.fraction_form time.layout_RFC3339 time.comma].
  change (Ascii.eqb c "." || true && Ascii.eqb c ",") with (time.commaOrPeriod c).
  change (time.isDigit (c :: d :: more) 1) with (time.isDigit [d] 0).
  destruct (time.commaOrPeriod c && time.isDigit [d] 0) eqn:Hcd;
    [|cbn [mbind option_bind]; apply (parse_zone _ (time.set_sec (x * 10 + y)%Z f))].
  apply andb_prop in Hcd as [Hc Hd].
  unfold time.isDigit in Hd. cbn [lookup list_lookup mbind option_bind] in Hd.
  destruct (parseNanoseconds_digits c d more Hc) as [ns Hns];
    [destruct (time.digit d); [eauto|discriminate]|].
  cbn [drop]. rewrite drop_0.
  change (2 + time.countDigits more)%nat with (S (S (time.countDigits more))) in *.
  rewrite Hns. cbn [mbind option_bind drop].
  apply (parse_zone (drop (time.countDigits more) more)
           (time.set_nsec ns (time.set_sec (x * 10 + y)%Z f))).
Qed.

Lemma parse_minute s f :
  match time.parse [([":"%char], time.stdZeroMinute); ([":"%char], time.stdZeroSecond);
                    ([], time.stdISO8601ColonTZ)] s f with
  | Some f' =>
      (time.year f', time.month f', time.day f') = (time.year f, time.month f, time.day f)
      /\ time.minutes_form time.layout_RFC3339 s = true
  | None => time.minutes_form time.layout_RFC3339 s = false
  end.
Proof.
  rewrite parse_cons. unfold time.minutes_form.
  destruct s as [|c [|m1 [|m2 rest]]]; try (time_cases; fail).
  cbn [time.skip]. destruct (Ascii.eqb_spec c ":") as [->|]; [|reflexivity].
  cbn [mbind option_bind time.element time.getnum andb].
  unfold time.upto, time.two.
  destruct (time.digit m1) as [x|] eqn:E1; [|reflexivity].
  destruct (time.digit m2) as [y|] eqn:E2; [|reflexivity].
  apply digit_range in E1, E2. cbn [mbind option_bind].
  destruct (Z.ltb_spec (x * 10 + y) 0); [lia|].
  destruct (Z.leb_spec 60 (x * 10 + y)), (Z.leb_spec (x * 10 + y) 59); try lia;
    [reflexivity|].
  cbn [orb andb].
  apply (parse_second rest (time.set_min (x * 10 + y)%Z f)).
Qed.

Lemma parse_hour s f :
  match time.parse [(["T"%char], time.stdHour); ([":"%char], time.stdZeroMinute);
                    ([":"%char], time.stdZeroSecond); ([], time.stdISO8601ColonTZ)] s f with
  | Some f' =>
      (time.year f', time.month f', time.day f') = (time.year f, time.month f, time.day f)
      /\ time.clock_form time.layout_RFC3339 s = true
  | None => time.clock_form time.layout_RFC3339 s = false
  end.
Proof.
  rewrite parse_cons. unfold time.clock_form.
  destruct s as [|t [|h1 [|h2 rest]]]; try (time_cases; fail).
  cbn [time.skip]. unfold time.letter. cbn [time.lower_case time.layout_RFC3339 andb].
  rewrite orb_false_r.
  destruct (Ascii.eqb_spec t "T") as [->|]; [|reflexivity].
  cbn [mbind option_bind time.element time.getnum andb time.short_hour].
  unfold time.upto, time.two.
  destruct (time.digit h1) as [x|] eqn:E1; [|reflexivity].
  apply digit_range in E1.
  destruct (time.digit h2) as [y|] eqn:E2; cbn [mbind option_bind].
  - apply digit_range in E2.
    destruct (Z.ltb_spec (x * 10 + y) 0); [lia|].
    destruct (Z.leb_spec 24 (x * 10 + y)), (Z.leb_spec (x * 10 + y) 23); try lia;
      [reflexivity|].
    cbn [orb andb]. apply (parse_minute rest (time.set_hour (x * 10 + y)%Z f)).
  - destruct (Z.ltb_spec x 0); [lia|]. destruct (Z.leb_spec 24 x); [lia|].
    cbn [orb andb]. apply (parse_minute (h2 :: rest) (time.set_hour x f)).
Qed.

Lemma digit_not_sign c x :
  time.digit c = Some x -> Ascii.eqb c "-" = false /\ Ascii.eqb c "+" = false.
Proof.
  intros H.
  split; [destruct (Ascii.eqb_spec c "-")|destruct (Ascii.eqb_spec c "+")]; subst;
    try reflexivity; vm_compute in H; discriminate.
Qed.

Lemma element_year y1 y2 y3 y4 l f :
  time.element time.stdLongYear (y1 :: y2 :: y3 :: y4 :: l) f
  = match time.two y1 y2, time.two y3 y4 with
    | Some century, Some years => Some (time.set_year (century * 100 + years)%Z f, l)
    | _, _ => None
    end.
Proof.
  unfold time.element, time.isDigit, time.two, time.atoi.
  cbn [length Nat.ltb Nat.leb orb negb take drop lookup list_lookup mbind option_bind].
  destruct (time.digit y1) as [a|] eqn:E1; [|reflexivity].
  destruct (digit_not_sign _ _ E1) as [-> ->].
  cbn [time.leadingInt negb]. rewrite E1.
  destruct (time.digit y2) as [b|]; cbn [mbind option_bind]; [|now destruct (time.digit y3)].
  destruct (time.digit y3) as [c|]; cbn [mbind option_bind]; [|reflexivity].
  destruct (time.digit y4) as [d|]; cbn [mbind option_bind]; [|reflexivity].
  rewrite take_0, drop_0. cbn [time.leadingInt mbind option_bind].
  do 2 f_equal. f_equal. lia.
Qed.

Lemma parse_layout l :
  match time.parse time.chunks l time.start with
  | Some f =>
      negb ((time.day f <? 1)%Z || (time.daysIn (time.month f) (time.year f) <? time.day f)%Z)
      = time.timestamp time.layout_RFC3339 (string_of_list_ascii l)
  | None => time.timestamp time.layout_RFC3339 (string_of_list_ascii l) = false
  end.
Proof.
  unfold time.timestamp. rewrite list_ascii_of_string_of_list_ascii.
  unfold time.chunks. rewrite parse_cons. cbn [time.skip mbind option_bind].
  destruct l as [|y1 [|y2 [|y3 [|y4 l]]]]; try reflexivity.
  rewrite element_year. unfold time.two.
  destruct (time.digit y1) as [y1'|]; [|refused].
  destruct (time.digit y2) as [y2'|]; [|refused].
  destruct (time.digit y3) as [y3'|]; [|refused].
  destruct (time.digit y4) as [y4'|]; [|refused].
  cbn [mbind option_bind]. rewrite parse_cons.
  destruct l as [|c1 l]; [reflexivity|].
  cbn [time.skip]. destruct (Ascii.eqb_spec c1 "-") as [->|]; [|refused].
  destruct l as [|m1 [|m2 l]]; try (time_cases; fail).
  cbn [mbind option_bind time.element time.getnum].
  destruct (time.digit m1) as [a|] eqn:E1; [|refused].
  destruct (time.digit m2) as [b|] eqn:E2; [|refused].
  apply digit_range in E1, E2. cbn [mbind option_bind].
  destruct (Z.leb_spec (a * 10 + b) 0), (Z.leb_spec 1 (a * 10 + b)); try lia; [refused|].
  destruct (Z.ltb_spec 12 (a * 10 + b)), (Z.leb_spec (a * 10 + b) 12); try lia; [refused|].
  cbn [orb andb mbind option_bind]. rewrite parse_cons.
  destruct l as [|c2 l]; [reflexivity|].
  cbn [time.skip]. destruct (Ascii.eqb_spec c2 "-") as [->|]; [|refused].
  destruct l as [|d1 [|d2 l]]; try (time_cases; fail).
  cbn [mbind option_bind time.element time.getnum].
  destruct (time.digit d1) as [c|] eqn:E3; [|refused].
  destruct (time.digit d2) as [d|] eqn:E4; [|refused].
  apply digit_range in E3, E4. cbn [mbind option_bind andb].
  match goal with |- context [time.parse ?tail l ?f] => pose proof (parse_hour l f) as Hh end.
  destruct (time.parse _ l _) as [f|].
  - destruct Hh as [[= -> -> ->] ->]. rewrite andb_true_r.
    cbn [time.set_day time.set_month time.set_year time.year time.month time.day].
    destruct (Z.ltb_spec (c * 10 + d) 1), (Z.leb_spec 1 (c * 10 + d)); lia.
  - rewrite Hh. apply andb_false_r.
Qed.

(** [time.Parse] with the layout [RFC3339] takes exactly the timestamps of
    the dialect [time.layout_RFC3339]. *)
Lemma Parse_timestamp value :
  (exists t, time.Parse time.RFC3339 value = Ok t)
  <-> time.timestamp time.layout_RFC3339 value = true.
Proof.
  unfold time.Parse. change (String.eqb time.RFC3339 time.RFC3339) with true. cbv iota.
  pose proof (parse_layout (list_ascii_of_string value)) as H.
  rewrite string_of_list_ascii_of_string in H.
  destruct (time.parse _ _ _) as [f|].
  - rewrite <- H. destruct (_ || _); cbn; split; eauto; try discriminate.
    now intros [t [=]].
  - rewrite H. split; [now intros [t [=]]|discriminate].
Qed.

Lemma Parse_refused value :
  time.timestamp time.layout_RFC3339 value = false ->
  time.Parse time.RFC3339 value = Error time.ErrParse.
Proof.
  intros H. destruct (time.Parse time.RFC3339 value) as [t|e] eqn:E.
  - assert (Ht : time.timestamp time.layout_RFC3339 value = true)
      by (apply Parse_timestamp; eauto).
    congruence.
  - unfold time.Parse in E. destruct (String.eqb _ _); [|congruence].
    destruct (time.parse _ _ _); [|congruence]. destruct (_ || _); congruence.
Qed.

(** ** The time of a record *)

(** C6, as amended.  The time of a record is what [time.Parse] takes under
    the layout [RFC3339], not what RFC 3339 allows.  A line whose field 2 is
    not a timestamp of [time.layout_RFC3339] is rejected with the error
    [bad time] that carries the raw field; a file that has such a line among
    its data lines is not ingested: [fileToDB] fails, the transaction is
    rolled back without a commit and the table is unchanged; and when the
    lines before it were written, the failure is the one of that line.  A
    line whose field 2 is such a timestamp is written (when the database
    takes the statement), also when RFC 3339 does not allow the field: an
    hour of one digit, a comma before the fraction, an offset of 24:00. *)
Theorem bad_time_rejected env text parts station raw :
  csv.Read text = Ok parts ->
  parts !! 1%nat = Some station ->
  parts !! 2%nat = Some raw ->
  if time.timestamp time.layout_RFC3339 raw then
    exists t,
      time.Parse time.RFC3339 raw = Ok t
      /\ forall tx,
          exec_err env (length (sql.stmts tx)) = None ->
          writeLine time.Parse env tx text
          = (executed tx [{| sql.station := station; sql.time := t;
                             sql.csv_parts := parts |}], Nil)
  else
    (forall tx,
        writeLine time.Parse env tx text
        = (tx, Err (Errorf "bad time %q: %w" [Q raw; W (Some time.ErrParse)])))
    /\ (forall w fname sc w' r,
           data_phase env w fname sc ->
           text ∈ bufio.pending sc ->
           fileToDB time.Parse env w fname = (w', r) ->
           r <> Nil
           /\ metars w' = metars w
           /\ log w' = log w ++ [Open fname; Begin; Rollback])
    /\ (forall w fname sc w' r pre post tx,
           data_phase env w fname sc ->
           bufio.pending sc = pre ++ text :: post ->
           writeLines time.Parse env (begun w) pre = (tx, Nil) ->
           fileToDB time.Parse env w fname = (w', r) ->
           r = Err (Errorf "writing line %q: %w"
                      [Q text;
                       W (Some (Errorf "bad time %q: %w"
                                  [Q raw; W (Some time.ErrParse)]))])).
Proof.
  intros Hcsv H1 H2.
  destruct (time.timestamp time.layout_RFC3339 raw) eqn:Hform.
  - apply Parse_timestamp in Hform as [t Ht]. exists t. split; [exact Ht|].
    intros tx He. apply writeLine_record; [|exact He].
    unfold record_of. rewrite Hcsv, H1, H2. cbn [mbind option_bind]. now rewrite Ht.
  - apply (bad_time_aborts time.Parse env text parts station raw time.ErrParse Hcsv H1 H2).
    now apply Parse_refused.
Qed.

(** The claim of C6 as the spec words it fails: [2024-01-01T0:00:00Z] is no
    timestamp of RFC 3339 (the hour has one digit), and the line that carries
    it is written; so are a comma before the fraction and the offset
    [+24:00]; the file with the line is ingested and its row committed. *)
Lemma lenient_time_stored :
  ~ invalid_time_rejected
  /\ time.timestamp time.rfc3339 "2024-01-01T0:00:00Z" = false
  /\ time.Parse time.RFC3339 "2024-01-01T0:00:00Z" = Ok 1704067200000000000%Z
  /\ (time.timestamp time.rfc3339 "2024-01-01T00:00:00,5Z" = false
      /\ time.Parse time.RFC3339 "2024-01-01T00:00:00,5Z" = Ok 1704067200500000000%Z)
  /\ (time.timestamp time.rfc3339 "2024-01-01T00:00:00+24:00" = false
      /\ time.Parse time.RFC3339 "2024-01-01T00:00:00+24:00" = Ok 1703980800000000000%Z)
  /\ snd (ingest (on_disk "metars.csv" lenient_file) "metars.csv") = Nil
  /\ metars (fst (ingest (on_disk "metars.csv" lenient_file) "metars.csv"))
     = [{| sql.station := "KSEA"; sql.time := 1704067200000000000%Z;
           sql.csv_parts := ["KSEA 010000Z AUTO"; "KSEA"; "2024-01-01T0:00:00Z";
                             "47.45"] |}].
Proof.
  split.
  - intros H.
    apply (H (quiet EmptyString) empty_tx
             "KSEA 010000Z AUTO,KSEA,2024-01-01T0:00:00Z,47.45"
             ["KSEA 010000Z AUTO"; "KSEA"; "2024-01-01T0:00:00Z"; "47.45"]
             "2024-01-01T0:00:00Z"); vm_compute; reflexivity.
  - repeat split; vm_compute; reflexivity.
Qed.

(** ** Files ingested one after the other *)

Lemma length_upsert_conflict r t :
  key r ∈ key <$> t -> length (sql.upsert r t) = length t.
Proof. intros H. rewrite upsert_conflict by assumption. apply length_fmap. Qed.

Lemma stored_upserts_after post : forall t k,
  Forall (fun r => key r <> k) post -> stored k (upserts t post) = stored k t.
Proof.
  induction post as [|r post IH]; intros t k Hall; [reflexivity|].
  apply Forall_cons in Hall as [Hr Hall].
  rewrite upserts_cons, IH by assumption. now apply stored_other_upsert.
Qed.

Lemma stored_upserts_last t pre r post :
  unique t -> Forall (fun r' => key r' <> key r) post ->
  stored (key r) (upserts t (pre ++ r :: post)) = [r].
Proof.
  intros Hu Hpost.
  rewrite upserts_app, upserts_cons, stored_upserts_after by assumption.
  apply stored_upsert, unique_upserts, Hu.
Qed.

(** C2. Writing a record whose key already has a row replaces the field
    sequence of that row: afterwards the key has exactly one row, the record
    just written, the rows of the other keys are what they were, and the
    table has as many rows as before.  So when a file whose last record for
    a key has fields A is ingested, and then a file whose last record for
    that key has fields B, the key has exactly one row, with A after the
    first file and with B after the second. *)
Theorem upsert_replaces time_Parse :
  (forall env tx text row,
      record_of time_Parse text = Some row ->
      exec_err env (length (sql.stmts tx)) = None ->
      unique (sql.rows tx) ->
      key row ∈ key <$> sql.rows tx ->
      exists tx',
        writeLine time_Parse env tx text = (tx', Nil)
        /\ stored (key row) (sql.rows tx') = [row]
        /\ (forall k, k <> key row -> stored k (sql.rows tx') = stored k (sql.rows tx))
        /\ length (sql.rows tx') = length (sql.rows tx))
  /\ (forall env1 env2 w0 w1 w2 f1 f2 d1 d2 station t A B pre1 post1 pre2 post2,
         let rowA := {| sql.station := station; sql.time := t; sql.csv_parts := A |} in
         let rowB := {| sql.station := station; sql.time := t; sql.csv_parts := B |} in
         unique (metars w0) ->
         fs w0 !! f1 = Some d1 ->
         fs w0 !! f2 = Some d2 ->
         file_records time_Parse d1 = Some (pre1 ++ rowA :: post1) ->
         Forall (fun r => key r <> (station, t)) post1 ->
         file_records time_Parse d2 = Some (pre2 ++ rowB :: post2) ->
         Forall (fun r => key r <> (station, t)) post2 ->
         fileToDB time_Parse env1 w0 f1 = (w1, Nil) ->
         fileToDB time_Parse env2 w1 f2 = (w2, Nil) ->
         stored (station, t) (metars w1) = [rowA]
         /\ stored (station, t) (metars w2) = [rowB]).
Proof.
  split.
  - intros env tx text row Hrow Hex Hu Hin.
    exists (executed tx [row]). split; [now apply writeLine_record|].
    cbn [executed sql.rows]. rewrite upserts_cons. cbn [upserts foldl].
    split; [now apply stored_upsert|]. split.
    + intros k Hk. apply stored_other_upsert. congruence.
    + now apply length_upsert_conflict.
  - intros env1 env2 w0 w1 w2 f1 f2 d1 d2 station t A B pre1 post1 pre2 post2
      rowA rowB Hu Hd1 Hd2 Hr1 Hp1 Hr2 Hp2 H1 H2.
    destruct (fileToDB_Nil_records _ _ _ _ _ H1) as (d1' & recs1 & Hd1' & Hr1' & ->).
    destruct (fileToDB_Nil_records _ _ _ _ _ H2) as (d2' & recs2 & Hd2' & Hr2' & ->).
    cbn [ingested fs metars] in *.
    assert (d1' = d1) as -> by congruence. assert (d2' = d2) as -> by congruence.
    assert (recs1 = pre1 ++ rowA :: post1) as -> by congruence.
    assert (recs2 = pre2 ++ rowB :: post2) as -> by congruence.
    split.
    + apply (stored_upserts_last _ pre1 rowA post1 Hu Hp1).
    + apply (stored_upserts_last _ pre2 rowB post2); [|exact Hp2].
      apply unique_upserts, Hu.
Qed.

(** C3. A file that was ingested can be ingested again: in the same
    outside world the second ingestion succeeds too, and whatever the
    outside world of the second ingestion and its result, the table after it
    is the table after the first, row for row; the unique index holds after
    as it did before. *)
Theorem fileToDB_idempotent time_Parse env w fname w1 :
  fileToDB time_Parse env w fname = (w1, Nil) ->
  (exists w2, fileToDB time_Parse env w1 fname = (w2, Nil) /\ metars w2 = metars w1)
  /\ (forall env' w2 r,
         fileToDB time_Parse env' w1 fname = (w2, r) -> metars w2 = metars w1)
  /\ (unique (metars w) -> unique (metars w1)).
Proof.
  intros H. split; [|split].
  - destruct (fileToDB_Nil_inv _ _ _ _ _ H)
      as (sc & recs & Hphase & Hf & Hcm & Hm & Hex & ->).
    exists (ingested (ingested w fname recs) fname recs). split.
    + apply (fileToDB_Nil_intro _ _ _ _ sc); assumption.
    + cbn [ingested metars]. apply upserts_idempotent.
  - intros env' w2 r H2.
    destruct (fileToDB_Nil_records _ _ _ _ _ H) as (data & recs & Hd & Hr & ->).
    destruct r as [|e|p];
      [|destruct (fileToDB_effects _ _ _ _ _ _ H2) as [_ Hm]; apply Hm; discriminate..].
    destruct (fileToDB_Nil_records _ _ _ _ _ H2) as (data' & recs' & Hd' & Hr' & ->).
    cbn [ingested fs metars] in *.
    assert (data' = data) as -> by congruence.
    assert (recs' = recs) as -> by congruence.
    apply upserts_idempotent.
  - intros Hu.
    destruct (fileToDB_Nil_records _ _ _ _ _ H) as (data & recs & _ & _ & ->).
    apply unique_upserts, Hu.
Qed.

(** ** The header block of the feed *)

(** C4, at the input on which the code departs from it.  The sixth line of
    [altered_file] is not the column line: it has a character before the
    column names and a column after them.  The sixth pattern, which has no
    [^] and no [$], accepts it, where the anchored first pattern refuses a
    first line altered in the same way; the header block is accepted and the
    record of the file is stored. *)
Theorem column_line_not_anchored :
  bufio.ScanLines EmptyString altered_file !! 5%nat
  = Some ("#" +:+ columns +:+ ",extra_column")
  /\ "#" +:+ columns +:+ ",extra_column" <> columns
  /\ regexp.MatchString (regexp.MustCompile "^No errors$") "#No errors,extra_column" = false
  /\ snd (checkLines metarHeaders (bufio.NewScanner altered_file None)) = Nil
  /\ snd (fileToDB time.Parse (quiet EmptyString)
            (on_disk "metars.csv" altered_file) "metars.csv") = Nil
  /\ metars (fst (fileToDB time.Parse (quiet EmptyString)
                    (on_disk "metars.csv" altered_file) "metars.csv"))
     = [{| sql.station := "KSEA"; sql.time := 1704067200000000000%Z;
           sql.csv_parts := ["KSEA 010000Z AUTO"; "KSEA"; "2024-01-01T00:00:00Z";
                             "47.45"] |}].
Proof.
  split; [vm_compute; reflexivity|].
  split; [vm_compute; discriminate|].
  split; [vm_compute; reflexivity|].
  split; [vm_compute; reflexivity|].
  split; vm_compute; reflexivity.
Qed.

(** ** The station field *)

(** The claim of C9 as the data model words it fails: a line with an empty
    field 1 is written, with the empty station. *)
Lemma station_may_be_empty : ~ station_never_empty.
Proof.
  intros H.
  apply (H time.Parse (quiet EmptyString) empty_tx
           "METAR AUTO,,2024-01-01T00:00:00Z"
           (executed empty_tx
              [{| sql.station := EmptyString; sql.time := 1704067200000000000%Z;
                  sql.csv_parts := ["METAR AUTO"; EmptyString; "2024-01-01T00:00:00Z"] |}])
           {| sql.station := EmptyString; sql.time := 1704067200000000000%Z;
              sql.csv_parts := ["METAR AUTO"; EmptyString; "2024-01-01T00:00:00Z"] |});
    vm_compute; reflexivity.
Qed.

(** ** The statements above at sample inputs *)

Lemma fileToDB_all_or_nothing_witness :
  snd (ingest (on_disk "metars.csv" broken_file) "metars.csv") <> Nil
  /\ metars (fst (ingest (on_disk "metars.csv" broken_file) "metars.csv")) = []
  /\ log (fst (ingest (on_disk "metars.csv" broken_file) "metars.csv"))
     = [Open "metars.csv"; Begin; Rollback].
Proof.
  destruct (fileToDB_all_or_nothing time.Parse (quiet EmptyString)
              (on_disk "metars.csv" broken_file) "metars.csv" _ _
              (surjective_pairing _)) as (_ & _ & Hline).
  destruct (Hline (fst (checkLines metarHeaders (bufio.NewScanner broken_file None))))
    as (Hr & Hm & _ & Hl); [| |repeat split; assumption].
  - split; [reflexivity|]. split; [reflexivity|].
    exists broken_file. split; vm_compute; reflexivity.
  - left.
    exists ["KSEA 010000Z AUTO,KSEA,2024-01-01T00:00:00Z,47.45"],
      "KPDX 010005Z AUTO,KPDX,2024-13-40,45.59", [], (executed empty_tx [ksea]).
    split; [vm_compute; reflexivity|].
    split; [vm_compute; reflexivity|].
    vm_compute. discriminate.
Defined.

Lemma upsert_replaces_witness :
  (exists tx',
      writeLine time.Parse (quiet EmptyString) (executed empty_tx [ksea; kpdx])
        "KSEA 010000Z COR,KSEA,2024-01-01T00:00:00Z,47.45,-122.31" = (tx', Nil)
      /\ stored (key ksea_revised) (sql.rows tx') = [ksea_revised]
      /\ (forall k, k <> key ksea_revised ->
                    stored k (sql.rows tx') = stored k [ksea; kpdx])
      /\ length (sql.rows tx') = 2%nat)
  /\ stored ("KSEA", 1704067200000000000%Z) (metars (fst (ingest two_files "first.csv")))
     = [ksea]
  /\ stored ("KSEA", 1704067200000000000%Z)
       (metars (fst (ingest (fst (ingest two_files "first.csv")) "second.csv")))
     = [ksea_revised].
Proof.
  destruct (upsert_replaces time.Parse) as [Hrow Hfiles]. split.
  - apply (Hrow (quiet EmptyString) (executed empty_tx [ksea; kpdx])
             "KSEA 010000Z COR,KSEA,2024-01-01T00:00:00Z,47.45,-122.31" ksea_revised).
    + vm_compute. reflexivity.
    + reflexivity.
    + apply NoDup_cons. split; [intros Hin; other_call Hin|apply NoDup_singleton].
    + vm_compute. constructor.
  - apply (Hfiles (quiet EmptyString) (quiet EmptyString) two_files
             (fst (ingest two_files "first.csv"))
             (fst (ingest (fst (ingest two_files "first.csv")) "second.csv"))
             "first.csv" "second.csv" sample_file revised_file
             "KSEA" 1704067200000000000%Z
             (sql.csv_parts ksea) (sql.csv_parts ksea_revised) [] [kpdx] [] []).
    + constructor.
    + vm_compute. reflexivity.
    + vm_compute. reflexivity.
    + vm_compute. reflexivity.
    + repeat constructor. vm_compute. discriminate.
    + vm_compute. reflexivity.
    + constructor.
    + vm_compute. reflexivity.
    + vm_compute. reflexivity.
Defined.

Lemma fileToDB_idempotent_witness :
  (exists w2,
      ingest (fst (ingest (on_disk "metars.csv" sample_file) "metars.csv")) "metars.csv"
      = (w2, Nil)
      /\ metars w2 = metars (fst (ingest (on_disk "metars.csv" sample_file) "metars.csv")))
  /\ metars (fst (ingest (on_disk "metars.csv" sample_file) "metars.csv")) = [ksea; kpdx].
Proof.
  split; [|vm_compute; reflexivity].
  apply (fileToDB_idempotent time.Parse (quiet EmptyString)
           (on_disk "metars.csv" sample_file) "metars.csv").
  vm_compute. reflexivity.
Defined.

Lemma checkLines_contract_witness :
  (snd (checkLines two_patterns (feed ["No errors"; "12 ms"; "KSEA"] None)) = Nil
   /\ bufio.pending (fst (checkLines two_patterns (feed ["No errors"; "12 ms"; "KSEA"] None)))
      = ["KSEA"])
  /\ snd (checkLines two_patterns (feed ["No errors"] None))
     = Err (Errorf "scan error while looking for %v: %w" [V "^[0-9]* ms$"; W None])
  /\ snd (checkLines two_patterns (feed ["No errors"; "12 msec"; "KSEA"] None))
     = Err (Errorf "expected %v, got %q" [V "^[0-9]* ms$"; Q "12 msec"]).
Proof.
  split; [|split].
  - apply (proj1 (checkLines_contract two_patterns
                    (feed ["No errors"; "12 ms"; "KSEA"] None))
             ["No errors"; "12 ms"] ["KSEA"]); [reflexivity|].
    repeat constructor.
  - apply (proj1 (proj2 (checkLines_contract two_patterns (feed ["No errors"] None)))
             [regexp.MustCompile "^No errors$"] (regexp.MustCompile "^[0-9]* ms$") []);
      [reflexivity|]. repeat constructor.
  - apply (proj1 (proj2 (proj2 (checkLines_contract two_patterns
                                  (feed ["No errors"; "12 msec"; "KSEA"] None))))
             [regexp.MustCompile "^No errors$"] (regexp.MustCompile "^[0-9]* ms$") []
             ["No errors"] "12 msec" ["KSEA"]);
      [reflexivity|reflexivity|repeat constructor|].
    unfold accepts. vm_compute. discriminate.
Defined.

Lemma bad_time_rejected_witness :
  writeLine time.Parse (quiet EmptyString) empty_tx
    "KPDX 010005Z AUTO,KPDX,2024-13-40,45.59"
  = (empty_tx, Err (Errorf "bad time %q: %w" [Q "2024-13-40"; W (Some time.ErrParse)]))
  /\ (snd (ingest (on_disk "metars.csv" broken_file) "metars.csv")
      = Err (Errorf "writing line %q: %w"
               [Q "KPDX 010005Z AUTO,KPDX,2024-13-40,45.59";
                W (Some (Errorf "bad time %q: %w"
                           [Q "2024-13-40"; W (Some time.ErrParse)]))]))
  /\ metars (fst (ingest (on_disk "metars.csv" broken_file) "metars.csv")) = []
  /\ writeLine time.Parse (quiet EmptyString) empty_tx
       "KSEA 010000Z AUTO,KSEA,2024-01-01T0:00:00Z,47.45"
     = (executed empty_tx
          [{| sql.station := "KSEA"; sql.time := 1704067200000000000%Z;
              sql.csv_parts := ["KSEA 010000Z AUTO"; "KSEA"; "2024-01-01T0:00:00Z";
                                "47.45"] |}], Nil).
Proof.
  pose proof (bad_time_rejected (quiet EmptyString)
                "KPDX 010005Z AUTO,KPDX,2024-13-40,45.59"
                ["KPDX 010005Z AUTO"; "KPDX"; "2024-13-40"; "45.59"]
                "KPDX" "2024-13-40" eq_refl eq_refl eq_refl) as Hbad.
  pose proof (bad_time_rejected (quiet EmptyString)
                "KSEA 010000Z AUTO,KSEA,2024-01-01T0:00:00Z,47.45"
                ["KSEA 010000Z AUTO"; "KSEA"; "2024-01-01T0:00:00Z"; "47.45"]
                "KSEA" "2024-01-01T0:00:00Z" eq_refl eq_refl eq_refl) as Hgood.
  change (time.timestamp time.layout_RFC3339 "2024-13-40") with false in Hbad.
  change (time.timestamp time.layout_RFC3339 "2024-01-01T0:00:00Z") with true in Hgood.
  cbv iota in Hbad, Hgood.
  destruct Hbad as (Hline & Hany & Hfirst).
  assert (Hphase : data_phase (quiet EmptyString) (on_disk "metars.csv" broken_file)
                     "metars.csv"
                     (fst (checkLines metarHeaders (bufio.NewScanner broken_file None)))).
  { split; [reflexivity|]. split; [reflexivity|].
    exists broken_file. split; vm_compute; reflexivity. }
  split; [apply Hline|]. split; [|split].
  - apply (Hfirst _ _ _
             (fst (ingest (on_disk "metars.csv" broken_file) "metars.csv")) _
             ["KSEA 010000Z AUTO,KSEA,2024-01-01T00:00:00Z,47.45"] []
             (executed empty_tx [ksea]) Hphase);
      [vm_compute; reflexivity..|apply surjective_pairing].
  - destruct (Hany _ _ _
                (fst (ingest (on_disk "metars.csv" broken_file) "metars.csv"))
                (snd (ingest (on_disk "metars.csv" broken_file) "metars.csv")) Hphase)
      as (_ & Hm & _); [|apply surjective_pairing|exact Hm].
    vm_compute. apply list_elem_of_further, list_elem_of_here.
  - destruct Hgood as (t & Ht & Hw).
    rewrite (Hw empty_tx eq_refl). vm_compute in Ht. now injection Ht as <-.
Defined.

Lemma run_download_and_cleanup_witness :
  snd (run time.Parse not_found nothing with_download)
  = Err (Errorf "downloading file: %w"
           [W (Some (Errorf "unexpected status code %d" [D 404%Z]))])
  /\ (snd (run time.Parse (quiet sample_file) nothing with_download) = Nil
      /\ fs (fst (run time.Parse (quiet sample_file) nothing with_download))
           !! "metars.csv" = None)
  /\ (snd (run time.Parse (locked sample_file) nothing with_download)
      = Err (Errorf "removing file: %w" [W (Some (Sentinel "fs.ErrPermission"))])
      /\ metars (fst (run time.Parse (locked sample_file) nothing with_download))
         = [ksea; kpdx])
  /\ (snd (run time.Parse (quiet broken_file) nothing with_download) <> Nil
      /\ fs (fst (run time.Parse (quiet broken_file) nothing with_download))
           !! "metars.csv" = Some broken_file)
  /\ fs (fst (run time.Parse (quiet EmptyString)
                (on_disk "metars.csv" sample_file) without_download))
     = fs (on_disk "metars.csv" sample_file).
Proof.
  split; [|split; [|split; [|split]]].
  - destruct (run_download_and_cleanup time.Parse not_found nothing with_download
                _ _ (surjective_pairing _)) as (Hfetch & _).
    apply (Hfetch eq_refl
             (fst (downloadFile not_found nothing metarURL "metars.csv"))
             (Errorf "unexpected status code %d" [D 404%Z])).
    vm_compute. reflexivity.
  - destruct (run_download_and_cleanup time.Parse (quiet sample_file) nothing
                with_download _ _ (surjective_pairing _)) as (_ & Hok & _).
    destruct (Hok eq_refl
                (fst (fetched (quiet sample_file) nothing with_download))
                (fst (fileToDB time.Parse (quiet sample_file)
                        (fst (fetched (quiet sample_file) nothing with_download))
                        "metars.csv")))
      as [Hremoved _]; [vm_compute; reflexivity..|].
    destruct (Hremoved eq_refl) as (Hr & _ & Hgone). split; assumption.
  - destruct (run_download_and_cleanup time.Parse (locked sample_file) nothing
                with_download _ _ (surjective_pairing _)) as (_ & Hok & _).
    destruct (Hok eq_refl
                (fst (fetched (locked sample_file) nothing with_download))
                (fst (fileToDB time.Parse (locked sample_file)
                        (fst (fetched (locked sample_file) nothing with_download))
                        "metars.csv")))
      as [_ Hrefused]; [vm_compute; reflexivity..|].
    destruct (Hrefused (Sentinel "fs.ErrPermission") eq_refl) as (Hr & _ & Hm).
    split; [assumption|]. rewrite Hm. vm_compute. reflexivity.
  - destruct (run_download_and_cleanup time.Parse (quiet broken_file) nothing
                with_download _ _ (surjective_pairing _)) as (_ & _ & Hfail & _).
    destruct (Hfail
                (fst (fetched (quiet broken_file) nothing with_download))
                (fst (fileToDB time.Parse (quiet broken_file)
                        (fst (fetched (quiet broken_file) nothing with_download))
                        "metars.csv"))
                (snd (fileToDB time.Parse (quiet broken_file)
                        (fst (fetched (quiet broken_file) nothing with_download))
                        "metars.csv")))
      as (Hr & Hfs & _);
      [vm_compute; reflexivity|reflexivity|apply surjective_pairing
      |vm_compute; discriminate|].
    split; [assumption|]. rewrite Hfs. vm_compute. reflexivity.
  - destruct (run_download_and_cleanup time.Parse (quiet EmptyString)
                (on_disk "metars.csv" sample_file) without_download
                _ _ (surjective_pairing _)) as (_ & _ & _ & Hoff).
    apply (Hoff eq_refl).
Defined.

Lemma downloadFile_failures_witness :
  snd (downloadFile not_found nothing metarURL "metars.csv")
  = Err (Errorf "unexpected status code %d" [D 404%Z])
  /\ snd (downloadFile bad_gzip nothing metarURL "metars.csv")
     = Err (Errorf "gzip error: %w" [W (Some (Sentinel "gzip.ErrHeader"))])
  /\ (snd (downloadFile (quiet sample_file) (on_disk "metars.csv" broken_file)
             metarURL "metars.csv")
      = Err (Errorf "error creating file %q: %w" [Q "metars.csv"; W (Some ErrExist)])
      /\ fs (fst (downloadFile (quiet sample_file) (on_disk "metars.csv" broken_file)
                    metarURL "metars.csv"))
         = fs (on_disk "metars.csv" broken_file))
  /\ (snd (downloadFile cut_stream nothing metarURL "metars.csv")
      = Err (Errorf "error writing to file: %w" [W (Some (Sentinel "io.ErrUnexpectedEOF"))])
      /\ fs (fst (downloadFile cut_stream nothing metarURL "metars.csv"))
         = <["metars.csv" := "No errors"]> (fs nothing)).
Proof.
  split; [|split; [|split]].
  - destruct (downloadFile_failures not_found nothing metarURL "metars.csv" _ _
                (surjective_pairing _)) as (Hstatus & _).
    apply (Hstatus {| StatusCode := 404;
                      body := {| header := None; payload := EmptyString;
                                 trailer := None |} |} eq_refl).
    discriminate.
  - destruct (downloadFile_failures bad_gzip nothing metarURL "metars.csv" _ _
                (surjective_pairing _)) as (_ & Hgzip & _).
    destruct (Hgzip _ eq_refl eq_refl) as [Hheader _].
    apply (Hheader (Sentinel "gzip.ErrHeader") eq_refl).
  - destruct (downloadFile_failures (quiet sample_file) (on_disk "metars.csv" broken_file)
                metarURL "metars.csv" _ _ (surjective_pairing _))
      as (_ & _ & Hexists & _).
    destruct Hexists as (_ & Hfs & Herr); [exists broken_file; vm_compute; reflexivity|].
    split; [|exact Hfs]. apply (Herr _ eq_refl eq_refl eq_refl eq_refl).
  - destruct (downloadFile_failures cut_stream nothing metarURL "metars.csv" _ _
                (surjective_pairing _)) as (_ & _ & _ & Hcut).
    apply (Hcut _ (Sentinel "io.ErrUnexpectedEOF") eq_refl eq_refl eq_refl eq_refl);
      reflexivity.
Defined.

Lemma writeLine_station_is_field_1_witness :
  exists parts station raw t,
    csv.Read "METAR AUTO,,2024-01-01T00:00:00Z" = Ok parts
    /\ parts !! 1%nat = Some station
    /\ parts !! 2%nat = Some raw
    /\ time.Parse time.RFC3339 raw = Ok t
    /\ fst (writeLine time.Parse (quiet EmptyString) empty_tx
              "METAR AUTO,,2024-01-01T00:00:00Z")
       = executed empty_tx [{| sql.station := station; sql.time := t;
                               sql.csv_parts := parts |}].
Proof.
  apply (writeLine_station_is_field_1 time.Parse (quiet EmptyString) empty_tx).
  vm_compute. reflexivity.
Defined.

Lemma writeLine_short_record_panics_witness :
  exists i,
    writeLine time.Parse (quiet EmptyString) empty_tx "KSEA 010000Z AUTO,KSEA"
    = (empty_tx, Panic (IndexOutOfRange i 2))
    /\ (2 <= i)%nat /\ (i = 1 \/ i = 2)%nat.
Proof.
  apply (writeLine_short_record_panics time.Parse (quiet EmptyString) empty_tx
           "KSEA 010000Z AUTO,KSEA" ["KSEA 010000Z AUTO"; "KSEA"]).
  - vm_compute. reflexivity.
  - cbn. lia.
Defined.

(** ** What the header patterns accept *)

Lemma append_cons c (s t : string) : String c s +:+ t = String c (s +:+ t).
Proof. reflexivity. Qed.

Lemma append_nil_r (s : string) : s +:+ EmptyString = s.
Proof. induction s as [|c s IH]; [reflexivity|]. now rewrite append_cons, IH. Qed.

Lemma search_anchored p s : regexp.search (regexp.BeginText :: p) false s = false.
Proof. induction s as [|c s IH]; cbn; [reflexivity|exact IH]. Qed.

Lemma MatchString_anchored expr p s :
  regexp.MatchString {| regexp.expr := expr; regexp.prog := regexp.BeginText :: p |} s
  = regexp.match_here p true s.
Proof.
  unfold regexp.MatchString. cbn [regexp.prog].
  destruct s as [|c s]; cbn; [now rewrite orb_false_r|].
  now rewrite search_anchored, orb_false_r.
Qed.

Lemma match_here_lits lit : forall p b s,
  regexp.match_here ((regexp.Lit <$> list_ascii_of_string lit) ++ p) b s = true <->
  exists rest, s = lit +:+ rest
               /\ regexp.match_here p (match lit with EmptyString => b | _ => false end) rest
                  = true.
Proof.
  induction lit as [|c lit IH]; intros p b s.
  - cbn. split; [intros H; exists s; auto|intros (rest & -> & H); exact H].
  - cbn [list_ascii_of_string fmap list_fmap app regexp.match_here].
    destruct s as [|d s]; [split; [discriminate|intros (rest & [=] & _)]|].
    rewrite andb_true_iff, Ascii.eqb_eq, IH. split.
    + intros (-> & rest & -> & H). exists rest. split; [reflexivity|].
      now destruct lit.
    + intros (rest & [= -> ->] & H). split; [reflexivity|].
      exists rest. split; [reflexivity|]. now destruct lit.
Qed.

Lemma match_here_end b s : regexp.match_here [regexp.EndText] b s = true <-> s = EmptyString.
Proof. destruct s; cbn; split; congruence. Qed.

Lemma match_here_star_step lo hi p b s :
  regexp.match_here (regexp.StarRange lo hi :: p) b s
  = regexp.match_here p b s
    || match s with
       | EmptyString => false
       | String d s' =>
           regexp.in_range lo hi d && regexp.match_here (regexp.StarRange lo hi :: p) false s'
       end.
Proof. destruct s; reflexivity. Qed.

Lemma match_here_star lo hi p :
  (forall b1 b2 s, regexp.match_here p b1 s = regexp.match_here p b2 s) ->
  forall s b,
    regexp.match_here (regexp.StarRange lo hi :: p) b s = true <->
    exists ds rest,
      s = ds +:+ rest
      /\ Forall (fun c => regexp.in_range lo hi c = true) (list_ascii_of_string ds)
      /\ regexp.match_here p false rest = true.
Proof.
  intros Hp. induction s as [|d s IH]; intros b; rewrite match_here_star_step.
  - rewrite orb_false_r, (Hp b false). split.
    + intros H. exists EmptyString, EmptyString. repeat split; [constructor|exact H].
    + intros (ds & rest & E & _ & H). destruct ds; [|discriminate].
      change (EmptyString = rest) in E. now subst rest.
  - rewrite orb_true_iff, andb_true_iff, IH, (Hp b false). split.
    + intros [H|(Hd & ds & rest & -> & Hds & H)].
      * exists EmptyString, (String d s). repeat split; [constructor|exact H].
      * exists (String d ds), rest. repeat split; [now constructor|exact H].
    + intros (ds & rest & E & Hds & H). destruct ds as [|c ds].
      * left. change (String d s = rest) in E. now subst rest.
      * right. injection E as -> ->. apply Forall_cons in Hds as [Hc Hds].
        split; [exact Hc|]. exists ds, rest. auto.
Qed.

Lemma search_lits lit : forall s b,
  regexp.search (regexp.Lit <$> list_ascii_of_string lit) b s = true <->
  exists pre post, s = pre +:+ lit +:+ post.
Proof.
  assert (Hhere : forall b s,
             regexp.match_here (regexp.Lit <$> list_ascii_of_string lit) b s = true <->
             exists post, s = lit +:+ post).
  { intros b s. rewrite <- (app_nil_r (_ <$> _)), match_here_lits. split.
    - intros (rest & -> & _). eauto.
    - intros (post & ->). exists post. split; [reflexivity|]. now destruct lit. }
  induction s as [|c s IH]; intros b; cbn [regexp.search]; rewrite orb_true_iff, Hhere.
  - split.
    + intros [(post & E)|H]; [|discriminate]. exists EmptyString, post. exact E.
    + intros (pre & post & E). left. destruct pre; [|discriminate]. eauto.
  - rewrite IH. split.
    + intros [(post & E)|(pre & post & ->)]; [exists EmptyString, post; exact E|].
      exists (String c pre), post. reflexivity.
    + intros (pre & post & E). destruct pre as [|c' pre]; [left; eauto|].
      right. injection E as -> ->. eauto.
Qed.

(** An anchored pattern made of literal characters accepts its text only. *)
Lemma accepts_exact expr lit l :
  accepts {| regexp.expr := expr;
             regexp.prog := regexp.BeginText
                            :: (regexp.Lit <$> list_ascii_of_string lit) ++ [regexp.EndText] |} l
  <-> l = lit.
Proof.
  unfold accepts. rewrite MatchString_anchored, match_here_lits. split.
  - intros (rest & -> & H). apply match_here_end in H as ->. apply append_nil_r.
  - intros ->. exists EmptyString. split; [|apply match_here_end; reflexivity].
    symmetry. apply append_nil_r.
Qed.

(** An anchored pattern [^[0-9]*lit$] accepts the digit runs followed by
    [lit], the empty run too. *)
Lemma accepts_counted expr lit l :
  lit <> EmptyString ->
  accepts {| regexp.expr := expr;
             regexp.prog := regexp.BeginText :: regexp.StarRange "0" "9"
                            :: (regexp.Lit <$> list_ascii_of_string lit) ++ [regexp.EndText] |} l
  <-> exists n, digits n /\ l = n +:+ lit.
Proof.
  intros Hlit. unfold accepts, digits. rewrite MatchString_anchored, match_here_star.
  - split.
    + intros (ds & rest & -> & Hds & H). exists ds. split; [exact Hds|].
      apply match_here_lits in H as (rest' & -> & H). apply match_here_end in H as ->.
      now rewrite append_nil_r.
    + intros (n & Hn & ->). exists n, lit. repeat split; [exact Hn|].
      apply match_here_lits. exists EmptyString. split; [|apply match_here_end; reflexivity].
      symmetry. apply append_nil_r.
  - intros b1 b2 s. destruct lit as [|c lit]; [contradiction|]. reflexivity.
Qed.

Lemma accepts_columns l :
  accepts (default (regexp.MustCompile EmptyString) (last metarHeaders)) l
  <-> exists pre post, l = pre +:+ columns +:+ post.
Proof.
  unfold accepts, regexp.MatchString. rewrite <- search_lits.
  replace (regexp.prog (default (regexp.MustCompile EmptyString) (last metarHeaders)))
    with (regexp.Lit <$> list_ascii_of_string columns) by (vm_compute; reflexivity).
  reflexivity.
Qed.

(** X1. The header block [checkLines] accepts with [metarHeaders]: the
    first six lines are [No errors], [No warnings], a run of digits (possibly
    none) followed by [ ms], [data source=metars], a run of digits (possibly
    none) followed by [ results], and a line that contains the column names
    somewhere; no other block is accepted. *)
Theorem header_block_accepted sc :
  snd (checkLines metarHeaders sc) = Nil <->
  exists n1 n2 pre post rest,
    digits n1 /\ digits n2
    /\ bufio.pending sc
       = ["No errors"; "No warnings"; n1 +:+ " ms"; "data source=metars";
          n2 +:+ " results"; pre +:+ columns +:+ post] ++ rest.
Proof.
  split.
  - destruct (checkLines metarHeaders sc) as [sc' r] eqn:Hc. cbn [snd]. intros ->.
    destruct (checkLines_Nil_inv _ _ _ Hc) as (hd & Hp & Hall & _).
    unfold metarHeaders in Hall.
    apply Forall2_cons_inv_l in Hall as (l1 & hd1 & H1 & Hall & ->).
    apply Forall2_cons_inv_l in Hall as (l2 & hd2 & H2 & Hall & ->).
    apply Forall2_cons_inv_l in Hall as (l3 & hd3 & H3 & Hall & ->).
    apply Forall2_cons_inv_l in Hall as (l4 & hd4 & H4 & Hall & ->).
    apply Forall2_cons_inv_l in Hall as (l5 & hd5 & H5 & Hall & ->).
    apply Forall2_cons_inv_l in Hall as (l6 & hd6 & H6 & Hall & ->).
    apply Forall2_nil_inv_l in Hall as ->.
    apply (proj1 (accepts_exact "^No errors$" "No errors" l1)) in H1 as ->.
    apply (proj1 (accepts_exact "^No warnings$" "No warnings" l2)) in H2 as ->.
    apply (proj1 (accepts_counted "^[0-9]* ms$" " ms" l3 ltac:(discriminate)))
      in H3 as (n1 & Hn1 & ->).
    apply (proj1 (accepts_exact "^data source=metars$" "data source=metars" l4)) in H4 as ->.
    apply (proj1 (accepts_counted "^[0-9]* results$" " results" l5 ltac:(discriminate)))
      in H5 as (n2 & Hn2 & ->).
    apply (proj1 (accepts_columns l6)) in H6 as (pre & post & ->).
    exists n1, n2, pre, post, (bufio.pending sc'). auto.
  - intros (n1 & n2 & pre & post & rest & Hn1 & Hn2 & Hp).
    destruct (checkLines_prefix metarHeaders [] sc _ rest Hp) as (sc' & E & _).
    + unfold metarHeaders.
      constructor;
        [apply (proj2 (accepts_exact "^No errors$" "No errors" _)); reflexivity|].
      constructor;
        [apply (proj2 (accepts_exact "^No warnings$" "No warnings" _)); reflexivity|].
      constructor;
        [apply (proj2 (accepts_counted "^[0-9]* ms$" " ms" _ ltac:(discriminate)));
         exists n1; auto|].
      constructor;
        [apply (proj2 (accepts_exact "^data source=metars$" "data source=metars" _));
         reflexivity|].
      constructor;
        [apply (proj2 (accepts_counted "^[0-9]* results$" " results" _
                         ltac:(discriminate)));
         exists n2; auto|].
      constructor; [|constructor].
      apply (proj2 (accepts_columns _)). exists pre, post. reflexivity.
    + rewrite app_nil_r in E. rewrite E. reflexivity.
Qed.

Lemma header_block_accepted_witness :
  snd (checkLines metarHeaders
         (feed ["No errors"; "No warnings"; " ms"; "data source=metars"; "07 results";
                "#" +:+ columns +:+ ",extra_column"; "KSEA"] None)) = Nil.
Proof.
  apply (proj2 (header_block_accepted _)).
  exists EmptyString, "07", "#", ",extra_column", ["KSEA"].
  split; [constructor|]. split; [|reflexivity].
  repeat constructor.
Defined.

(** ** The command line *)

Lemma Flags_Parse_formal f args :
  Flags_Parse f args = flag.Parse formal args default_flags.
Proof. reflexivity. Qed.

Lemma formal_lookup name :
  formal !! name =
  if decide ("download" = name) then Some (flag.boolValue set_download)
  else if decide ("filename" = name) then Some (flag.stringValue set_filename)
  else if decide ("dburl" = name) then Some (flag.stringValue set_dbURL)
  else None.
Proof.
  unfold formal. rewrite !lookup_insert, lookup_empty. reflexivity.
Qed.

Lemma cut_spec name : forall n v,
  flag.cut name = (n, v) ->
  match v with
  | Some x => name = n +:+ "=" +:+ x
  | None => name = n
  end.
Proof.
  induction name as [|c name IH]; intros n v H; cbn in H.
  - now injection H as <- <-.
  - destruct (Ascii.eqb c "=") eqn:Hc.
    + apply Ascii.eqb_eq in Hc as ->. now injection H as <- <-.
    + destruct (flag.cut name) as [n' v'] eqn:Hcut. injection H as <- <-.
      specialize (IH _ _ eq_refl). destruct v'; now rewrite IH at 1.
Qed.

Lemma named_spec name n v :
  flag.named name = flag.Flag n v ->
  match v with
  | Some x => name = n +:+ "=" +:+ x
  | None => name = n
  end.
Proof.
  unfold flag.named. destruct name as [|c name]; [discriminate|].
  destruct (Ascii.eqb c "-" || Ascii.eqb c "="); [discriminate|].
  destruct (flag.cut name) as [n' v'] eqn:Hcut. intros [= <- <-].
  pose proof (cut_spec _ _ _ Hcut) as H. destruct v'; now rewrite H at 1.
Qed.

(** A flag is written with one dash or with two. *)
Lemma scan_spec a n v :
  flag.scan a = flag.Flag n v ->
  match v with
  | Some x => a = "-" +:+ n +:+ "=" +:+ x \/ a = "--" +:+ n +:+ "=" +:+ x
  | None => a = "-" +:+ n \/ a = "--" +:+ n
  end.
Proof.
  unfold flag.scan. destruct a as [|c0 [|c1 a]]; try discriminate.
  - destruct (Ascii.eqb_spec c0 "-"); [subst|]; discriminate || idtac.
    all: try (destruct c0 as [[] [] [] [] [] [] [] []]; discriminate).
  - destruct (Ascii.eqb_spec c0 "-") as [->|Hc0];
      [|destruct c0 as [[] [] [] [] [] [] [] []]; try discriminate; now contradiction Hc0].
    destruct (Ascii.eqb_spec c1 "-") as [->|Hc1].
    + destruct a as [|c2 a]; [discriminate|]. intros H. apply named_spec in H.
      destruct v; right; now rewrite H.
    + assert (E : flag.scan (String "-" (String c1 a)) = flag.named (String c1 a)).
      { destruct c1 as [[] [] [] [] [] [] [] []]; try reflexivity. now contradiction Hc1. }
      unfold flag.scan in E. rewrite E. intros H. apply named_spec in H.
      destruct v; left; now rewrite H.
Qed.

(** One step of the loop of [Parse] on the flags of the program. *)
Lemma Parse_step a args s :
  flag.Parse formal (a :: args) s =
  match flag.scan a with
  | flag.NonFlag | flag.Terminator => inl s
  | flag.Bad => inr (flag.BadSyntax a)
  | flag.Flag name value =>
      if decide ("download" = name) then
        match value with
        | Some v =>
            match flag.ParseBool v with
            | Some b => flag.Parse formal args (set_download b s)
            | None => inr (flag.InvalidBoolean v name)
            end
        | None => flag.Parse formal args (set_download true s)
        end
      else if decide ("filename" = name) then
        match value with
        | Some v => flag.Parse formal args (set_filename v s)
        | None =>
            match args with
            | v :: args' => flag.Parse formal args' (set_filename v s)
            | [] => inr (flag.NeedsArgument name)
            end
        end
      else if decide ("dburl" = name) then
        match value with
        | Some v => flag.Parse formal args (set_dbURL v s)
        | None =>
            match args with
            | v :: args' => flag.Parse formal args' (set_dbURL v s)
            | [] => inr (flag.NeedsArgument name)
            end
        end
      else if String.eqb name "help" || String.eqb name "h" then inr flag.Help
      else inr (flag.NotDefined name)
  end.
Proof.
  cbn [flag.Parse]. destruct (flag.scan a) as [| | |name value]; try reflexivity.
  rewrite formal_lookup. repeat case_decide; reflexivity.
Qed.

(** Induction on argument lists for a loop that takes one or two
    arguments at a time. *)
Lemma args_ind (P : list string -> Prop) :
  P [] ->
  (forall a args, P args -> (forall v args', args = v :: args' -> P args') -> P (a :: args)) ->
  forall args, P args.
Proof.
  intros Hnil Hcons.
  assert (H : forall args, P args /\ (forall v args', args = v :: args' -> P args')).
  { induction args as [|a args [IH1 IH2]].
    - split; [exact Hnil|discriminate].
    - split; [now apply Hcons|]. intros v args' [= -> ->]. exact IH1. }
  intros args. apply H.
Qed.

Lemma scan_spelled a n v : flag.scan a = flag.Flag n v -> spelled n a.
Proof.
  intros H. apply scan_spec in H. unfold spelled.
  destruct v as [x|]; [|tauto]. right. right. exists x. exact H.
Qed.

Lemma Parse_changes args : forall s f,
  flag.Parse formal args s = inl f ->
  (download f = false ->
   download s = false
   \/ exists a v, a ∈ args
                  /\ (a = "-download=" +:+ v \/ a = "--download=" +:+ v)
                  /\ flag.ParseBool v = Some false)
  /\ (filename f = filename s \/ exists a, a ∈ args /\ spelled "filename" a)
  /\ (dbURL f = dbURL s \/ exists a, a ∈ args /\ spelled "dburl" a).
Proof.
  induction args as [|a args IH1 IH2] using args_ind; intros s f H.
  - injection H as <-. auto.
  - assert (Hlater : forall s',
               (download f = false ->
                download s' = false
                \/ exists a v, a ∈ args
                               /\ (a = "-download=" +:+ v \/ a = "--download=" +:+ v)
                               /\ flag.ParseBool v = Some false)
               /\ (filename f = filename s' \/ exists a, a ∈ args /\ spelled "filename" a)
               /\ (dbURL f = dbURL s' \/ exists a, a ∈ args /\ spelled "dburl" a) ->
               (download f = false ->
                download s' = false
                \/ exists a0 v, a0 ∈ a :: args
                                /\ (a0 = "-download=" +:+ v \/ a0 = "--download=" +:+ v)
                                /\ flag.ParseBool v = Some false)
               /\ (filename f = filename s'
                   \/ exists a0, a0 ∈ a :: args /\ spelled "filename" a0)
               /\ (dbURL f = dbURL s' \/ exists a0, a0 ∈ a :: args /\ spelled "dburl" a0)).
    { intros s' (Hd & Hf & Hu). split; [|split].
      - intros Hfalse. destruct (Hd Hfalse) as [?|(a0 & v & Hin & ?)]; [now left|].
        right. exists a0, v. split; [now right|assumption].
      - destruct Hf as [?|(a0 & Hin & ?)]; [now left|]. right. exists a0.
        split; [now right|assumption].
      - destruct Hu as [?|(a0 & Hin & ?)]; [now left|]. right. exists a0.
        split; [now right|assumption]. }
    rewrite Parse_step in H. destruct (flag.scan a) as [| | |name value] eqn:Hscan.
    + injection H as <-. auto.
    + injection H as <-. auto.
    + discriminate.
    + pose proof (scan_spelled _ _ _ Hscan) as Hsp.
      pose proof (scan_spec _ _ _ Hscan) as Hsc.
      assert (Hhere : a ∈ a :: args) by left.
      repeat case_decide; subst.
      * destruct value as [v|].
        -- destruct (flag.ParseBool v) as [b|] eqn:Hb; [|discriminate].
           destruct (Hlater _ (IH1 _ _ H)) as (Hd & Hf & Hu).
           split; [|split; assumption]. intros Hfalse.
           destruct (Hd Hfalse) as [Hset|?]; [|now right].
           cbn in Hset. subst b. right. exists a, v. auto.
        -- destruct (Hlater _ (IH1 _ _ H)) as (Hd & Hf & Hu).
           split; [|split; assumption]. intros Hfalse.
           destruct (Hd Hfalse) as [Hset|?]; [discriminate|now right].
      * assert (Hmine : filename f = filename s
                        \/ exists a0, a0 ∈ a :: args /\ spelled "filename" a0)
          by (right; eauto).
        destruct value as [v|].
        -- destruct (Hlater _ (IH1 _ _ H)) as (Hd & _ & Hu). auto.
        -- destruct args as [|v args']; [discriminate|].
           destruct (Hlater (set_filename v s)) as (Hd & _ & Hu); [|auto].
           destruct (IH2 v args' eq_refl _ _ H) as (Hd & Hf & Hu).
           split; [|split].
           ++ intros Hfalse. destruct (Hd Hfalse) as [?|(a0 & x & Hin & ?)]; [now left|].
              right. exists a0, x. split; [now right|assumption].
           ++ destruct Hf as [?|(a0 & Hin & ?)]; [now left|]. right. exists a0.
              split; [now right|assumption].
           ++ destruct Hu as [?|(a0 & Hin & ?)]; [now left|]. right. exists a0.
              split; [now right|assumption].
      * assert (Hmine : dbURL f = dbURL s
                        \/ exists a0, a0 ∈ a :: args /\ spelled "dburl" a0)
          by (right; eauto).
        destruct value as [v|].
        -- destruct (Hlater _ (IH1 _ _ H)) as (Hd & Hf & _). auto.
        -- destruct args as [|v args']; [discriminate|].
           destruct (Hlater (set_dbURL v s)) as (Hd & Hf & _); [|auto].
           destruct (IH2 v args' eq_refl _ _ H) as (Hd & Hf & Hu).
           split; [|split].
           ++ intros Hfalse. destruct (Hd Hfalse) as [?|(a0 & x & Hin & ?)]; [now left|].
              right. exists a0, x. split; [now right|assumption].
           ++ destruct Hf as [?|(a0 & Hin & ?)]; [now left|]. right. exists a0.
              split; [now right|assumption].
           ++ destruct Hu as [?|(a0 & Hin & ?)]; [now left|]. right. exists a0.
              split; [now right|assumption].
      * destruct (String.eqb name "help" || String.eqb name "h"); discriminate.
Qed.

(** X2. A field of the flags differs from its default only when its flag
    is on the command line: the download is off only after an argument
    [-download=v] or [--download=v] whose [v] reads as false (a separate word
    after [-download] does not count); a file name or a database URL is there
    only after an argument that names its flag.  What the receiver held
    before the call plays no part. *)
Theorem Flags_Parse_defaults f0 args f :
  Flags_Parse f0 args = inl f ->
  (download f = false ->
   exists a v, a ∈ args
               /\ (a = "-download=" +:+ v \/ a = "--download=" +:+ v)
               /\ flag.ParseBool v = Some false)
  /\ (filename f <> EmptyString -> exists a, a ∈ args /\ spelled "filename" a)
  /\ (dbURL f <> EmptyString -> exists a, a ∈ args /\ spelled "dburl" a).
Proof.
  rewrite Flags_Parse_formal. intros H.
  destruct (Parse_changes _ _ _ H) as (Hd & Hf & Hu). cbn in Hd, Hf, Hu.
  split; [|split].
  - intros Hfalse. destruct (Hd Hfalse) as [?|?]; [discriminate|assumption].
  - intros Hne. destruct Hf as [?|?]; [contradiction|assumption].
  - intros Hne. destruct Hu as [?|?]; [contradiction|assumption].
Qed.

Lemma Flags_Parse_defaults_witness :
  exists a v, a ∈ ["--filename"; "metars.csv"; "-download=F"]
              /\ (a = "-download=" +:+ v \/ a = "--download=" +:+ v)
              /\ flag.ParseBool v = Some false.
Proof.
  apply (Flags_Parse_defaults zero_flags ["--filename"; "metars.csv"; "-download=F"]
           {| dbURL := EmptyString; filename := "metars.csv"; download := false |}
           eq_refl).
  reflexivity.
Defined.

Lemma Parse_stops x rest :
  flag.scan x = flag.NonFlag \/ x = "--" ->
  forall args s f,
    flag.Parse formal args s = inl f ->
    flag.Parse formal (args ++ x :: rest) s = inl f.
Proof.
  intros Hx. induction args as [|a args IH1 IH2] using args_ind; intros s f H.
  - injection H as <-. cbn [app]. rewrite Parse_step.
    destruct Hx as [-> | ->]; reflexivity.
  - cbn [app]. rewrite Parse_step in H |- *.
    destruct (flag.scan a) as [| | |name value]; try exact H.
    repeat case_decide; try exact H.
    + destruct value as [v|]; [|now apply IH1].
      destruct (flag.ParseBool v); [now apply IH1|exact H].
    + destruct value as [v|]; [now apply IH1|].
      destruct args as [|v args']; [discriminate|]. cbn [app]. now apply (IH2 v args').
    + destruct value as [v|]; [now apply IH1|].
      destruct args as [|v args']; [discriminate|]. cbn [app]. now apply (IH2 v args').
Qed.

(** X3. Parsing ends at the first argument that is not a flag (it is
    shorter than two characters or has no leading dash) and at the terminator
    [--]: when a command line parses, what is put after it behind such an
    argument changes nothing, flags included. *)
Theorem Flags_Parse_stops f0 args f x rest :
  Flags_Parse f0 args = inl f ->
  flag.scan x = flag.NonFlag \/ x = "--" ->
  Flags_Parse f0 (args ++ x :: rest) = inl f.
Proof.
  rewrite !Flags_Parse_formal. intros H Hx. now apply Parse_stops.
Qed.

Lemma Flags_Parse_stops_witness :
  Flags_Parse zero_flags (["--download"] ++ "false" :: ["--filename"; "metars.csv"])
  = inl default_flags.
Proof.
  apply (Flags_Parse_stops zero_flags ["--download"] default_flags "false"
           ["--filename"; "metars.csv"]).
  - reflexivity.
  - left. reflexivity.
Defined.

(** ** The process *)

(** What a run does to the table: the upserts of the records of the file,
    when the ingestion succeeded, and nothing otherwise; and when the table
    changed, the run returned nil or failed on the removal of the file. *)
Lemma run_table time_Parse env w flags w' r :
  run time_Parse env w flags = (w', r) ->
  metars w' = metars w
  \/ (exists recs, metars w' = upserts (metars w) recs)
     /\ (r = Nil
         \/ exists e, download flags = true
                      /\ r = Err (Errorf "removing file: %w" [W (Some e)])).
Proof.
  rewrite run_unfold.
  destruct (fetched env w flags) as [w1 r1] eqn:Hf.
  destruct (fetched_calls _ _ _ _ _ Hf) as [Hm1 _].
  destruct r1; [|intros [= <- <-]; now left..].
  destruct (sql_Open_err env "postgres" (dbURL flags)); [intros [= <- <-]; now left|].
  destruct (fileToDB time_Parse env w1 (filename flags)) as [w2 r2] eqn:Hing.
  destruct r2 as [|e|p];
    [|destruct (fileToDB_effects _ _ _ _ _ _ Hing) as [_ Hm2];
      intros [= <- <-]; left; rewrite Hm2 by discriminate; exact Hm1..].
  destruct (fileToDB_Nil_records _ _ _ _ _ Hing) as (data & recs & _ & _ & ->).
  unfold os_Remove, logged. cbn [ingested fs metars log].
  intros H. right. split.
  - exists recs. rewrite <- Hm1.
    destruct (download flags); [|now injection H as <- _].
    destruct (remove_err env (filename flags)); [now injection H as <- _|].
    destruct (fs w1 !! filename flags); now injection H as <- _.
  - destruct (download flags); [|left; now injection H as _ <-].
    destruct (remove_err env (filename flags)); [right; injection H as _ <-; eauto|].
    destruct (fs w1 !! filename flags);
      [left; now injection H as _ <-|right; injection H as _ <-; eauto].
Qed.

(** X4. How the process ends and what it leaves.  A command line that
    does not parse ends the process before anything is done: the world is
    untouched.  The table is changed only when [main] returns, or when
    [log.Fatal] reports that the file could not be removed: every other
    failure leaves the table as it was.  And [main] returns exactly when the
    flags parse and [run] returns nil. *)
Theorem main_ending time_Parse env w args w' e :
  main time_Parse env w args = (w', e) ->
  (forall why, e = UsageExit why -> w' = w)
  /\ (metars w' <> metars w ->
      e = Returned
      \/ exists err, e = Fatal (Errorf "removing file: %w" [W (Some err)]))
  /\ (e = Returned <->
      exists flags, Flags_Parse zero_flags args = inl flags
                    /\ run time_Parse env w flags = (w', Nil)).
Proof.
  unfold main. fold zero_flags.
  destruct (Flags_Parse zero_flags args) as [flags|why] eqn:Hp.
  - destruct (run time_Parse env w flags) as [w1 r] eqn:Hrun.
    pose proof (run_table _ _ _ _ _ _ Hrun) as Ht.
    destruct r as [|err|p]; intros [= <- <-].
    + split; [discriminate|]. split; [auto|]. split; [eauto|reflexivity].
    + split; [discriminate|]. split.
      * intros Hne. right. destruct Ht as [?|[_ [?|(x & _ & [= ->])]]];
          [contradiction|discriminate|eauto].
      * split; [discriminate|]. intros (flags' & [= <-] & H). congruence.
    + split; [discriminate|]. split.
      * intros Hne. destruct Ht as [?|[_ [?|(x & _ & ?)]]];
          [contradiction|discriminate..].
      * split; [discriminate|]. intros (flags' & [= <-] & H). congruence.
  - intros [= <- <-]. split; [reflexivity|]. split; [contradiction|].
    split; [discriminate|]. intros (flags' & [=] & _).
Qed.

Lemma main_ending_witness :
  snd (main time.Parse (locked sample_file) nothing
         ["--filename"; "metars.csv"])
  = Returned
  \/ exists err,
      snd (main time.Parse (locked sample_file) nothing
             ["--filename"; "metars.csv"])
      = Fatal (Errorf "removing file: %w" [W (Some err)]).
Proof.
  destruct (main_ending time.Parse (locked sample_file) nothing
              ["--filename"; "metars.csv"] _ _ (surjective_pairing _)) as (_ & Hstored & _).
  apply Hstored. vm_compute. discriminate.
Defined.

(** ** The rows a run leaves *)

Lemma keys_upserts_prefix recs : forall t,
  exists extra, key <$> upserts t recs = (key <$> t) ++ extra.
Proof.
  induction recs as [|r recs IH]; intros t.
  - exists []. now rewrite app_nil_r.
  - rewrite upserts_cons. destruct (IH (sql.upsert r t)) as (extra & ->).
    rewrite keys_upsert. destruct (decide _); [eauto|].
    exists ([key r] ++ extra). now rewrite app_assoc.
Qed.

(** X5. No run deletes a row or moves a row to another station or time:
    whatever the flags, the outside world and the outcome, the keys of the
    table before the run are the first keys of the table after it; and a
    table that satisfied the unique index on (station, time) satisfies it
    after the run. *)
Theorem run_keeps_rows time_Parse env w flags w' r :
  run time_Parse env w flags = (w', r) ->
  (exists extra, key <$> metars w' = (key <$> metars w) ++ extra)
  /\ (unique (metars w) -> unique (metars w')).
Proof.
  intros H. destruct (run_table _ _ _ _ _ _ H) as [E|[(recs & E) _]]; rewrite E.
  - split; [exists []; now rewrite app_nil_r|auto].
  - split; [apply keys_upserts_prefix|apply unique_upserts].
Qed.

Lemma run_keeps_rows_witness :
  (exists extra,
      key <$> metars (fst (run time.Parse (quiet revised_file)
                             {| fs := ∅; metars := [ksea; kpdx]; log := [] |}
                             with_download))
      = (key <$> [ksea; kpdx]) ++ extra)
  /\ unique (metars (fst (run time.Parse (quiet revised_file)
                            {| fs := ∅; metars := [ksea; kpdx]; log := [] |}
                            with_download))).
Proof.
  destruct (run_keeps_rows time.Parse (quiet revised_file)
              {| fs := ∅; metars := [ksea; kpdx]; log := [] |} with_download
              _ _ (surjective_pairing _)) as [Hkeys Huniq].
  split; [exact Hkeys|]. apply Huniq.
  apply NoDup_cons. split; [intros Hin; other_call Hin|apply NoDup_singleton].
Defined.

(** X6. The table after a file was ingested, key by key: a key that no
    record of the file has keeps the rows it had; and on a table that
    satisfies the unique index, a key that records of the file have has
    exactly one row, the last of these records (a later line of the same file
    overrides an earlier one). *)
Theorem fileToDB_by_key time_Parse env w fname w' data recs :
  fileToDB time_Parse env w fname = (w', Nil) ->
  fs w !! fname = Some data ->
  file_records time_Parse data = Some recs ->
  (forall k, k ∉ key <$> recs -> stored k (metars w') = stored k (metars w))
  /\ (unique (metars w) ->
      forall pre row post,
        recs = pre ++ row :: post ->
        Forall (fun later => key later <> key row) post ->
        stored (key row) (metars w') = [row]).
Proof.
  intros H Hd Hr.
  destruct (fileToDB_Nil_records _ _ _ _ _ H) as (data' & recs' & Hd' & Hr' & ->).
  assert (data' = data) as -> by congruence.
  assert (recs' = recs) as -> by congruence.
  cbn [ingested metars]. split.
  - intros k Hk. apply stored_upserts_after. apply Forall_forall.
    intros r Hin E. apply Hk. rewrite <- E. apply list_elem_of_fmap. eauto.
  - intros Hu pre row post -> Hpost. now apply stored_upserts_last.
Qed.

Lemma fileToDB_by_key_witness :
  stored (key kpdx) (metars (fst (ingest repeated_on_disk "metars.csv"))) = [kpdx]
  /\ stored (key ksea_revised) (metars (fst (ingest repeated_on_disk "metars.csv")))
     = [ksea_revised].
Proof.
  destruct (fileToDB_by_key time.Parse (quiet EmptyString) repeated_on_disk
              "metars.csv" (fst (ingest repeated_on_disk "metars.csv")) repeated_file
              [ksea; ksea_revised]) as [Hother Hlast];
    [vm_compute; reflexivity..|].
  split.
  - rewrite Hother; [vm_compute; reflexivity|].
    intros Hin. vm_compute in Hin. other_call Hin.
  - apply (Hlast ltac:(apply NoDup_singleton) [ksea] ksea_revised []);
      [reflexivity|constructor].
Defined.

(** ** More on the failures of a file *)

(** X7. A line the CSV reader refuses (the empty line is one: the reader
    has nothing to read and reports [io.EOF]) is rejected by [writeLine] with
    the error [parsing line] that wraps the reader's, and nothing is
    executed; a file that has such a line among its data lines is not
    ingested, and when the lines before it were written, the failure of
    [fileToDB] names that line. *)
Theorem csv_error_rejected time_Parse env text e :
  csv.Read text = Error e ->
  csv.Read EmptyString = Error csv.EOF
  /\ (forall tx,
         writeLine time_Parse env tx text
         = (tx, Err (Errorf "parsing line: %w" [W (Some e)])))
  /\ (forall w fname sc w' r,
         data_phase env w fname sc ->
         text ∈ bufio.pending sc ->
         fileToDB time_Parse env w fname = (w', r) ->
         r <> Nil
         /\ metars w' = metars w
         /\ log w' = log w ++ [Open fname; Begin; Rollback])
  /\ (forall w fname sc w' r pre post tx,
         data_phase env w fname sc ->
         bufio.pending sc = pre ++ text :: post ->
         writeLines time_Parse env (begun w) pre = (tx, Nil) ->
         fileToDB time_Parse env w fname = (w', r) ->
         r = Err (Errorf "writing line %q: %w"
                    [Q text; W (Some (Errorf "parsing line: %w" [W (Some e)]))])).
Proof.
  intros Hcsv.
  assert (Hline : forall tx,
             writeLine time_Parse env tx text
             = (tx, Err (Errorf "parsing line: %w" [W (Some e)]))).
  { intros tx. unfold writeLine. now rewrite Hcsv. }
  split; [reflexivity|]. split; [exact Hline|]. split.
  - intros w fname sc w' r Hphase Hin H.
    destruct (fileToDB_data_failure time_Parse env w fname sc w' r Hphase) as (Hr & Hm & _ & Hl);
      [left|exact H|auto].
    apply (writeLines_In_fail time_Parse env _ _ text Hin). intros tx'. now rewrite Hline.
  - intros w fname sc w' r pre post tx Hphase Hp Hpre H.
    pose proof (writeLines_app_fail _ _ pre _ tx text post _ Hpre eq_refl) as Hw.
    rewrite Hline in Hw. cbn [snd] in Hw. specialize (Hw ltac:(discriminate)).
    destruct Hphase as (Ho & Hb & data & Hd & Hc). revert H.
    unfold fileToDB, os_Open, db_Begin, defer_Rollback, logged.
    cbn [fs metars log fst snd]. rewrite Ho, Hd, Hc, Hb, Hp.
    unfold begun in Hw. cbn [fs metars log fst snd].
    destruct (writeLines time_Parse env _ (pre ++ text :: post)) as [tx2 r2].
    cbn [snd] in Hw. subst r2. now intros [= <- <-].
Qed.

Lemma csv_error_rejected_witness :
  snd (ingest (on_disk "metars.csv" gapped_file) "metars.csv")
  = Err (Errorf "writing line %q: %w"
           [Q EmptyString; W (Some (Errorf "parsing line: %w" [W (Some csv.EOF)]))]).
Proof.
  destruct (csv_error_rejected time.Parse (quiet EmptyString) EmptyString csv.EOF
              eq_refl) as (_ & _ & _ & Hfirst).
  apply (Hfirst (on_disk "metars.csv" gapped_file) "metars.csv"
           (fst (checkLines metarHeaders (bufio.NewScanner gapped_file None)))
           (fst (ingest (on_disk "metars.csv" gapped_file) "metars.csv")) _
           ["KSEA 010000Z AUTO,KSEA,2024-01-01T00:00:00Z,47.45"]
           ["KPDX 010005Z AUTO,KPDX,2024-01-01T00:05:00Z,45.59"]
           (executed empty_tx [ksea])).
  - split; [reflexivity|]. split; [reflexivity|].
    exists gapped_file. split; vm_compute; reflexivity.
  - vm_compute. reflexivity.
  - vm_compute. reflexivity.
  - apply surjective_pairing.
Defined.

Lemma writeLines_stmts time_Parse env lines : forall tx tx',
  writeLines time_Parse env tx lines = (tx', Nil) ->
  length (sql.stmts tx') = (length (sql.stmts tx) + length lines)%nat.
Proof.
  intros tx tx' H.
  destruct (writeLines_Nil_inv _ _ _ _ _ H) as (recs & Hm & -> & _).
  apply mapM_Some_1, Forall2_length in Hm. cbn. rewrite length_app. lia.
Qed.

(** X8. A write the database refuses.  When the lines before a line were
    written and the statement of that line fails, [writeLine] hands the
    error of the database on as it is, [fileToDB] wraps it once with the
    line, and the rows written before are dropped with the transaction: the
    table is what it was, and nothing was committed. *)
Theorem write_error_rejected time_Parse env w fname sc w' r pre text post tx row e :
  data_phase env w fname sc ->
  bufio.pending sc = pre ++ text :: post ->
  writeLines time_Parse env (begun w) pre = (tx, Nil) ->
  record_of time_Parse text = Some row ->
  exec_err env (length pre) = Some e ->
  fileToDB time_Parse env w fname = (w', r) ->
  writeLine time_Parse env tx text = (tx, Err e)
  /\ r = Err (Errorf "writing line %q: %w" [Q text; W (Some e)])
  /\ metars w' = metars w
  /\ log w' = log w ++ [Open fname; Begin; Rollback].
Proof.
  intros Hphase Hp Hpre Hrow Hex H.
  assert (Hline : writeLine time_Parse env tx text = (tx, Err e)).
  { pose proof (writeLines_stmts _ _ _ _ _ Hpre) as Hlen. cbn in Hlen.
    revert Hrow. unfold record_of, writeLine, Exec.
    destruct (csv.Read text) as [parts|]; [|discriminate].
    destruct (parts !! 1%nat); [|discriminate].
    destruct (parts !! 2%nat); [|discriminate]. cbn.
    destruct (time_Parse time.RFC3339 _); [|discriminate].
    intros _. now rewrite Hlen, Hex. }
  split; [exact Hline|].
  pose proof (writeLines_app_fail _ _ pre _ tx text post _ Hpre eq_refl) as Hw.
  rewrite Hline in Hw. cbn [snd] in Hw. specialize (Hw ltac:(discriminate)).
  destruct (fileToDB_data_failure time_Parse env w fname sc w' r Hphase) as (_ & Hm & _ & Hl);
    [left; rewrite Hp, Hw; discriminate|exact H|].
  split; [|auto].
  destruct Hphase as (Ho & Hb & data & Hd & Hc). revert H.
  unfold fileToDB, os_Open, db_Begin, defer_Rollback, logged.
  cbn [fs metars log fst snd]. rewrite Ho, Hd, Hc, Hb, Hp.
  unfold begun in Hw. cbn [fs metars log fst snd].
  destruct (writeLines time_Parse env _ (pre ++ text :: post)) as [tx2 r2].
  cbn [snd] in Hw. subst r2. now intros [= <- <-].
Qed.

Lemma write_error_rejected_witness :
  snd (fileToDB time.Parse second_write_fails
         (on_disk "metars.csv" sample_file) "metars.csv")
  = Err (Errorf "writing line %q: %w"
           [Q "KPDX 010005Z AUTO,KPDX,2024-01-01T00:05:00Z,45.59";
            W (Some (Sentinel "driver.ErrBadConn"))])
  /\ metars (fst (fileToDB time.Parse second_write_fails
                    (on_disk "metars.csv" sample_file) "metars.csv")) = [].
Proof.
  destruct (write_error_rejected time.Parse second_write_fails
              (on_disk "metars.csv" sample_file) "metars.csv"
              (fst (checkLines metarHeaders (bufio.NewScanner sample_file None)))
              (fst (fileToDB time.Parse second_write_fails
                      (on_disk "metars.csv" sample_file) "metars.csv"))
              (snd (fileToDB time.Parse second_write_fails
                      (on_disk "metars.csv" sample_file) "metars.csv"))
              ["KSEA 010000Z AUTO,KSEA,2024-01-01T00:00:00Z,47.45"]
              "KPDX 010005Z AUTO,KPDX,2024-01-01T00:05:00Z,45.59" []
              (executed empty_tx [ksea]) kpdx (Sentinel "driver.ErrBadConn"))
    as (_ & Hr & Hm & _).
  - split; [reflexivity|]. split; [reflexivity|].
    exists sample_file. split; vm_compute; reflexivity.
  - vm_compute. reflexivity.
  - vm_compute. reflexivity.
  - vm_compute. reflexivity.
  - reflexivity.
  - apply surjective_pairing.
  - split; assumption.
Defined.

(** ** The calls of one ingestion *)

(** X9. The calls of [fileToDB] follow one protocol.  It opens the file,
    begins at most one transaction, and a transaction that began is always
    rolled back last (the deferred call, which undoes nothing after a
    commit); there is at most one commit, it comes just before that rollback,
    and [fileToDB] returns nil only with it.  The one path that ends on
    [Begin] is the one on which the transaction did not begin. *)
Theorem fileToDB_protocol time_Parse env w fname w' r :
  fileToDB time_Parse env w fname = (w', r) ->
  (calls_since w w' = [Open fname]
   \/ calls_since w w' = [Open fname; Begin]
   \/ calls_since w w' = [Open fname; Begin; Rollback]
   \/ calls_since w w' = [Open fname; Begin; Commit; Rollback])
  /\ (r = Nil -> calls_since w w' = [Open fname; Begin; Commit; Rollback])
  /\ (calls_since w w' = [Open fname; Begin] ->
      exists e, begin_err env = Some e
                /\ r = Err (Errorf "starting transaction: %w" [W (Some e)]))
  /\ (calls_since w w' = [Open fname; Begin; Commit; Rollback] ->
      r = Nil
      \/ exists e, commit_err env = Some e
                   /\ r = Err (Errorf "committing: %w" [W (Some e)])).
Proof.
  unfold fileToDB, os_Open, db_Begin, tx_Commit, defer_Rollback, logged.
  cbn [fs metars log fst snd bufio.Err bufio.drained bufio.pending bufio.failure].
  assert (Hsince : forall (cs : list call) w1,
             log w1 = log w ++ cs -> calls_since w w1 = cs)
    by (intros cs w1 E; now apply calls_since_app).
  destruct (open_err env fname);
    [intros [= <- <-]; rewrite (Hsince [Open fname]) by reflexivity;
     repeat split; (discriminate || auto)|].
  destruct (fs w !! fname);
    [|intros [= <- <-]; rewrite (Hsince [Open fname]) by reflexivity;
      repeat split; (discriminate || auto)].
  destruct (checkLines metarHeaders _) as [sc [|e|p]];
    [|intros [= <- <-]; rewrite (Hsince [Open fname]) by reflexivity;
      repeat split; (discriminate || auto)..].
  destruct (begin_err env) as [e|] eqn:Hb;
    [intros [= <- <-];
     rewrite (Hsince [Open fname; Begin]) by (cbn; now rewrite <- !app_assoc);
     repeat split; (discriminate || eauto)|].
  destruct (writeLines _ _ _ _) as [tx [|e|p]];
    [|intros [= <- <-];
      rewrite (Hsince [Open fname; Begin; Rollback]) by (cbn; now rewrite <- !app_assoc);
      repeat split; (discriminate || auto)..].
  destruct (bufio.failure sc);
    [intros [= <- <-];
     rewrite (Hsince [Open fname; Begin; Rollback]) by (cbn; now rewrite <- !app_assoc);
     repeat split; (discriminate || auto)|].
  destruct (commit_err env) as [e|] eqn:Hcm;
    intros [= <- <-];
    rewrite (Hsince [Open fname; Begin; Commit; Rollback])
      by (cbn; now rewrite <- !app_assoc);
    repeat split; (discriminate || eauto).
Qed.

Lemma fileToDB_protocol_witness :
  calls_since (on_disk "metars.csv" sample_file)
    (fst (ingest (on_disk "metars.csv" sample_file) "metars.csv"))
  = [Open "metars.csv"; Begin; Commit; Rollback].
Proof.
  destruct (fileToDB_protocol time.Parse (quiet EmptyString)
              (on_disk "metars.csv" sample_file) "metars.csv" _ _ (surjective_pairing _))
    as (_ & Hnil & _).
  apply Hnil. vm_compute. reflexivity.
Defined.

(** ** The file of a download *)

Lemma downloadFile_Nil_inv env w url fname w' :
  downloadFile env w url fname = (w', Nil) ->
  fs w !! fname = None
  /\ exists resp,
      http_Get env metarURL = Ok resp
      /\ StatusCode resp = 200%Z
      /\ header (body resp) = None
      /\ trailer (body resp) = None
      /\ w' = {| fs := <[fname := payload (body resp)]> (fs w); metars := metars w;
                 log := log w ++ [Get metarURL; OpenFile fname] |}.
Proof.
  unfold downloadFile, gzip_NewReader, os_OpenFile_excl, io_Copy, logged.
  cbn [fs metars log fst snd].
  destruct (http_Get env metarURL) as [resp|e]; [|discriminate].
  destruct (StatusCode resp =? 200)%Z eqn:Hst; [|discriminate]. cbn [negb].
  destruct (header (body resp)) eqn:Hh; [discriminate|].
  destruct (create_err env fname); [discriminate|].
  destruct (fs w !! fname) eqn:Hfree; [discriminate|]. cbn [fs metars log fst snd].
  destruct (trailer (body resp)) eqn:Htr; [discriminate|].
  intros [= <-]. split; [reflexivity|]. exists resp.
  apply Z.eqb_eq in Hst. repeat split; try assumption.
  now rewrite insert_insert_eq, <- app_assoc.
Qed.

(** X10. The fetcher writes the destination and nothing else.  Whatever
    its outcome, it leaves the table alone, every other path of the file
    system as it was, and no file removed.  It returns nil only when the
    destination did not exist, and the destination then holds exactly the
    bytes decompressed from the body of a 200 response.  Its [url] argument
    plays no part: the request always goes to [metarURL]. *)
Theorem downloadFile_only_destination env w url fname w' r :
  downloadFile env w url fname = (w', r) ->
  metars w' = metars w
  /\ (forall path, path <> fname -> fs w' !! path = fs w !! path)
  /\ (forall path, is_Some (fs w !! path) -> is_Some (fs w' !! path))
  /\ (r = Nil ->
      fs w !! fname = None
      /\ exists resp,
          http_Get env metarURL = Ok resp
          /\ StatusCode resp = 200%Z
          /\ fs w' = <[fname := payload (body resp)]> (fs w))
  /\ (forall url', downloadFile env w url' fname = (w', r))
  /\ (exists calls, calls_since w w' = Get metarURL :: calls).
Proof.
  intros H. split; [apply (downloadFile_calls _ _ _ _ _ _ H)|].
  assert (Hfs : fs w' = fs w
                \/ fs w !! fname = None
                   /\ exists data, fs w' = <[fname := data]> (fs w)).
  { revert H. unfold downloadFile, gzip_NewReader, os_OpenFile_excl, io_Copy, logged.
    cbn [fs metars log fst snd].
    destruct (http_Get env metarURL) as [resp|e]; [|intros [= <- <-]; now left].
    destruct (negb (StatusCode resp =? 200)%Z); [intros [= <- <-]; now left|].
    destruct (header (body resp)); [intros [= <- <-]; now left|].
    destruct (create_err env fname); [intros [= <- <-]; now left|].
    destruct (fs w !! fname) eqn:Hfree; [intros [= <- <-]; now left|].
    cbn [fs metars log fst snd]. intros H. right. split; [reflexivity|].
    exists (payload (body resp)).
    destruct (trailer (body resp)); injection H as <- _; cbn [fs];
      apply insert_insert_eq. }
  split; [|split; [|split; [|split]]].
  - intros path Hpath. destruct Hfs as [->|(_ & data & ->)]; [reflexivity|].
    now apply lookup_insert_ne.
  - intros path Hsome. destruct Hfs as [->|(_ & data & ->)]; [assumption|].
    rewrite lookup_insert. case_decide; [eauto|assumption].
  - intros ->. destruct (downloadFile_Nil_inv _ _ _ _ _ H)
      as (Hfree & resp & Hget & Hst & _ & _ & ->).
    split; [assumption|]. exists resp. auto.
  - intros url'. exact H.
  - revert H. unfold downloadFile, logged. cbn [fs metars log].
    assert (Hsince : forall w1 cs, log w1 = log w ++ Get metarURL :: cs ->
                                   exists calls, calls_since w w1 = Get metarURL :: calls).
    { intros w1 cs E. exists cs. now apply calls_since_app. }
    destruct (http_Get env metarURL) as [resp|e];
      [|intros [= <- <-]; now apply (Hsince _ [])].
    destruct (negb (StatusCode resp =? 200)%Z); [intros [= <- <-]; now apply (Hsince _ [])|].
    destruct (gzip_NewReader (body resp)); [|intros [= <- <-]; now apply (Hsince _ [])].
    unfold os_OpenFile_excl, io_Copy, logged. cbn [fs metars log].
    destruct (create_err env fname);
      [intros [= <- <-]; apply (Hsince _ [OpenFile fname]); cbn;
       now rewrite <- app_assoc|].
    destruct (fs w !! fname);
      [intros [= <- <-]; apply (Hsince _ [OpenFile fname]); cbn;
       now rewrite <- app_assoc|].
    cbn [fs metars log fst snd].
    destruct (trailer _); intros [= <- <-];
      apply (Hsince _ [OpenFile fname]); cbn; now rewrite <- app_assoc.
Qed.

Lemma downloadFile_only_destination_witness :
  fs (on_disk "other.csv" broken_file) !! "metars.csv" = None
  /\ exists resp,
      http_Get (quiet sample_file) metarURL = Ok resp
      /\ StatusCode resp = 200%Z
      /\ fs (fst (downloadFile (quiet sample_file) (on_disk "other.csv" broken_file)
                    "http://localhost/" "metars.csv"))
         = <["metars.csv" := payload (body resp)]> (fs (on_disk "other.csv" broken_file)).
Proof.
  destruct (downloadFile_only_destination (quiet sample_file)
              (on_disk "other.csv" broken_file) "http://localhost/" "metars.csv" _ _
              (surjective_pairing _)) as (_ & _ & _ & Hnil & _).
  apply Hnil. vm_compute. reflexivity.
Defined.

(** X11. A run with the download that returns nil leaves no file behind.
    The destination did not exist before the run and does not exist after
    it, and the file system is what it was; the calls were, in order, the
    request, the creation of the file, its opening, begin, commit, the
    deferred rollback and the removal; and the table is the old one after the
    upserts of the records of the body that was served. *)
Theorem run_download_success time_Parse env w flags w' :
  run time_Parse env w flags = (w', Nil) ->
  download flags = true ->
  fs w !! filename flags = None
  /\ fs w' = fs w
  /\ calls_since w w'
     = [Get metarURL; OpenFile (filename flags); Open (filename flags); Begin; Commit;
        Rollback; Remove (filename flags)]
  /\ exists resp recs,
      http_Get env metarURL = Ok resp
      /\ file_records time_Parse (payload (body resp)) = Some recs
      /\ metars w' = upserts (metars w) recs.
Proof.
  rewrite run_unfold. unfold fetched. intros H Hd. rewrite Hd in H.
  destruct (downloadFile env w metarURL (filename flags)) as [w1 r1] eqn:Hdl.
  destruct r1; [|discriminate..].
  destruct (downloadFile_Nil_inv _ _ _ _ _ Hdl) as (Hfree & resp & Hget & _ & _ & _ & ->).
  destruct (sql_Open_err env "postgres" (dbURL flags)); [discriminate|].
  destruct (fileToDB time_Parse env _ (filename flags)) as [w2 r2] eqn:Hing.
  destruct r2; [|discriminate..].
  destruct (fileToDB_Nil_records _ _ _ _ _ Hing) as (data & recs & Hdata & Hrecs & ->).
  cbn [fs] in Hdata. rewrite lookup_insert_eq in Hdata. injection Hdata as <-.
  revert H. unfold os_Remove, logged. cbn [ingested fs metars log].
  destruct (remove_err env (filename flags)); [discriminate|].
  rewrite lookup_insert_eq. intros [= <-]. cbn [fs metars log].
  split; [assumption|]. split; [now apply delete_insert_id|]. split.
  - apply calls_since_app. cbn [log]. now rewrite <- !app_assoc.
  - exists resp, recs. auto.
Qed.

Lemma run_download_success_witness :
  fs (fst (run time.Parse (quiet sample_file) (on_disk "other.csv" broken_file)
             with_download))
  = fs (on_disk "other.csv" broken_file)
  /\ calls_since (on_disk "other.csv" broken_file)
       (fst (run time.Parse (quiet sample_file) (on_disk "other.csv" broken_file)
               with_download))
     = [Get metarURL; OpenFile "metars.csv"; Open "metars.csv"; Begin; Commit; Rollback;
        Remove "metars.csv"].
Proof.
  destruct (run_download_success time.Parse (quiet sample_file)
              (on_disk "other.csv" broken_file) with_download
              (fst (run time.Parse (quiet sample_file)
                      (on_disk "other.csv" broken_file) with_download)))
    as (_ & Hfs & Hcalls & _); [vm_compute; reflexivity|reflexivity|].
  split; assumption.
Defined.

(** ** One run after the other *)

(** With the download, a run on a world that has the file fails at the
    creation of the file and changes neither the files nor the table. *)
Lemma run_blocked time_Parse env w flags w' r :
  download flags = true ->
  is_Some (fs w !! filename flags) ->
  run time_Parse env w flags = (w', r) ->
  (exists e, r = Err (Errorf "downloading file: %w" [W (Some e)]))
  /\ fs w' = fs w
  /\ metars w' = metars w.
Proof.
  intros Hd [old Hold]. rewrite run_unfold. unfold fetched. rewrite Hd.
  unfold downloadFile, gzip_NewReader, os_OpenFile_excl, logged.
  cbn [fs metars log fst snd]. rewrite Hold.
  destruct (http_Get env metarURL) as [resp|e]; [|intros [= <- <-]; eauto].
  destruct (negb (StatusCode resp =? 200)%Z); [intros [= <- <-]; eauto|].
  destruct (header (body resp)); [intros [= <- <-]; eauto|].
  destruct (create_err env (filename flags)); intros [= <- <-]; eauto.
Qed.

(** X12. A failed run blocks the next one.  When the download of a run
    succeeded and the run then failed (at the database, in the ingestion or
    at the removal), the file stays where it was written; every later run
    with the download and the same file name then fails at [downloading
    file], whatever the outside world does, and stores nothing, until the
    file is taken away. *)
Theorem failed_run_blocks_next time_Parse env w flags wd w1 r1 :
  download flags = true ->
  fetched env w flags = (wd, Nil) ->
  run time_Parse env w flags = (w1, r1) ->
  r1 <> Nil ->
  is_Some (fs w1 !! filename flags)
  /\ forall env2 w2 r2,
      run time_Parse env2 w1 flags = (w2, r2) ->
      (exists e, r2 = Err (Errorf "downloading file: %w" [W (Some e)]))
      /\ fs w2 = fs w1
      /\ metars w2 = metars w1.
Proof.
  intros Hd Hf H Hr1.
  assert (Hthere : is_Some (fs w1 !! filename flags)).
  { revert H. rewrite run_unfold, Hf. unfold fetched in Hf. rewrite Hd in Hf.
    destruct (downloadFile_Nil_inv _ _ _ _ _ Hf) as (_ & resp & _ & _ & _ & _ & Hwd).
    assert (Hfile : is_Some (fs wd !! filename flags))
      by (rewrite Hwd; cbn [fs]; rewrite lookup_insert_eq; eauto).
    destruct (sql_Open_err env "postgres" (dbURL flags)); [now intros [= <- _]|].
    destruct (fileToDB time_Parse env wd (filename flags)) as [w2 r2] eqn:Hing.
    destruct (fileToDB_effects _ _ _ _ _ _ Hing) as [Hfs _].
    destruct r2; [|intros [= <- _]; now rewrite Hfs..].
    rewrite Hd. unfold os_Remove, logged. cbn [fs metars log].
    destruct (remove_err env (filename flags)); [intros [= <- _]; now rewrite Hfs|].
    rewrite Hfs. destruct Hfile as [data ->]. intros [= _ <-]. contradiction. }
  split; [exact Hthere|]. intros env2 w2 r2 H2.
  now apply (run_blocked time_Parse env2 w1 flags).
Qed.

Lemma failed_run_blocks_next_witness :
  exists e,
    snd (run time.Parse (quiet sample_file)
           (fst (run time.Parse (quiet broken_file) nothing with_download))
           with_download)
    = Err (Errorf "downloading file: %w" [W (Some e)]).
Proof.
  destruct (failed_run_blocks_next time.Parse (quiet broken_file) nothing
              with_download
              (fst (fetched (quiet broken_file) nothing with_download))
              (fst (run time.Parse (quiet broken_file) nothing with_download))
              (snd (run time.Parse (quiet broken_file) nothing with_download)))
    as [_ Hnext];
    [reflexivity|vm_compute; reflexivity|apply surjective_pairing
    |vm_compute; discriminate|].
  apply (Hnext (quiet sample_file) _ _ (surjective_pairing _)).
Defined.

(** The download that succeeded on one world succeeds, with the same bytes,
    on every world of the same outside in which the destination is free. *)
Lemma downloadFile_again env w url fname w1 :
  downloadFile env w url fname = (w1, Nil) ->
  exists data,
    fs w1 = <[fname := data]> (fs w)
    /\ metars w1 = metars w
    /\ forall w', fs w' !! fname = None ->
                  downloadFile env w' url fname
                  = ({| fs := <[fname := data]> (fs w'); metars := metars w';
                        log := log w' ++ [Get metarURL; OpenFile fname] |}, Nil).
Proof.
  unfold downloadFile, gzip_NewReader, os_OpenFile_excl, io_Copy, logged.
  cbn [fs metars log fst snd].
  destruct (http_Get env metarURL) as [resp|e]; [|discriminate].
  destruct (negb (StatusCode resp =? 200)%Z); [discriminate|].
  destruct (header (body resp)); [discriminate|].
  destruct (create_err env fname); [discriminate|].
  destruct (fs w !! fname); [discriminate|]. cbn [fs metars log fst snd].
  destruct (trailer (body resp)); [discriminate|].
  intros [= <-]. exists (payload (body resp)). cbn [fs metars].
  split; [apply insert_insert_eq|]. split; [reflexivity|].
  intros w' Hfree. rewrite Hfree. cbn [fs metars log fst snd].
  now rewrite insert_insert_eq, <- app_assoc.
Qed.

(** X13. A run that returned nil can be repeated.  In the same outside
    world (the same feed, the same file), the next run returns nil too and
    leaves the table and the files exactly as the first run left them: no row
    is added, none is changed. *)
Theorem run_idempotent time_Parse env w flags w1 :
  run time_Parse env w flags = (w1, Nil) ->
  exists w2,
    run time_Parse env w1 flags = (w2, Nil)
    /\ metars w2 = metars w1
    /\ fs w2 = fs w1.
Proof.
  rewrite !run_unfold. unfold fetched. destruct (download flags) eqn:Hd.
  - destruct (downloadFile env w metarURL (filename flags)) as [wd r] eqn:Hdl.
    destruct r; [|discriminate..].
    destruct (downloadFile_Nil_inv _ _ _ _ _ Hdl) as (Hfree & _).
    destruct (downloadFile_again _ _ _ _ _ Hdl) as (data & Hfs & Hm & Hagain).
    destruct (sql_Open_err env "postgres" (dbURL flags)); [discriminate|].
    destruct (fileToDB time_Parse env wd (filename flags)) as [wi r] eqn:Hing.
    destruct r; [|discriminate..].
    destruct (fileToDB_Nil_inv _ _ _ _ _ Hing)
      as (sc & recs & (Ho & Hb & data' & Hdata & Hc) & Hf & Hcm & Hrecs & Hex & ->).
    rewrite Hfs, lookup_insert_eq in Hdata. injection Hdata as <-.
    unfold os_Remove, logged. cbn [ingested fs metars log].
    destruct (remove_err env (filename flags)) eqn:Hrm; [discriminate|].
    rewrite Hfs, lookup_insert_eq. intros [= <-]. cbn [fs metars log].
    rewrite Hagain by (cbn [fs]; apply lookup_delete_eq).
    match goal with
    | |- context [fileToDB time_Parse env ?w0 (filename flags)] =>
        rewrite (fileToDB_Nil_intro time_Parse env w0 (filename flags) sc recs)
    end; try assumption.
    + cbn [ingested fs metars log]. rewrite lookup_insert_eq.
      eexists. split; [reflexivity|]. cbn [fs metars]. split.
      * rewrite Hm. apply upserts_idempotent.
      * apply delete_insert_id, lookup_delete_eq.
    + split; [assumption|]. split; [assumption|]. exists data.
      cbn [fs]. rewrite lookup_insert_eq. auto.
  - destruct (sql_Open_err env "postgres" (dbURL flags)); [discriminate|].
    destruct (fileToDB time_Parse env w (filename flags)) as [wi r] eqn:Hing.
    destruct r; [|discriminate..]. intros [= <-].
    destruct (fileToDB_Nil_inv _ _ _ _ _ Hing)
      as (sc & recs & Hphase & Hf & Hcm & Hrecs & Hex & ->).
    rewrite (fileToDB_Nil_intro time_Parse env _ (filename flags) sc recs);
      try assumption.
    eexists. split; [reflexivity|]. cbn [ingested fs metars].
    split; [apply upserts_idempotent|reflexivity].
Qed.

Lemma run_idempotent_witness :
  exists w2,
    run time.Parse (quiet sample_file)
      (fst (run time.Parse (quiet sample_file) nothing with_download))
      with_download
    = (w2, Nil)
    /\ metars w2
       = metars (fst (run time.Parse (quiet sample_file) nothing with_download))
    /\ fs w2 = fs (fst (run time.Parse (quiet sample_file) nothing with_download)).
Proof.
  apply (run_idempotent time.Parse (quiet sample_file) nothing with_download).
  vm_compute. reflexivity.
Defined.
